(** * Cinema ticket sales: payment route, configuration and schema migration

    A shallow embedding of
      - [app/blueprints/pago.py]   (server-side totals and the payment POST),
      - [app/__init__.py]          (the configuration read by [create_app]),
      - [app/db_migrations.py]     (the MercadoPago schema migration),
      - [wsgi.py]                  (the entry point),
    together with the seat hold / reservation store that [app/db.py]
    implements and that the payment route calls through [confirm_seats].

    Layout: definitions first (pieces of the Python runtime, the
    arithmetic of Python's [decimal] module, the configuration, the
    database, the payment route, the migration, the quote in the words of
    the specification, the booking invariant), then the theorems. *)

From Stdlib Require Import ZArith QArith Qround Qabs Qpower Lia List String Ascii Bool.
From Stdlib Require DecimalString.
From stdpp Require Import gmap strings list.

Local Open Scope Z_scope.

(** ** Exceptions and fallible computations *)

Inductive exn :=
| InvalidOperation
| Overflow
| ValueError (msg : string)
| OverflowError
| OperationalError (msg : string)
| IntegrityError (msg : string)
| OSError (msg : string)
| RuntimeError (msg : string).

Inductive res (A : Type) :=
| Ok (a : A)
| Raise (e : exn).
Arguments Ok {A} a.
Arguments Raise {A} e.

Definition bind {A B} (m : res A) (k : A → res B) : res B :=
  match m with
  | Ok a => k a
  | Raise e => Raise e
  end.

Notation "'do' x <- m ; k" := (bind m (fun x => k))
  (at level 10, x pattern, m at level 100, k at level 200).

Definition is_ok {A} (m : res A) : bool :=
  match m with Ok _ => true | Raise _ => false end.

(** ** Pieces of the Python runtime used by the source

    A text is the list of its characters, each one byte wide: the model
    follows Python's [str] on ASCII texts.  On a text with other
    characters Python's [strip], slices and [int] work on code points,
    which the model does not have. *)

Module Py.

Definition chars (s : string) : list ascii := list_ascii_of_string s.
Definition str (l : list ascii) : string := string_of_list_ascii l.

Definition code (a : ascii) : Z := Z.of_nat (nat_of_ascii a).

Definition is_digit (a : ascii) : bool := (48 <=? code a) && (code a <=? 57).

(** [str.isspace] on the ASCII range. *)
Definition is_space (a : ascii) : bool :=
  ((9 <=? code a) && (code a <=? 13)) || ((28 <=? code a) && (code a <=? 32)).

Definition lower_char (a : ascii) : ascii :=
  if (65 <=? code a) && (code a <=? 90)
  then ascii_of_nat (nat_of_ascii a + 32) else a.

(** [s.lower()] on the ASCII range. *)
Definition lower (l : list ascii) : list ascii := map lower_char l.

Fixpoint lstrip (l : list ascii) : list ascii :=
  match l with
  | a :: l' => if is_space a then lstrip l' else l
  | [] => []
  end.

(** [s.strip()] *)
Definition strip (l : list ascii) : list ascii :=
  rev (lstrip (rev (lstrip l))).

(** [s.replace(c, "")] for a one-character [c]. *)
Definition remove_char (c : ascii) (l : list ascii) : list ascii :=
  filter (fun a => negb (Ascii.eqb a c)) l.

Fixpoint span (p : ascii → bool) (l : list ascii) : list ascii * list ascii :=
  match l with
  | a :: l' =>
      if p a then let '(xs, ys) := span p l' in (a :: xs, ys) else ([], l)
  | [] => ([], [])
  end.

Definition digit_val (a : ascii) : Z := code a - 48.

Definition digits_val (l : list ascii) : Z :=
  fold_left (fun acc a => 10 * acc + digit_val a) l 0.

Definition is_nil {A} (l : list A) : bool :=
  match l with [] => true | _ => false end.

(** An optional leading sign; [true] is minus. *)
Definition take_sign (l : list ascii) : bool * list ascii :=
  match l with
  | "-"%char :: l' => (true, l')
  | "+"%char :: l' => (false, l')
  | _ => (false, l)
  end.

(** The digits of an [int] literal, read from the front: single
    underscores may separate digits.  The result is the value, the number
    of digits and the text after the literal; there is none when the
    text starts with no digit or an underscore is misplaced. *)
Fixpoint int_digits (l : list ascii) (acc : Z) (n : nat) (prev_digit : bool)
    : option (Z * nat * list ascii) :=
  match l with
  | a :: l' =>
      if is_digit a then int_digits l' (10 * acc + digit_val a) (S n) true
      else if Ascii.eqb a "_" then
        if prev_digit then int_digits l' acc n false else None
      else if prev_digit then Some (acc, n, l) else None
  | [] => if prev_digit then Some (acc, n, []) else None
  end.

(** The white space that [int] skips around a literal: tab to carriage
    return, and the space; unlike [str.strip], it leaves the separators
    28 to 31 in place. *)
Definition is_space_int (a : ascii) : bool :=
  ((9 <=? code a) && (code a <=? 13)) || (code a =? 32).

Fixpoint lstrip_int (l : list ascii) : list ascii :=
  match l with
  | a :: l' => if is_space_int a then lstrip_int l' else l
  | [] => []
  end.

Definition strip_int (l : list ascii) : list ascii :=
  rev (lstrip_int (rev (lstrip_int l))).

Definition squote : ascii := "'"%char.
Definition dquote : ascii := ascii_of_nat 34.
Definition backslash : ascii := ascii_of_nat 92.

Definition hex_digit (n : Z) : ascii :=
  ascii_of_nat (Z.to_nat (if n <? 10 then 48 + n else 87 + n)).

Definition repr_char (q a : ascii) : list ascii :=
  if Ascii.eqb a backslash then [backslash; backslash]
  else if Ascii.eqb a q then [backslash; q]
  else if code a =? 9 then [backslash; "t"%char]
  else if code a =? 10 then [backslash; "n"%char]
  else if code a =? 13 then [backslash; "r"%char]
  else if (code a <? 32) || (code a =? 127)
  then [backslash; "x"%char; hex_digit (code a / 16); hex_digit (code a mod 16)]
  else [a].

(** [repr(s)] of a text: in single quotes, or in double quotes when the
    text has a single quote and no double one, with the backslash, the
    enclosing quote and the control characters escaped. *)
Definition repr (l : list ascii) : list ascii :=
  let q :=
    if existsb (Ascii.eqb squote) l && negb (existsb (Ascii.eqb dquote) l)
    then dquote else squote in
  q :: concat (map (repr_char q) l) ++ [q].

(** [str(n)] for a natural number. *)
Definition str_of_nat (n : nat) : string :=
  DecimalString.NilZero.string_of_uint (Nat.to_uint n).

(** [sys.get_int_max_str_digits()], as Python 3.11 sets it. *)
Definition int_max_str_digits : nat := 4300.

(** [int(s)] for a string [s], base ten: white space around the literal
    is skipped, then come an optional sign and the digits.  A literal of
    more than [int_max_str_digits] digits is refused, before the text
    after it is looked at. *)
Definition int (s : string) : res Z :=
  let invalid :=
    ValueError ("invalid literal for int() with base 10: " ++ str (repr (chars s))) in
  let '(neg, body) := take_sign (strip_int (chars s)) in
  match int_digits body 0 0 false with
  | Some (n, digits, rest) =>
      if (int_max_str_digits <? digits)%nat then
        Raise (ValueError
          ("Exceeds the limit (4300 digits) for integer string conversion: value has "
           ++ str_of_nat digits
           ++ " digits; use sys.set_int_max_str_digits() to increase the limit"))
      else if is_nil rest then Ok (if neg then - n else n)
      else Raise invalid
  | None => Raise invalid
  end.

(** [s[-n:]] *)
Definition last_n (n : nat) (l : list ascii) : list ascii :=
  skipn (length l - n)%nat l.

(** [sub in s] for strings, by scanning every position of [s]. *)
Fixpoint starts_with (sub s : list ascii) : bool :=
  match sub, s with
  | [], _ => true
  | a :: sub', b :: s' => Ascii.eqb a b && starts_with sub' s'
  | _ :: _, [] => false
  end.

Fixpoint contains (sub s : list ascii) : bool :=
  starts_with sub s ||
  match s with
  | [] => false
  | _ :: s' => contains sub s'
  end.

End Py.

(** ** Python's [decimal] module under its default context

    A finite [Decimal] is a coefficient and an exponent, [c * 10^e]; the
    sign is kept in the coefficient, so the negative zero of [decimal] is
    identified with zero (no operation used here tells them apart).
    The default context has 28 digits of precision, rounds half-even,
    bounds exponents by [Emax] and [Emin], and traps [InvalidOperation]
    and [Overflow], which therefore surface as exceptions.  Arithmetic
    follows the arithmetic specification that [decimal] implements: the
    exact result, then [fix_] to the context. *)

Module Dec.

Inductive Decimal :=
| Finite (c e : Z)
| Inf (neg : bool)
| NaN
| sNaN.

Inductive rounding := ROUND_HALF_UP | ROUND_HALF_EVEN.

Definition prec : Z := 28.
Definition Emax : Z := 999999.
Definition Emin : Z := -999999.
Definition Etiny : Z := Emin - prec + 1.
Definition Etop : Z := Emax - prec + 1.

(** [len(self._int)]: the number of decimal digits of the coefficient. *)
Fixpoint ndigits_aux (fuel : nat) (m : Z) : Z :=
  match fuel with
  | O => 1
  | S f => if m <? 10 then 1 else 1 + ndigits_aux f (m / 10)
  end.

Definition ndigits (c : Z) : Z :=
  ndigits_aux (Z.to_nat (Z.log2 (Z.abs c))) (Z.abs c).

(** [self.adjusted()] *)
Definition adjusted (c e : Z) : Z := e + ndigits c - 1.

(** Drop the last [k] digits of the magnitude [m], rounding to nearest.
    [_round_half_up] looks at the first dropped digit, [_round_half_even]
    also asks whether the dropped part is exactly one half. *)
Definition round_mag (r : rounding) (m k : Z) : Z :=
  let p := 10 ^ k in
  let q := m / p in
  let rest := m mod p in
  match r with
  | ROUND_HALF_UP => if p <=? 2 * rest then q + 1 else q
  | ROUND_HALF_EVEN =>
      if p <? 2 * rest then q + 1
      else if (p =? 2 * rest) && Z.odd q then q + 1
      else q
  end.

(** [self._rescale(exp, rounding)] on a finite number. *)
Definition rescale (c e : Z) (exp : Z) (r : rounding) : Z :=
  if c =? 0 then 0
  else if exp <=? e then c * 10 ^ (e - exp)
  else Z.sgn c * round_mag r (Z.abs c) (exp - e).

(** [self._fix(context)] *)
Definition fix_ (d : Decimal) : res Decimal :=
  match d with
  | Finite c e =>
      if c =? 0 then Ok (Finite 0 (Z.min (Z.max e Etiny) Emax))
      else
        let exp_min := ndigits c + e - prec in
        if Etop <? exp_min then Raise Overflow
        else
          let exp_min := Z.max exp_min Etiny in
          if e <? exp_min then
            let coeff := round_mag ROUND_HALF_EVEN (Z.abs c) (exp_min - e) in
            let '(coeff, exp_min) :=
              if prec <? ndigits coeff then (coeff / 10, exp_min + 1)
              else (coeff, exp_min) in
            if Etop <? exp_min then Raise Overflow
            else Ok (Finite (Z.sgn c * coeff) exp_min)
          else Ok d
  | _ => Ok d
  end.

(** [self * other] *)
Definition mul (a b : Decimal) : res Decimal :=
  match a, b with
  | sNaN, _ | _, sNaN => Raise InvalidOperation
  | NaN, _ | _, NaN => Ok NaN
  | Inf s, Finite c _ | Finite c _, Inf s =>
      if c =? 0 then Raise InvalidOperation else Ok (Inf (xorb s (c <? 0)))
  | Inf s1, Inf s2 => Ok (Inf (xorb s1 s2))
  | Finite c1 e1, Finite c2 e2 => fix_ (Finite (c1 * c2) (e1 + e2))
  end.

(** [self + other] *)
Definition add (a b : Decimal) : res Decimal :=
  match a, b with
  | sNaN, _ | _, sNaN => Raise InvalidOperation
  | NaN, _ | _, NaN => Ok NaN
  | Inf s1, Inf s2 => if eqb s1 s2 then Ok (Inf s1) else Raise InvalidOperation
  | Inf s, Finite _ _ | Finite _ _, Inf s => Ok (Inf s)
  | Finite c1 e1, Finite c2 e2 =>
      let e := Z.min e1 e2 in
      fix_ (Finite (c1 * 10 ^ (e1 - e) + c2 * 10 ^ (e2 - e)) e)
  end.

(** [self.quantize(exp, rounding=r)] *)
Definition quantize (d q : Decimal) (r : rounding) : res Decimal :=
  match d, q with
  | sNaN, _ | _, sNaN => Raise InvalidOperation
  | NaN, _ | _, NaN => Ok NaN
  | Inf s, Inf _ => Ok (Inf s)
  | Inf _, Finite _ _ | Finite _ _, Inf _ => Raise InvalidOperation
  | Finite c e, Finite _ qe =>
      if negb ((Etiny <=? qe) && (qe <=? Emax)) then Raise InvalidOperation
      else if c =? 0 then fix_ (Finite 0 qe)
      else if Emax <? adjusted c e then Raise InvalidOperation
      else if prec <? adjusted c e - qe + 1 then Raise InvalidOperation
      else
        let c' := rescale c e qe r in
        if Emax <? adjusted c' qe then Raise InvalidOperation
        else if prec <? ndigits c' then Raise InvalidOperation
        else fix_ (Finite c' qe)
  end.

(** [self.to_integral_value(rounding=r)] *)
Definition to_integral_value (d : Decimal) (r : rounding) : res Decimal :=
  match d with
  | sNaN => Raise InvalidOperation
  | Finite c e => if 0 <=? e then Ok d else Ok (Finite (rescale c e 0 r) 0)
  | _ => Ok d
  end.

(** [int(self)] *)
Definition to_int (d : Decimal) : res Z :=
  match d with
  | NaN | sNaN => Raise (ValueError "cannot convert NaN to integer")
  | Inf _ => Raise OverflowError
  | Finite c e =>
      if 0 <=? e then Ok (c * 10 ^ e)
      else Ok (Z.sgn c * (Z.abs c / 10 ^ (- e)))
  end.

(** [Decimal(n)] for an [int]. *)
Definition of_int (n : Z) : Decimal := Finite n 0.

(** The unsigned numeric part of a numeric string: digits with an
    optional point and an optional exponent. *)
Definition parse_number (l : list ascii) : option (Z * Z) :=
  let '(ip, r1) := Py.span Py.is_digit l in
  let '(fp, r2) :=
    match r1 with
    | "."%char :: r => Py.span Py.is_digit r
    | _ => ([], r1)
    end in
  if Py.is_nil ip && Py.is_nil fp then None
  else
    let coef := Py.digits_val (ip ++ fp) in
    let scale := Z.of_nat (length fp) in
    match r2 with
    | [] => Some (coef, - scale)
    | x :: r3 =>
        if Ascii.eqb (Py.lower_char x) "e" then
          let '(neg, r4) := Py.take_sign r3 in
          let '(ds, r5) := Py.span Py.is_digit r4 in
          if Py.is_nil ds || negb (Py.is_nil r5) then None
          else
            let ex := Py.digits_val ds in
            Some (coef, (if neg then - ex else ex) - scale)
        else None
    end.

Definition all_digits (l : list ascii) : bool := forallb Py.is_digit l.

(** The exponents that [Decimal(s)] accepts: [MAX_EMAX] and [MIN_ETINY]
    of the [decimal] module on a 64-bit build. *)
Definition MAX_EMAX : Z := 999999999999999999.
Definition MIN_ETINY : Z := -1999999999999999997.

(** [Decimal(s)] for a string: surrounding whitespace and underscores are
    dropped, then the text must be a numeric string, of ASCII digits,
    whose adjusted exponent is at most [MAX_EMAX] and whose exponent is
    at least [MIN_ETINY]; anything else raises [InvalidOperation].  The
    conversion is exact: the precision of the context does not apply. *)
Definition of_string (s : string) : res Decimal :=
  let body := Py.remove_char "_" (Py.strip (Py.chars s)) in
  let '(neg, rest) := Py.take_sign body in
  let low := Py.lower rest in
  if String.eqb (Py.str low) "inf" then Ok (Inf neg)
  else if String.eqb (Py.str low) "infinity" then Ok (Inf neg)
  else if Py.starts_with (Py.chars "nan") low && all_digits (skipn 3 low) then Ok NaN
  else if Py.starts_with (Py.chars "snan") low && all_digits (skipn 4 low) then Ok sNaN
  else
    match parse_number rest with
    | Some (coef, e) =>
        if (adjusted coef e <=? MAX_EMAX) && (MIN_ETINY <=? e)
        then Ok (Finite (if neg then - coef else coef) e)
        else Raise InvalidOperation
    | None => Raise InvalidOperation
    end.

End Dec.

(** ** Configuration ([app/__init__.py]) *)

(** The entries of [app.config] that the modelled code reads.  The two
    entries read with [config.get(key, default)] are optional. *)
Record Config := {
  MAIL_PORT : Z;
  DEFAULT_BRANCH : option string;
  SEAT_ROWS : string;
  SEAT_COLS : Z;
  SEAT_MAX_PER_ORDER : Z;
  HOLD_TTL_SECONDS : Z;
  TICKET_PRICE : option string
}.

(** [os.getenv(name, default)] over the process environment. *)
Definition getenv (env : gmap string string) (name dflt : string) : string :=
  default dflt (env !! name).

(** The settings that [create_app] converts with [int], with their defaults. *)
Definition int_settings : list (string * string) :=
  [("MAIL_PORT", "25"); ("SEAT_COLS", "12"); ("SEAT_MAX_PER_ORDER", "6");
   ("HOLD_TTL_SECONDS", "600")]%string.

(** The configuration section of [create_app]: the only conversions are
    the four [int(...)] calls; [SEAT_ROWS] and [TICKET_PRICE] are stored
    as the environment gives them. *)
Definition create_app (env : gmap string string) : res Config :=
  do mail_port <- Py.int (getenv env "MAIL_PORT" "25");
  do seat_cols <- Py.int (getenv env "SEAT_COLS" "12");
  do seat_max <- Py.int (getenv env "SEAT_MAX_PER_ORDER" "6");
  do hold_ttl <- Py.int (getenv env "HOLD_TTL_SECONDS" "600");
  Ok {| MAIL_PORT := mail_port;
        DEFAULT_BRANCH := Some (getenv env "DEFAULT_BRANCH" "Cine Pelagio B. Luna 960");
        SEAT_ROWS := getenv env "SEAT_ROWS" "ABCDEFGHIJ";
        SEAT_COLS := seat_cols;
        SEAT_MAX_PER_ORDER := seat_max;
        HOLD_TTL_SECONDS := hold_ttl;
        TICKET_PRICE := Some (getenv env "TICKET_PRICE" "5000") |}.

(** ** The database *)

(** A showtime: [(movie_id, fecha, hora, sala)], each as read with
    [seleccion.get(...)], hence optional. *)
Definition ShowKey : Type :=
  (option string * option string * option string * option string)%type.

(** A row of [transacciones], with the columns the payment route writes. *)
Record Transaccion := {
  trx_id : Z;
  usuario_email : option string;
  monto_cents : Z;
  brand : option string;
  last4 : option string;
  exp_mes : option Z;
  exp_anio : option Z;
  estado : string;
  auth_code : string;
  created_at : string
}.

Definition set_estado (st : string) (t : Transaccion) : Transaccion :=
  {| trx_id := trx_id t; usuario_email := usuario_email t;
     monto_cents := monto_cents t; brand := brand t; last4 := last4 t;
     exp_mes := exp_mes t; exp_anio := exp_anio t; estado := st;
     auth_code := auth_code t; created_at := created_at t |}.

(** Modelled from the spec: the SeatHold of section 3 (the table and its
    code live in [app/db.py], which is not part of the sources): one
    session's claim on a set of seats of one showtime, until
    [h_expires_at]. *)
Record SeatHold := {
  h_key : ShowKey;
  h_seats : gset string;
  h_created_at : Z;
  h_expires_at : Z
}.

(** Modelled from the spec: the Reservation of section 3 ([app/db.py] is
    not part of the sources): one seat of one showtime, assigned for good
    to a transaction. *)
Record Reserva := {
  r_key : ShowKey;
  r_seat : string;
  r_trx : Z;
  r_email : option string;
  r_confirmed_at : Z
}.

Record DB := {
  transacciones : list Transaccion;
  seat_holds : gmap string SeatHold;
  reservas : list Reserva
}.

Definition empty_db : DB :=
  {| transacciones := []; seat_holds := ∅; reservas := [] |}.

Definition lookup_trx (db : DB) (id : Z) : option Transaccion :=
  find (fun t => trx_id t =? id) (transacciones db).

(** [cur.lastrowid] of the next [INSERT]: one more than every id in use
    (the primary key is [INTEGER PRIMARY KEY AUTOINCREMENT], ids start at 1). *)
Definition next_id (db : DB) : Z :=
  1 + fold_right Z.max 0 (map trx_id (transacciones db)).

(** The statements of the payment route that the storage layer can
    refuse: the [INSERT] of the transaction, the unit that
    [confirm_seats] runs, and the [UPDATE] of the state. *)
Inductive Sentencia := INSERT_transaccion | CONFIRM_seats | UPDATE_estado.

(** The integers that SQLite stores: binding a Python [int] outside 64
    bits raises [OverflowError]. *)
Definition int64 (n : Z) : bool := (- 2 ^ 63 <=? n) && (n <? 2 ^ 63).

Definition int64_or_None (o : option Z) : bool :=
  match o with Some n => int64 n | None => true end.

(** The table with one more row. *)
Definition con_fila (db : DB) (t : Transaccion) : DB :=
  {| transacciones := transacciones db ++ [t];
     seat_holds := seat_holds db;
     reservas := reservas db |}.

(** [INSERT INTO transacciones (...) VALUES (...)] followed by [commit].
    The statement raises [OverflowError] when an integer parameter does
    not fit in 64 bits, and otherwise whatever the storage layer raises
    on it ([falla]): an [IntegrityError] of the deployed table, as on
    the table that the migration creates, whose [total_pesos] is [NOT
    NULL] without a default and is not among the columns of this
    [INSERT].  A statement that raises stores nothing. *)
Definition insert_transaccion (falla : option exn) (db : DB) (row : Z → Transaccion)
    : res (DB * Z) :=
  let id := next_id db in
  if negb (int64 (monto_cents (row id)) && int64_or_None (exp_mes (row id))
           && int64_or_None (exp_anio (row id)))
  then Raise OverflowError
  else
    match falla with
    | Some e => Raise e
    | None => Ok (con_fila db (row id), id)
    end.

(** [UPDATE transacciones SET estado=? WHERE id=?] followed by [commit]:
    every row with that id gets the new state, whatever its state was. *)
Definition update_estado (db : DB) (st : string) (id : Z) : DB :=
  {| transacciones :=
       map (fun t => if trx_id t =? id then set_estado st t else t)
           (transacciones db);
     seat_holds := seat_holds db;
     reservas := reservas db |}.

(** The [UPDATE] as the route runs it, [conn.execute] followed by
    [commit]: it raises what the storage layer raises on it ([falla]),
    and then writes nothing. *)
Definition ejecutar_update (falla : option exn) (db : DB) (st : string) (id : Z)
    : res DB :=
  match falla with
  | Some e => Raise e
  | None => Ok (update_estado db st id)
  end.

(** ** The seat store of [app/db.py] *)

Module Store.

Inductive error := SeatUnavailable | SeatConflict.

(** Modelled from the spec: a hold is live at [now] until its
    [expires_at]; the sweep of section 4.2 removes it once
    [expires_at <= now] ([app/db.py] is not part of the sources). *)
Definition live (now : Z) (h : SeatHold) : bool := now <? h_expires_at h.

(** Modelled from the spec: [seats_confirmed(showtime_key)] of section
    4.3, the seats of the ledger for one showtime ([app/db.py] is not
    part of the sources). *)
Definition seats_confirmed (db : DB) (k : ShowKey) : gset string :=
  list_to_set (map r_seat (filter (fun r => bool_decide (r_key r = k)) (reservas db))).

(** Modelled from the spec: the availability test of [place] in section
    4.2: no requested seat is covered by another token's unexpired hold
    of that showtime ([app/db.py] is not part of the sources). *)
Definition free_of_holds (db : DB) (now : Z) (token : string)
    (k : ShowKey) (seats : gset string) : Prop :=
  map_Forall (fun t h =>
    t = token ∨ live now h = false ∨ h_key h ≠ k ∨ h_seats h ## seats)
    (seat_holds db).

#[global] Instance free_of_holds_dec db now token k seats :
  Decision (free_of_holds db now token k seats).
Proof. unfold free_of_holds. apply _. Defined.

(** Modelled from the spec: [place(token, showtime_key, seats, ttl)] of
    section 4.2, all seats or none; the hold is stored under its token
    ([app/db.py] is not part of the sources). *)
Definition place (token : string) (k : ShowKey) (seats : gset string)
    (ttl now : Z) (db : DB) : DB * (error + SeatHold) :=
  if decide (free_of_holds db now token k seats ∧ seats ## seats_confirmed db k)
  then
    let h := {| h_key := k; h_seats := seats;
                h_created_at := now; h_expires_at := now + ttl |} in
    ({| transacciones := transacciones db;
        seat_holds := <[token := h]> (seat_holds db);
        reservas := reservas db |}, inr h)
  else (db, inl SeatUnavailable).

(** Modelled from the spec: [get(token)] of section 4.2 ([app/db.py] is
    not part of the sources). *)
Definition get (token : string) (db : DB) : option SeatHold :=
  seat_holds db !! token.

(** Modelled from the spec: [release(token)] of section 4.2, idempotent
    ([app/db.py] is not part of the sources). *)
Definition release (token : string) (db : DB) : DB :=
  {| transacciones := transacciones db;
     seat_holds := delete token (seat_holds db);
     reservas := reservas db |}.

(** Modelled from the spec: [sweep_expired(now)] of section 4.2, which
    removes every hold with [expires_at <= now] and returns how many
    ([purge_expired_holds] of [app/db.py], not part of the sources). *)
Definition sweep_expired (now : Z) (db : DB) : DB * nat :=
  let kept := filter (fun th => live now th.2 = true) (seat_holds db) in
  ({| transacciones := transacciones db;
      seat_holds := kept;
      reservas := reservas db |},
   (size (seat_holds db) - size kept)%nat).

(** Modelled from the spec: [commit(showtime_key, seats, transaction_id,
    usuario_email)] of section 4.3: [SeatConflict] if a seat is already
    in the ledger for that showtime, else one reservation per seat
    ([app/db.py] is not part of the sources). *)
Definition commit (k : ShowKey) (seats : gset string) (trx : Z)
    (email : option string) (now : Z) (db : DB) : error + DB * list string :=
  if decide (seats ## seats_confirmed db k) then
    let confirmed := elements seats in
    inr ({| transacciones := transacciones db;
            seat_holds := seat_holds db;
            reservas := reservas db ++
              map (fun s => {| r_key := k; r_seat := s; r_trx := trx;
                               r_email := email; r_confirmed_at := now |})
                  confirmed |}, confirmed)
  else inl SeatConflict.

(** Modelled from the spec: steps 2 to 4 of [confirm] in section 4.5, as
    the payment route calls them through [db.confirm_seats]
    ([app/db.py] is not part of the sources).  A failure of the storage
    layer ([falla], section 7) propagates as it is and, the unit being
    atomic, leaves holds and ledger as they were.  Otherwise: no live
    hold of that token and showtime, nothing changes and no seat is
    returned; a seat already in the ledger, nothing changes and
    [ValueError] is raised; else the hold's seats enter the ledger, the
    hold is released and the seats are returned. *)
Definition confirm_seats (falla : option exn) (token : option string) (k : ShowKey)
    (email : option string) (trx : Z) (now : Z) (db : DB)
    : DB * res (list string) :=
  match falla with
  | Some e => (db, Raise e)
  | None =>
      match token with
      | None => (db, Ok [])
      | Some tk =>
          match get tk db with
          | None => (db, Ok [])
          | Some h =>
              if live now h && bool_decide (h_key h = k) then
                match commit k (h_seats h) trx email now db with
                | inr (db', confirmed) => (release tk db', Ok confirmed)
                | inl _ =>
                    (db, Raise (ValueError "Uno o más asientos ya fueron reservados por otro usuario."))
                end
              else (db, Ok [])
          end
      end
  end.

End Store.

(** ** The payment route ([app/blueprints/pago.py]) *)

(** An entry of [COMBOS_CATALOG]; [combo_precio] is the text
    [str(c.get("precio", 0))] that the route hands to [Decimal]. *)
Record Combo := {
  combo_id : Z;
  combo_nombre : string;
  combo_precio : string
}.

(** The Flask session, with the keys the route reads or writes;
    [flashes] is the [_flashes] entry that [flash] appends to. *)
Record Session := {
  seats : option (list string);
  hold_token : option string;
  combos : option (list Z);
  movie_selection : option (gmap string string);
  branch : option string;
  flashes : list (string * string);
  modified : bool
}.

(** [flash(message, category)] *)
Definition flash (msg cat : string) (ses : Session) : Session :=
  {| seats := seats ses; hold_token := hold_token ses; combos := combos ses;
     movie_selection := movie_selection ses; branch := branch ses;
     flashes := flashes ses ++ [(cat, msg)]; modified := true |}.

(** [session.pop("seats", None); session.pop("hold_token", None);
     session.pop("combos", None); session.modified = True] *)
Definition limpiar_sesion (ses : Session) : Session :=
  {| seats := None; hold_token := None; combos := None;
     movie_selection := movie_selection ses; branch := branch ses;
     flashes := flashes ses; modified := true |}.

(** What the route renders, reduced to the template and the values the
    properties below talk about. *)
Inductive Response :=
| pago_html (errores : list string) (seats_shown : list string)
    (total : Dec.Decimal) (volver_url : option string)
| pago_ok_html (trx : Z) (seats_shown : list string) (total : Dec.Decimal)
    (brand_shown last4_shown auth : string).

Inductive outcome :=
| Returned (r : Response)
| Raised (e : exn).

Inductive Method := GET | POST.

(** The collaborators imported by the route: the combo catalogue, the
    card validator, the QR, PDF and mail services, URL building, the
    two text renderings left to the runtime (the [.2f] format of a
    [Decimal] and [strftime] of the clock), and the storage layer behind
    [get_conn] and [db_mod]: [storage_error] is the exception, if any,
    that it raises on a statement of the route, on the database as it
    stands. *)
Record Services := {
  storage_error : Sentencia → DB → option exn;
  COMBOS_CATALOG : list Combo;
  validar_tarjeta :
    string → string → string → string → string → string → string → list string;
  detectar_brand : string → string;
  generar_qr : Z → string → string → res string;
  generar_comprobante_pdf : Z → string → list string → Dec.Decimal → string → res string;
  enviar_ticket : string → Z → string → res unit;
  url_for : string → string;
  format_2f : Dec.Decimal → string;
  strftime : string → Z → string
}.

Section Pago.

Context (svc : Services).

Definition _combos_from_session (ses : Session) : list Combo :=
  let ids := default [] (combos ses) in
  filter (fun c => bool_decide (combo_id c ∈ ids)) (COMBOS_CATALOG svc).

Definition _seleccion_from_session (ses : Session) : gmap string string :=
  default ∅ (movie_selection ses).

Definition _seats_from_session (ses : Session) : list string :=
  default [] (seats ses).

Definition _precio_entrada (cfg : Config) : Dec.Decimal :=
  let raw := default "5000" (TICKET_PRICE cfg) in
  match Dec.of_string raw with
  | Ok d => d
  | Raise _ => Dec.Finite 5000 0
  end.

Definition TWO : Dec.Decimal := Dec.Finite 1 (-2).

(** [sum(...)] continued from an accumulator that is already a [Decimal]. *)
Fixpoint sum_from (acc : Dec.Decimal) (l : list Combo) : res Dec.Decimal :=
  match l with
  | [] => Ok acc
  | c :: l' =>
      do p <- Dec.of_string (combo_precio c);
      do acc' <- Dec.add acc p;
      sum_from acc' l'
  end.

(** [Decimal(sum(Decimal(str(c.get("precio", 0))) for c in combos_sel))]:
    [sum] starts from the integer [0], so the first step is
    [0 + d], which [Decimal] computes as [d + Decimal(0)]. *)
Definition sum_precios (l : list Combo) : res Dec.Decimal :=
  match l with
  | [] => Ok (Dec.of_int 0)
  | c :: l' =>
      do p <- Dec.of_string (combo_precio c);
      do acc <- Dec.add p (Dec.of_int 0);
      sum_from acc l'
  end.

Definition _calcular_totales_server_side (cfg : Config) (ses : Session)
    : res (Dec.Decimal * Dec.Decimal * Dec.Decimal
           * list Combo * list string * gmap string string) :=
  let precio_ent := _precio_entrada cfg in
  let seats := _seats_from_session ses in
  let combos_sel := _combos_from_session ses in
  let seleccion := _seleccion_from_session ses in
  do prod <- Dec.mul precio_ent (Dec.of_int (Z.of_nat (length seats)));
  do total_entradas <- Dec.quantize prod TWO Dec.ROUND_HALF_UP;
  do suma <- sum_precios combos_sel;
  do total_combos <- Dec.quantize suma TWO Dec.ROUND_HALF_UP;
  do bruto <- Dec.add total_entradas total_combos;
  do total <- Dec.quantize bruto TWO Dec.ROUND_HALF_UP;
  Ok (total_entradas, total_combos, total, combos_sel, seats, seleccion).

(** [int((total * 100).to_integral_value(rounding=ROUND_HALF_UP))] *)
Definition monto_cents_de (total : Dec.Decimal) : res Z :=
  do x <- Dec.mul total (Dec.of_int 100);
  do y <- Dec.to_integral_value x Dec.ROUND_HALF_UP;
  Dec.to_int y.

(** [request.form.get(k) or ""] *)
Definition form_get (form : gmap string string) (k : string) : string :=
  default "" (form !! k).

Definition strip (s : string) : string := Py.str (Py.strip (Py.chars s)).

(** [x or None] for a string. *)
Definition or_None (s : string) : option string :=
  if String.eqb s "" then None else Some s.

(** [int(x) if x else None] *)
Definition int_or_None (s : string) : res (option Z) :=
  if String.eqb s "" then Ok None else do n <- Py.int s; Ok (Some n).

Definition showkey (seleccion : gmap string string) : ShowKey :=
  (seleccion !! "id", seleccion !! "fecha", seleccion !! "hora", seleccion !! "sala").

(** The tail of the POST branch, once [confirm_seats] has returned
    seats: approve, build the receipt, mail it, clean the session. *)
Definition pago_aprobado (cfg : Config) (db : DB) (ses : Session)
    (trx : Z) (email nombre_tarjeta brand last4 auth_code : string)
    (confirmados : list string) (total : Dec.Decimal) : DB * Session * outcome :=
  match ejecutar_update (storage_error svc UPDATE_estado db) db "APROBADO" trx with
  | Raise e => (db, ses, Raised e)
  | Ok db =>
      let sucursal :=
        match branch ses with
        | Some b => if String.eqb b "" then default "-" (DEFAULT_BRANCH cfg) else b
        | None => default "-" (DEFAULT_BRANCH cfg)
        end in
      match generar_qr svc trx email auth_code with
      | Raise e => (db, ses, Raised e)
      | Ok qr_path =>
          match generar_comprobante_pdf svc trx email confirmados total qr_path with
          | Raise e => (db, ses, Raised e)
          | Ok pdf_path =>
              match enviar_ticket svc email trx pdf_path with
              | Ok _ | Raise (OSError _) | Raise (ValueError _) | Raise (RuntimeError _) =>
                  (db, limpiar_sesion ses,
                   Returned (pago_ok_html trx confirmados total brand last4 auth_code))
              | Raise e => (db, ses, Raised e)
              end
          end
      end
  end.

(** The persistence and seat-confirmation blocks of the POST branch:
    insert the transaction as PENDIENTE, call [confirm_seats] with the
    session's hold token, then write RECHAZADA (no live hold, or the
    [ValueError] of a collision) or go on to approve.  An exception of
    the [INSERT] leaves the route, and so does any exception of
    [confirm_seats] other than [ValueError], with the row as it is.  An
    exception of the [UPDATE] leaves the route too, before the message
    is flashed: the handler of [ValueError], should it catch it, runs
    the same [UPDATE] on the same database, which raises again. *)
Definition pago_confirmar (cfg : Config) (now : Z) (db : DB) (ses : Session)
    (fila : Z → Transaccion)
    (email nombre_tarjeta brand last4 auth_code : string)
    (seats : list string) (seleccion : gmap string string)
    (total : Dec.Decimal) : DB * Session * outcome :=
  match insert_transaccion (storage_error svc INSERT_transaccion db) db fila with
  | Raise e => (db, ses, Raised e)
  | Ok (db1, trx) =>
      match Store.confirm_seats (storage_error svc CONFIRM_seats db1)
              (hold_token ses) (showkey seleccion) (or_None email) trx now db1 with
      | (db2, Ok confirmados) =>
          if Py.is_nil confirmados then
            match ejecutar_update (storage_error svc UPDATE_estado db2)
                    db2 "RECHAZADA" trx with
            | Raise e => (db2, ses, Raised e)
            | Ok db3 =>
                (db3,
                 flash "Tus asientos ya no estaban retenidos. Por favor, volvé a elegirlos."
                       "warning" ses,
                 Returned (pago_html
                   ["Los asientos se liberaron por tiempo. Volvé a seleccionarlos."%string]
                   seats total (Some (url_for svc "venta.reserva_asientos"))))
            end
          else
            pago_aprobado cfg db2 ses trx email nombre_tarjeta
              brand last4 auth_code confirmados total
      | (db2, Raise (ValueError msg)) =>
          match ejecutar_update (storage_error svc UPDATE_estado db2)
                  db2 "RECHAZADA" trx with
          | Raise e => (db2, ses, Raised e)
          | Ok db3 =>
              (db3,
               flash msg "danger" ses,
               Returned (pago_html [msg] seats total
                           (Some (url_for svc "venta.reserva_asientos"))))
          end
      | (db2, Raise e) => (db2, ses, Raised e)
      end
  end.

(** The POST branch of [pago()], run at clock reading [now] on the
    submitted [form], the session and the database. *)
Definition pago_post (cfg : Config) (now : Z) (form : gmap string string)
    (db : DB) (ses : Session) : DB * Session * outcome :=
  match _calcular_totales_server_side cfg ses with
  | Raise e => (db, ses, Raised e)
  | Ok (total_entradas, total_combos, total, combos_sel, seats, seleccion) =>
      if Py.is_nil seats || bool_decide (seleccion = ∅) then
        (db, flash "Primero elegí función y asientos." "warning" ses,
         Returned (pago_html ["Falta selección de función o asientos."%string]
                     seats total None))
      else
        let email := strip (form_get form "email") in
        let pan := Py.str (Py.remove_char " " (Py.chars (form_get form "pan"))) in
        let nombre_tarjeta := strip (form_get form "nombre_tarjeta") in
        let exp_mes := strip (form_get form "exp_mes") in
        let exp_anio := strip (form_get form "exp_anio") in
        let cvv := strip (form_get form "cvv") in
        let errores :=
          validar_tarjeta svc email pan nombre_tarjeta exp_mes exp_anio cvv
            (format_2f svc total) in
        if negb (Py.is_nil errores) then
          (db, ses, Returned (pago_html errores seats total None))
        else
          let brand := detectar_brand svc pan in
          let last4 := Py.str (Py.last_n 4 (Py.chars pan)) in
          let now_iso := strftime svc "%Y-%m-%d %H:%M:%S" now in
          let auth_code :=
            ("APP-" ++ last4 ++ "-" ++ strftime svc "%H%M%S" now)%string in
          match monto_cents_de total with
          | Raise e => (db, ses, Raised e)
          | Ok monto =>
              match int_or_None exp_mes, int_or_None exp_anio with
              | Raise e, _ | Ok _, Raise e => (db, ses, Raised e)
              | Ok mes, Ok anio =>
                  pago_confirmar cfg now db ses
                    (fun id =>
                      {| trx_id := id; usuario_email := or_None email;
                         monto_cents := monto; brand := or_None brand;
                         last4 := or_None last4; exp_mes := mes;
                         exp_anio := anio; estado := "PENDIENTE";
                         auth_code := auth_code; created_at := now_iso |})
                    email nombre_tarjeta brand last4 auth_code
                    seats seleccion total
              end
          end
  end.

(** *** When the decimal context keeps the totals exact

    The context rounds every product and sum to [Dec.prec] digits, and
    [quantize] refuses a result longer than that.  [within_context]
    replays the computation of the totals with exact integers and says
    whether each step stays within the context: the product, every
    partial sum of the combo prices, the three quantized amounts. *)

Definition representable (c e : Z) : bool :=
  (Z.abs c <? 10 ^ Dec.prec) && (Dec.Etiny <=? e) && (e <=? Dec.Etop).

Definition cents (c e : Z) : Z := Dec.rescale c e (-2) Dec.ROUND_HALF_UP.

Definition cents_fit (c e : Z) : bool := Z.abs (cents c e) <? 10 ^ Dec.prec.

Fixpoint exact_sum (acc : Z * Z) (l : list Combo) : option (Z * Z) :=
  match l with
  | [] => Some acc
  | c :: l' =>
      match Dec.of_string (combo_precio c) with
      | Ok (Dec.Finite c2 e2) =>
          let e := Z.min acc.2 e2 in
          let m := acc.1 * 10 ^ (acc.2 - e) + c2 * 10 ^ (e2 - e) in
          if representable m e then exact_sum (m, e) l' else None
      | _ => None
      end
  end.

Definition within_context (cfg : Config) (ses : Session) : bool :=
  match _precio_entrada cfg with
  | Dec.Finite c e =>
      let n := Z.of_nat (length (_seats_from_session ses)) in
      representable (c * n) e && cents_fit (c * n) e &&
      match exact_sum (0, 0) (_combos_from_session ses) with
      | Some (cs, es) =>
          cents_fit cs es &&
          (Z.abs (cents (c * n) e + cents cs es) <? 10 ^ Dec.prec)
      | None => false
      end
  | _ => false
  end.

(** [pago()]: GET shows the form with the server-side totals, POST
    processes the payment. *)
Definition pago (cfg : Config) (now : Z) (method : Method)
    (form : gmap string string) (db : DB) (ses : Session)
    : DB * Session * outcome :=
  match method with
  | GET =>
      match _calcular_totales_server_side cfg ses with
      | Raise e => (db, ses, Raised e)
      | Ok (_, _, total, _, seats, _) =>
          (db, ses, Returned (pago_html [] seats total None))
      end
  | POST => pago_post cfg now form db ses
  end.

End Pago.

(** *** Vocabulary for the properties of the payment route *)

(** The selection kept in the session is the same. *)
Definition same_selection (ses ses' : Session) : Prop :=
  seats ses' = seats ses ∧ hold_token ses' = hold_token ses ∧ combos ses' = combos ses.

Definition not_approved (out : outcome) : Prop :=
  match out with
  | Returned (pago_ok_html _ _ _ _ _ _) => False
  | _ => True
  end.

(** The state that the answer of [confirm_seats] asks for: approved on
    seats, rejected on no seat or a [ValueError], and as inserted on any
    other exception. *)
Definition veredicto (r : res (list string)) : string :=
  match r with
  | Ok (_ :: _) => "APROBADO"
  | Ok [] | Raise (ValueError _) => "RECHAZADA"
  | Raise _ => "PENDIENTE"
  end.

(** The state that the row ends in: the one that the answer of
    [confirm_seats] asks for, unless the [UPDATE] that writes it is
    refused ([falla]), which leaves the row as inserted. *)
Definition estado_final (falla : option exn) (r : res (list string)) : string :=
  match falla with
  | Some _ => "PENDIENTE"
  | None => veredicto r
  end.

(** How a request that got past the checks ends, given what
    [confirm_seats] answered: with the state written, or, when the
    [UPDATE] is refused, in its exception with the row as inserted. *)
Definition desenlace (db : DB) (ses : Session) (db2 : DB) (r : res (list string))
    (seats : list string) (total : Dec.Decimal)
    (db' : DB) (ses' : Session) (out : outcome) : Prop :=
  match r with
  | Ok (s :: l) =>
      (db' = update_estado db2 "APROBADO" (next_id db) ∧
       ((ses' = limpiar_sesion ses ∧
         ∃ b l4 a, out = Returned (pago_ok_html (next_id db) (s :: l) total b l4 a)) ∨
        (ses' = ses ∧ ∃ e, out = Raised e))) ∨
      (db' = db2 ∧ ses' = ses ∧ ∃ e, out = Raised e)
  | Ok [] | Raise (ValueError _) =>
      (db' = update_estado db2 "RECHAZADA" (next_id db) ∧
       same_selection ses ses' ∧
       ∃ errs url, out = Returned (pago_html errs seats total (Some url))) ∨
      (db' = db2 ∧ ses' = ses ∧ ∃ e, out = Raised e)
  | Raise e => db' = db2 ∧ ses' = ses ∧ out = Raised e
  end.

(** The hold that [confirm_seats] converts: the one stored under the
    session's token, if it is live at [now] and is of the showtime [k]. *)
Definition hold_vivo (now : Z) (db : DB) (token : option string) (k : ShowKey)
    : option SeatHold :=
  match token with
  | None => None
  | Some tk =>
      match seat_holds db !! tk with
      | Some h => if Store.live now h && bool_decide (h_key h = k) then Some h else None
      | None => None
      end
  end.

(** The request reaches the [INSERT]: the totals are computed, the
    session has seats and a showtime, the card validator returns no
    error, and the amount and the expiry date convert to integers. *)
Definition llega_al_insert (svc : Services) (cfg : Config)
    (form : gmap string string) (ses : Session)
    (total : Dec.Decimal) (monto : Z) (mes anio : option Z) : Prop :=
  (∃ te tc cs,
      _calcular_totales_server_side svc cfg ses
        = Ok (te, tc, total, cs, _seats_from_session ses, _seleccion_from_session ses)) ∧
  _seats_from_session ses ≠ [] ∧ _seleccion_from_session ses ≠ ∅ ∧
  validar_tarjeta svc (strip (form_get form "email"))
    (Py.str (Py.remove_char " " (Py.chars (form_get form "pan"))))
    (strip (form_get form "nombre_tarjeta")) (strip (form_get form "exp_mes"))
    (strip (form_get form "exp_anio")) (strip (form_get form "cvv"))
    (format_2f svc total) = [] ∧
  monto_cents_de total = Ok monto ∧
  int_or_None (strip (form_get form "exp_mes")) = Ok mes ∧
  int_or_None (strip (form_get form "exp_anio")) = Ok anio.




(** ** The MercadoPago migration ([app/db_migrations.py]) *)

(** The model keeps the schema catalogue ([sqlite_master]): tables with
    their column definitions as written, and indexes.  Rows and logging
    are left out: the statements of the migration that read or write rows
    ([UPDATE ... SET usuario_email], [insert_sample_data]) leave the
    catalogue as it is, and the two [except] branches of the column loop
    differ only in what they log.  SQLite compares identifiers without
    regard to letter case, while [sqlite_master] stores them as written
    and the [name = ...] and [in] tests of the Python code are exact.
    A clash between a table name and an index name is not modelled. *)

Module Migr.

Record Column := { col_name : string; col_def : string }.
Record Table := { tbl_name : string; tbl_cols : list Column }.
Record Index := { idx_name : string; idx_table : string; idx_cols : list string }.
Record Schema := { tables : list Table; indexes : list Index }.

Definition lower (s : string) : string := Py.str (Py.lower (Py.chars s)).

(** Identifier comparison of SQLite. *)
Definition ieq (a b : string) : bool := String.eqb (lower a) (lower b).

Definition find_table (s : Schema) (name : string) : option Table :=
  find (fun t => ieq (tbl_name t) name) (tables s).

Definition has_column (t : Table) (name : string) : bool :=
  existsb (fun c => ieq (col_name c) name) (tbl_cols t).

Definition has_index (s : Schema) (name : string) : bool :=
  existsb (fun i => ieq (idx_name i) name) (indexes s).

(** The [sql] text that [sqlite_master] holds for a table. *)
Definition table_sql (t : Table) : string :=
  ("CREATE TABLE " ++ tbl_name t ++ " ("
     ++ String.concat ", " (map (fun c => col_name c ++ " " ++ col_def c) (tbl_cols t))
     ++ ")")%string.

(** [SELECT ... FROM sqlite_master WHERE type='table' AND name=?] *)
Definition master_lookup (s : Schema) (name : string) : option Table :=
  find (fun t => String.eqb (tbl_name t) name) (tables s).

Fixpoint add_column (name : string) (c : Column) (ts : list Table) : list Table :=
  match ts with
  | [] => []
  | t :: ts' =>
      if ieq (tbl_name t) name
      then {| tbl_name := tbl_name t; tbl_cols := tbl_cols t ++ [c] |} :: ts'
      else t :: add_column name c ts'
  end.

(** [ALTER TABLE table ADD COLUMN col def] *)
Definition alter_add_column (s : Schema) (table col def : string) : res Schema :=
  match find_table s table with
  | None => Raise (OperationalError ("no such table: " ++ table))
  | Some t =>
      if has_column t col
      then Raise (OperationalError ("duplicate column name: " ++ col))
      else Ok {| tables := add_column table {| col_name := col; col_def := def |} (tables s);
                 indexes := indexes s |}
  end.

Inductive stmt :=
| CREATE_TABLE_IF_NOT_EXISTS (name : string) (cols : list Column)
| CREATE_INDEX_IF_NOT_EXISTS (name table : string) (cols : list string).

Definition exec (st : stmt) (s : Schema) : res Schema :=
  match st with
  | CREATE_TABLE_IF_NOT_EXISTS name cols =>
      match find_table s name with
      | Some _ => Ok s
      | None =>
          Ok {| tables := tables s ++ [{| tbl_name := name; tbl_cols := cols |}];
                indexes := indexes s |}
      end
  | CREATE_INDEX_IF_NOT_EXISTS name table cols =>
      match find_table s table with
      | None => Raise (OperationalError ("no such table: main." ++ table))
      | Some t =>
          if has_index s name then Ok s
          else if forallb (has_column t) cols then
            Ok {| tables := tables s;
                  indexes := indexes s ++
                    [{| idx_name := name; idx_table := table; idx_cols := cols |}] |}
          else Raise (OperationalError "no such column")
      end
  end.

(** [executescript]: the statements in order; the first error stops the
    script and leaves what the earlier statements did. *)
Fixpoint executescript (script : list stmt) (s : Schema) : Schema * res unit :=
  match script with
  | [] => (s, Ok tt)
  | st :: rest =>
      match exec st s with
      | Ok s' => executescript rest s'
      | Raise e => (s, Raise e)
      end
  end.

Definition col (n d : string) : Column := {| col_name := n; col_def := d |}.

Definition new_columns : list (string * string) :=
  [ ("monto_cents", "INTEGER NOT NULL DEFAULT 0");
    ("mp_preference_id", "TEXT");
    ("mp_payment_id", "TEXT");
    ("mp_status", "TEXT");
    ("mp_status_detail", "TEXT");
    ("monto_mp", "DECIMAL(10,2)");
    ("monto_neto_mp", "DECIMAL(10,2)");
    ("external_reference", "TEXT");
    ("funcion_id", "INTEGER");
    ("pelicula", "TEXT");
    ("fecha_funcion", "TEXT");
    ("hora_funcion", "TEXT");
    ("sala", "TEXT");
    ("asientos_json", "TEXT");
    ("combos_json", "TEXT");
    ("notas", "TEXT");
    ("ip_cliente", "TEXT");
    ("user_agent", "TEXT");
    ("fecha_actualizacion", "TIMESTAMP") ]%string.

Definition script_transacciones : list stmt :=
  [ CREATE_TABLE_IF_NOT_EXISTS "transacciones"
      [ col "id" "INTEGER PRIMARY KEY AUTOINCREMENT";
        col "usuario_email" "TEXT NOT NULL";
        col "monto_cents" "INTEGER NOT NULL DEFAULT 0";
        col "total_pesos" "DECIMAL(10,2) NOT NULL";
        col "estado" "TEXT NOT NULL DEFAULT 'PENDIENTE'";
        col "funcion_id" "INTEGER";
        col "pelicula" "TEXT";
        col "fecha_funcion" "TEXT";
        col "hora_funcion" "TEXT";
        col "sala" "TEXT";
        col "asientos_json" "TEXT";
        col "combos_json" "TEXT";
        col "mp_preference_id" "TEXT";
        col "mp_payment_id" "TEXT";
        col "mp_status" "TEXT";
        col "mp_status_detail" "TEXT";
        col "monto_mp" "DECIMAL(10,2)";
        col "monto_neto_mp" "DECIMAL(10,2)";
        col "external_reference" "TEXT";
        col "brand" "TEXT";
        col "last4" "TEXT";
        col "exp_mes" "INTEGER";
        col "exp_anio" "INTEGER";
        col "auth_code" "TEXT";
        col "created_at" "TIMESTAMP DEFAULT CURRENT_TIMESTAMP";
        col "fecha_actualizacion" "TIMESTAMP";
        col "notas" "TEXT";
        col "ip_cliente" "TEXT";
        col "user_agent" "TEXT" ];
    CREATE_INDEX_IF_NOT_EXISTS "idx_transacciones_email" "transacciones" ["usuario_email"];
    CREATE_INDEX_IF_NOT_EXISTS "idx_transacciones_estado" "transacciones" ["estado"];
    CREATE_INDEX_IF_NOT_EXISTS "idx_transacciones_mp_payment" "transacciones" ["mp_payment_id"];
    CREATE_INDEX_IF_NOT_EXISTS "idx_transacciones_external_ref" "transacciones" ["external_reference"]
  ]%string.

Definition script_auxiliares : list stmt :=
  [ CREATE_TABLE_IF_NOT_EXISTS "funciones"
      [ col "id" "INTEGER PRIMARY KEY AUTOINCREMENT";
        col "pelicula" "TEXT NOT NULL";
        col "fecha" "TEXT NOT NULL";
        col "hora" "TEXT NOT NULL";
        col "sala" "TEXT NOT NULL";
        col "precio_entrada" "DECIMAL(10,2) NOT NULL DEFAULT 0";
        col "asientos_totales" "INTEGER DEFAULT 50";
        col "asientos_disponibles" "INTEGER DEFAULT 50";
        col "activo" "BOOLEAN DEFAULT 1";
        col "created_at" "TIMESTAMP DEFAULT CURRENT_TIMESTAMP" ];
    CREATE_INDEX_IF_NOT_EXISTS "idx_funciones_fecha_hora" "funciones" ["fecha"; "hora"];
    CREATE_INDEX_IF_NOT_EXISTS "idx_funciones_pelicula" "funciones" ["pelicula"];
    CREATE_TABLE_IF_NOT_EXISTS "combos"
      [ col "id" "INTEGER PRIMARY KEY AUTOINCREMENT";
        col "nombre" "TEXT NOT NULL";
        col "descripcion" "TEXT";
        col "precio" "DECIMAL(10,2) NOT NULL";
        col "activo" "BOOLEAN DEFAULT 1";
        col "imagen_url" "TEXT";
        col "categoria" "TEXT DEFAULT 'combo'";
        col "created_at" "TIMESTAMP DEFAULT CURRENT_TIMESTAMP" ];
    CREATE_INDEX_IF_NOT_EXISTS "idx_combos_activo" "combos" ["activo"]
  ]%string.

(** One turn of the column loop: the [OperationalError] of a column
    that cannot be added is caught and the loop goes on. *)
Definition try_add_column (s : Schema) (c : string * string) : res Schema :=
  match alter_add_column s "transacciones" c.1 c.2 with
  | Ok s' => Ok s'
  | Raise (OperationalError _) => Ok s
  | Raise e => Raise e
  end.

Fixpoint add_columns (cs : list (string * string)) (s : Schema) : res Schema :=
  match cs with
  | [] => Ok s
  | c :: cs' => do s' <- try_add_column s c; add_columns cs' s'
  end.

(** The [email_cliente -> usuario_email] step: the [SELECT] fails, and
    the step is skipped, unless the column [email_cliente] is there.
    The [UPDATE] that then copies the addresses works on rows, which the
    model does not keep: it is taken to succeed, so an error of it other
    than [OperationalError], which the code would let through to the
    final [raise], is outside the model. *)
Definition migrar_email (s : Schema) : res Schema :=
  match find_table s "transacciones" with
  | None => Ok s
  | Some t =>
      if has_column t "email_cliente" then
        match alter_add_column s "transacciones" "usuario_email" "TEXT" with
        | Ok s' => Ok s'
        | Raise (OperationalError _) => Ok s
        | Raise e => Raise e
        end
      else Ok s
  end.

(** [migrate_add_mercadopago_support]: the schema it leaves, and whether
    it completed or re-raised. *)
Definition migrate_add_mercadopago_support (s : Schema) : Schema * res unit :=
  let '(s1, r) :=
    match master_lookup s "transacciones" with
    | Some _ =>
        match add_columns new_columns s with
        | Raise e => (s, Raise e)
        | Ok s' =>
            match migrar_email s' with
            | Raise e => (s', Raise e)
            | Ok s'' => (s'', Ok tt)
            end
        end
    | None => executescript script_transacciones s
    end in
  match r with
  | Raise e => (s1, Raise e)
  | Ok _ =>
      let '(s2, _) := executescript script_auxiliares s1 in
      (s2, Ok tt)
  end.

Definition mp_columns : list string :=
  ["mp_preference_id"; "mp_payment_id"; "external_reference"]%string.

Definition check_migration_needed (s : Schema) : bool :=
  match master_lookup s "transacciones" with
  | None => true
  | Some t =>
      negb (forallb (fun c => Py.contains (Py.chars c) (Py.chars (table_sql t)))
              mp_columns)
  end.

(** *** Spelling

    SQLite takes [MP_PAYMENT_ID] and [mp_payment_id] for one column,
    while [check_migration_needed] searches the stored text for the
    lower-case name.  [exact_spelling] says that the catalogue spells
    [transacciones] and the three MercadoPago columns as the Python
    code does: a table or column that SQLite takes for one of them has
    exactly that name. *)







(** *** Vocabulary for the proofs about the migration *)

Abbreviation TX s := (find_table s "transacciones").
Abbreviation MX s := (master_lookup s "transacciones").

(** [appended s s']: tables and indexes were appended, nothing else changed. *)
Definition appended (s s' : Schema) : Prop :=
  ∃ ts ixs, tables s' = tables s ++ ts ∧ indexes s' = indexes s ++ ixs.






(** The text [sub] occurs in [s]. *)
Definition occurs (sub s : string) : Prop :=
  ∃ pre post, Py.chars s = pre ++ Py.chars sub ++ post.

(** The table that [script_transacciones] creates. *)
Definition tabla_nueva : Table :=
  match script_transacciones with
  | CREATE_TABLE_IF_NOT_EXISTS name cols :: _ => {| tbl_name := name; tbl_cols := cols |}
  | _ => {| tbl_name := ""; tbl_cols := [] |}
  end.

End Migr.

(** ** The quote as the specification words it

    Amounts are rational numbers; rounding is to the nearest cent, a tie
    going away from zero. *)

Module Quote.

Local Open Scope Q_scope.

(** The number a finite [Decimal] stands for. *)
Definition value (d : Dec.Decimal) : Q :=
  match d with
  | Dec.Finite c e => inject_Z c * 10 ^ e
  | _ => 0
  end.

Definition round_half_up (q : Q) : Z :=
  if Qle_bool 0 q then Qfloor (q + (1 # 2))
  else Z.opp (Qfloor (- q + (1 # 2))).

Definition round_2dp (q : Q) : Q := inject_Z (round_half_up (q * 100)) / 100.

Definition Qsum (l : list Q) : Q := fold_right Qplus 0 l.

Definition entradas (price : Q) (seat_count : Z) : Q :=
  round_2dp (price * inject_Z seat_count).

Definition combos_subtotal (prices : list Q) : Q := round_2dp (Qsum prices).

Definition total (price : Q) (seat_count : Z) (prices : list Q) : Q :=
  round_2dp (entradas price seat_count + combos_subtotal prices).

(** One rounding of the raw sum, for comparison. *)
Definition single_rounding (price : Q) (seat_count : Z) (prices : list Q) : Q :=
  round_2dp (price * inject_Z seat_count + Qsum prices).

(** The rational price of a catalogue entry. *)
Definition precio (c : Combo) : Q :=
  match Dec.of_string (combo_precio c) with
  | Ok d => value d
  | Raise _ => 0
  end.

End Quote.

(** ** No double booking: the invariant and the reachable states *)

Module Booking.

(** Two live holds of different tokens on one showtime share no seat. *)
Definition holds_disjoint (now : Z) (db : DB) : Prop :=
  ∀ t1 t2 h1 h2,
    t1 ≠ t2 →
    seat_holds db !! t1 = Some h1 → seat_holds db !! t2 = Some h2 →
    Store.live now h1 = true → Store.live now h2 = true →
    h_key h1 = h_key h2 →
    h_seats h1 ## h_seats h2.

(** No seat of a live hold is in the ledger for that showtime. *)
Definition holds_off_ledger (now : Z) (db : DB) : Prop :=
  ∀ t h r,
    seat_holds db !! t = Some h → Store.live now h = true →
    r ∈ reservas db → r_key r = h_key h →
    r_seat r ∉ h_seats h.

(** The ledger holds each [(showtime, seat)] once. *)
Definition ledger_unique (db : DB) : Prop :=
  NoDup (map (fun r => (r_key r, r_seat r)) (reservas db)).

Definition no_double_booking (now : Z) (db : DB) : Prop :=
  holds_disjoint now db ∧ holds_off_ledger now db ∧ ledger_unique db.

(** The operations that touch the seat store. *)
Inductive op :=
| Place (token : string) (k : ShowKey) (seats : gset string) (ttl : Z)
| Confirm (falla : option exn) (token : option string) (k : ShowKey)
    (email : option string) (trx : Z)
| Release (token : string)
| Sweep
| Pago (svc : Services) (cfg : Config) (form : gmap string string) (ses : Session).

Definition run (o : op) (now : Z) (db : DB) : DB :=
  match o with
  | Place token k seats ttl => (Store.place token k seats ttl now db).1
  | Confirm falla token k email trx =>
      (Store.confirm_seats falla token k email trx now db).1
  | Release token => Store.release token db
  | Sweep => (Store.sweep_expired now db).1
  | Pago svc cfg form ses => (pago svc cfg now POST form db ses).1.1
  end.

(** States reached from the empty database by operations issued at
    non-decreasing clock readings. *)
Inductive reachable : Z → DB → Prop :=
| reach_empty now : reachable now empty_db
| reach_step now now' db o :
    reachable now db → now ≤ now' → reachable now' (run o now' db).

End Booking.

(** ** A concrete deployment: the example scenario of the specification

    Two seats of showtime (movie 5, 2025-10-15, 20:00, Sala 1) held at
    T=1000 for 600 seconds, and a payment at T=1200. *)

Module Escenario.

Definition catalogo : list Combo :=
  [ {| combo_id := 1; combo_nombre := "Combo Clásico"; combo_precio := "1500.0" |};
    {| combo_id := 2; combo_nombre := "Combo Familiar"; combo_precio := "2200.0" |};
    {| combo_id := 3; combo_nombre := "Caramelo suelto"; combo_precio := "0.005" |} ]%string.

(** A card validator that only insists on a card number. *)
Definition validar (email pan nombre mes anio cvv monto : string) : list string :=
  if String.eqb pan "" then ["Número de tarjeta inválido."%string] else [].

Definition servicios : Services :=
  {| storage_error := fun _ _ => None;
     COMBOS_CATALOG := catalogo;
     validar_tarjeta := validar;
     detectar_brand := fun _ => "VISA"%string;
     generar_qr := fun _ _ _ => Ok "static/qr/trx.png"%string;
     generar_comprobante_pdf := fun _ _ _ _ _ => Ok "static/comprobantes/trx.pdf"%string;
     enviar_ticket := fun _ _ _ => Ok tt;
     url_for := fun endpoint => endpoint;
     format_2f := fun _ => ""%string;
     strftime := fun fmt _ => fmt |}.

Definition config (precio : string) : Config :=
  {| MAIL_PORT := 25; DEFAULT_BRANCH := Some "Cine Pelagio B. Luna 960"%string;
     SEAT_ROWS := "ABCDEFGHIJ"; SEAT_COLS := 12; SEAT_MAX_PER_ORDER := 6;
     HOLD_TTL_SECONDS := 600; TICKET_PRICE := Some precio |}.

Definition funcion : gmap string string :=
  {[ "id" := "5"; "fecha" := "2025-10-15"; "hora" := "20:00";
     "sala" := "Sala 1"; "titulo" := "Avengers: Endgame" ]}%string.

Definition clave : ShowKey :=
  (Some "5", Some "2025-10-15", Some "20:00", Some "Sala 1")%string.

Definition sesion (asientos : list string) (combos_ids : list Z) : Session :=
  {| seats := Some asientos; hold_token := Some "tok-1"%string;
     combos := Some combos_ids; movie_selection := Some funcion;
     branch := None; flashes := []; modified := false |}.

Definition db_con_hold : DB :=
  (Store.place "tok-1" clave {[ "C7"; "C8" ]}%string 600 1000 empty_db).1.

Definition form_tarjeta (monto : string) : gmap string string :=
  {[ "email" := "ana@example.com"; "pan" := "4111 1111 1111 1111";
     "nombre_tarjeta" := "ANA PEREZ"; "exp_mes" := "12"; "exp_anio" := "2030";
     "cvv" := "123"; "monto" := monto ]}%string.

Definition form_sin_tarjeta : gmap string string :=
  {[ "email" := "ana@example.com" ]}%string.

End Escenario.

(** ** Further vocabulary for the totals and the stored row *)

(** An amount as [quantize] to cents leaves it: two decimals within the
    digits of the context, or [NaN]. *)
Definition dos_decimales (d : Dec.Decimal) : Prop :=
  d = Dec.NaN ∨ ∃ c, d = Dec.Finite c (-2) ∧ Z.abs c < 10 ^ Dec.prec.

(** [d.is_finite()] *)
Definition is_finite (d : Dec.Decimal) : bool :=
  match d with Dec.Finite _ _ => true | _ => false end.

(** The two exceptions of [decimal] that the default context traps and
    that the arithmetic of the totals can raise. *)
Definition decimal_error (e : exn) : Prop := e = InvalidOperation ∨ e = Overflow.

(** The row that the POST branch of [pago()] inserts, field by field as
    the tuple of the [INSERT] gives them. *)
Definition fila_de (svc : Services) (now : Z) (form : gmap string string)
    (monto : Z) (mes anio : option Z) (id : Z) : Transaccion :=
  let email := strip (form_get form "email") in
  let pan := Py.str (Py.remove_char " " (Py.chars (form_get form "pan"))) in
  let last4 := Py.str (Py.last_n 4 (Py.chars pan)) in
  {| trx_id := id; usuario_email := or_None email; monto_cents := monto;
     brand := or_None (detectar_brand svc pan); last4 := or_None last4;
     exp_mes := mes; exp_anio := anio; estado := "PENDIENTE";
     auth_code := ("APP-" ++ last4 ++ "-" ++ strftime svc "%H%M%S" now)%string;
     created_at := strftime svc "%Y-%m-%d %H:%M:%S" now |}.

(** The services with another mail sender: [svc] in all but
    [enviar_ticket]. *)
Definition con_correo (svc : Services) (enviar : string → Z → string → res unit)
    : Services :=
  {| storage_error := storage_error svc;
     COMBOS_CATALOG := COMBOS_CATALOG svc;
     validar_tarjeta := validar_tarjeta svc;
     detectar_brand := detectar_brand svc;
     generar_qr := generar_qr svc;
     generar_comprobante_pdf := generar_comprobante_pdf svc;
     enviar_ticket := enviar;
     url_for := url_for svc;
     format_2f := format_2f svc;
     strftime := strftime svc |}.

(** What [enviar_ticket] may do without the route noticing: return, or
    raise one of the exceptions of the [except] clause around it. *)
Definition tolerado (r : res unit) : Prop :=
  match r with
  | Ok _ | Raise (OSError _) | Raise (ValueError _) | Raise (RuntimeError _) => True
  | Raise _ => False
  end.

(** The services with another QR generator and another receipt
    generator: [svc] in all but [generar_qr] and
    [generar_comprobante_pdf]. *)
Definition con_recibo (svc : Services) (qr : Z → string → string → res string)
    (pdf : Z → string → list string → Dec.Decimal → string → res string) : Services :=
  {| storage_error := storage_error svc;
     COMBOS_CATALOG := COMBOS_CATALOG svc;
     validar_tarjeta := validar_tarjeta svc;
     detectar_brand := detectar_brand svc;
     generar_qr := qr;
     generar_comprobante_pdf := pdf;
     enviar_ticket := enviar_ticket svc;
     url_for := url_for svc;
     format_2f := format_2f svc;
     strftime := strftime svc |}.

(** The services over another storage layer: [svc] in all but
    [storage_error]. *)
Definition con_storage (svc : Services) (falla : Sentencia → DB → option exn)
    : Services :=
  {| storage_error := falla;
     COMBOS_CATALOG := COMBOS_CATALOG svc;
     validar_tarjeta := validar_tarjeta svc;
     detectar_brand := detectar_brand svc;
     generar_qr := generar_qr svc;
     generar_comprobante_pdf := generar_comprobante_pdf svc;
     enviar_ticket := enviar_ticket svc;
     url_for := url_for svc;
     format_2f := format_2f svc;
     strftime := strftime svc |}.

(** The example deployment on a database that another connection keeps
    locked while [confirm_seats] runs. *)
Definition servicios_db_bloqueada : Services :=
  con_storage Escenario.servicios
    (fun st _ =>
       match st with
       | CONFIRM_seats => Some (OperationalError "database is locked")
       | _ => None
       end).

(** The example deployment on a database that gets locked once
    [confirm_seats] has committed, so that the [UPDATE] of the state is
    refused. *)
Definition servicios_update_bloqueado : Services :=
  con_storage Escenario.servicios
    (fun st _ =>
       match st with
       | UPDATE_estado => Some (OperationalError "database is locked")
       | _ => None
       end).

(** The example deployment on the table that the migration creates,
    whose [total_pesos] the [INSERT] of the route leaves out. *)
Definition servicios_tabla_migrada : Services :=
  con_storage Escenario.servicios
    (fun st _ =>
       match st with
       | INSERT_transaccion =>
           Some (IntegrityError "NOT NULL constraint failed: transacciones.total_pesos")
       | _ => None
       end).

(** A text of ASCII characters only, on which the character operations
    of the model are those of Python's [str]. *)
Definition is_ascii (s : string) : bool :=
  forallb (fun a => Py.code a <? 128) (Py.chars s).

(** A form whose fields are all ASCII texts. *)
Definition formulario_ascii (form : gmap string string) : bool :=
  forallb (fun kv => is_ascii kv.2) (map_to_list form).

(** ** Further vocabulary for the migration *)

(** [s'] has every table of [s], under the same name and with the
    columns it had, in order, possibly followed by new ones; and every
    index of [s]. *)
Definition conserva (s s' : Migr.Schema) : Prop :=
  (∀ t, t ∈ Migr.tables s →
        ∃ t', t' ∈ Migr.tables s' ∧ Migr.tbl_name t' = Migr.tbl_name t ∧
              Migr.tbl_cols t `prefix_of` Migr.tbl_cols t') ∧
  (∀ i, i ∈ Migr.indexes s → i ∈ Migr.indexes s').


(** A table created as [Transacciones], from before the migration. *)
Definition esquema_renombrado : Migr.Schema :=
  {| Migr.tables :=
       [ {| Migr.tbl_name := "Transacciones";
            Migr.tbl_cols :=
              [ Migr.col "id" "INTEGER PRIMARY KEY AUTOINCREMENT";
                Migr.col "email_cliente" "TEXT";
                Migr.col "estado" "TEXT NOT NULL" ] |} ];
     Migr.indexes := [] |}%string.

(** A table that spells the three MercadoPago names only inside another
    column name and inside a default. *)
Definition esquema_homonimos : Migr.Schema :=
  {| Migr.tables :=
       [ {| Migr.tbl_name := "transacciones";
            Migr.tbl_cols :=
              [ Migr.col "id" "INTEGER";
                Migr.col "old_mp_preference_id" "TEXT";
                Migr.col "notas" "TEXT DEFAULT 'mp_payment_id external_reference'" ] |} ];
     Migr.indexes := [] |}%string.

(** ** The migration block of [create_app] ([app/__init__.py]) *)



(** ** Sample data ([insert_sample_data] of [app/db_migrations.py])

    Rows are kept with the columns that the two [INSERT] statements name.
    The prices are written [2500.00] and the like: whole numbers, which
    the NUMERIC affinity of the column stores as integers.  A table is its
    rows together with [admite], which stands for its constraints: whether
    an [INSERT] of a row is accepted after the rows already there.
    [execute(sql, params, commit=False)] of [app/db.py] is taken to run
    the statement on the connection of the request without committing,
    and the count is read by column name, as [check_migration_needed]
    reads [sql]. *)

Module Muestra.

Record Funcion := {
  pelicula : string; fecha : string; hora : string; sala : string;
  precio_entrada : Z
}.

Record ComboFila := { nombre : string; descripcion : string; precio : Z }.

Record Tabla (R : Type) := { filas : list R; admite : list R → R → bool }.
Arguments filas {R} t.
Arguments admite {R} t.

(** The two tables; a table that does not exist is [None]. *)
Record Datos := {
  funciones : option (Tabla Funcion);
  combos : option (Tabla ComboFila)
}.

Definition sample_funciones : list Funcion :=
  [ {| pelicula := "Avengers: Endgame"; fecha := "2025-10-15"; hora := "20:00";
       sala := "Sala 1"; precio_entrada := 2500 |};
    {| pelicula := "Avengers: Endgame"; fecha := "2025-10-16"; hora := "18:00";
       sala := "Sala 1"; precio_entrada := 2500 |};
    {| pelicula := "Spider-Man: No Way Home"; fecha := "2025-10-15"; hora := "22:00";
       sala := "Sala 2"; precio_entrada := 2800 |};
    {| pelicula := "Avatar: The Way of Water"; fecha := "2025-10-16"; hora := "19:30";
       sala := "Sala 3"; precio_entrada := 3000 |} ]%string.

Definition sample_combos : list ComboFila :=
  [ {| nombre := "Combo Clásico";
       descripcion := "Pochoclos medianos + Gaseosa 500ml"; precio := 1500 |};
    {| nombre := "Combo Familiar";
       descripcion := "Pochoclos grandes + 2 Gaseosas 500ml"; precio := 2200 |};
    {| nombre := "Combo Dulce";
       descripcion := "Nachos + Gaseosa 500ml + Dulces"; precio := 1800 |};
    {| nombre := "Solo Pochoclos"; descripcion := "Pochoclos grandes"; precio := 800 |};
    {| nombre := "Solo Gaseosa"; descripcion := "Gaseosa 500ml"; precio := 600 |} ]%string.

(** One [INSERT]: [None] when the statement raises. *)
Definition insert_row {R} (t : Tabla R) (r : R) : option (Tabla R) :=
  if admite t (filas t) r
  then Some {| filas := filas t ++ [r]; admite := admite t |}
  else None.

(** The [for] loop over the sample rows: the first [INSERT] that raises
    ends the loop (the exception is caught outside it), and the rows
    inserted before it stay, for the [conn.commit()] at the end. *)
Fixpoint insert_rows {R} (rows : list R) (t : Tabla R) : Tabla R :=
  match rows with
  | [] => t
  | r :: rows' =>
      match insert_row t r with
      | Some t' => insert_rows rows' t'
      | None => t
      end
  end.

(** One of the two [try] blocks: the [SELECT COUNT] raises on a missing
    table, which is caught and logged, and the rows go in only when the
    count is zero. *)
Definition seed {R} (rows : list R) (t : option (Tabla R)) : option (Tabla R) :=
  match t with
  | None => None
  | Some t => if Py.is_nil (filas t) then Some (insert_rows rows t) else Some t
  end.

Definition insert_sample_data (d : Datos) : Datos :=
  {| funciones := seed sample_funciones (funciones d);
     combos := seed sample_combos (combos d) |}.

End Muestra.

(** ** Boolean settings, the test mail command and the entry point
    ([app/__init__.py], [wsgi.py]) *)

(** The spellings that [_bool_env] takes for true. *)
Definition truthy : list string := ["1"; "true"; "yes"; "y"; "on"]%string.

(** [_bool_env(name, default)]: [os.getenv(name)], and
    [str(v).strip().lower() in {...}] when the variable is set. *)
Definition _bool_env (env : gmap string string) (name : string) (dflt : bool) : bool :=
  match env !! name with
  | None => dflt
  | Some v => bool_decide (Py.str (Py.lower (Py.strip (Py.chars v))) ∈ truthy)
  end.

(** The message that [send-test-email] builds. *)
Record Message := { subject : string; recipients : list string; body : string }.

(** The command [send-test-email] that [create_app] registers, in an
    application built from the environment [env]: what it prints, and
    the message it hands to [mail.send], if any.  [EMAIL_DEBUG] is the
    entry that [create_app] sets with [_bool_env("EMAIL_DEBUG", True)];
    [str_exn] renders the exception of a failed [mail.send]. *)
Definition send_test_email (send : Message → res unit) (str_exn : exn → string)
    (env : gmap string string) : list string * option Message :=
  match env !! "TEST_EMAIL_TO" with
  | None => (["⚠ Definí TEST_EMAIL_TO en el entorno para usar este comando."], None)
  | Some to =>
      if String.eqb to "" then
        (["⚠ Definí TEST_EMAIL_TO en el entorno para usar este comando."], None)
      else if _bool_env env "EMAIL_DEBUG" true then
        (["ℹ EMAIL_DEBUG=1 → no se envía. Poné EMAIL_DEBUG=0 para envío real.";
          "Destino sería: " ++ to], None)
      else
        let msg := {| subject := "Prueba Cinema3D"; recipients := [to];
                      body := "Esto es un email de prueba desde Cinema3D." |} in
        match send msg with
        | Ok _ => (["✔ Email de prueba enviado a " ++ to], Some msg)
        | Raise e => (["✖ Error enviando email de prueba: " ++ str_exn e], Some msg)
        end
  end%string.

(** [wsgi.py] run as a script, on the environment left by
    [load_dotenv()]: the application is built first, then host, port and
    debug flag are read for [app.run]. *)
Definition wsgi_main (env : gmap string string) : res (Config * (string * Z * bool)) :=
  do app <- create_app env;
  let host := getenv env "FLASK_RUN_HOST" "127.0.0.1" in
  do port <- Py.int (getenv env "FLASK_RUN_PORT" "5000");
  let debug := bool_decide (getenv env "FLASK_DEBUG" "1" ∈ ["1"; "true"; "True"]%string) in
  Ok (app, (host, port, debug)).

(** * Theorems *)

(** ** The runtime model on examples *)

Example Decimal_5000 : Dec.of_string "5000" = Ok (Dec.Finite 5000 0).
Proof. reflexivity. Qed.

Example Decimal_frac : Dec.of_string " -12.50 " = Ok (Dec.Finite (-1250) (-2)).
Proof. reflexivity. Qed.

Example Decimal_exp : Dec.of_string "5E+3" = Ok (Dec.Finite 5 3).
Proof. reflexivity. Qed.

Example Decimal_underscore : Dec.of_string "1_000" = Ok (Dec.Finite 1000 0).
Proof. reflexivity. Qed.

Example Decimal_bad : Dec.of_string "gratis" = Raise InvalidOperation.
Proof. reflexivity. Qed.

Example Decimal_nan : Dec.of_string "NaN" = Ok Dec.NaN.
Proof. reflexivity. Qed.

Example quantize_half_up :
  Dec.quantize (Dec.Finite 12345 (-3)) TWO Dec.ROUND_HALF_UP = Ok (Dec.Finite 1235 (-2)).
Proof. reflexivity. Qed.

Example quantize_negative_half :
  Dec.quantize (Dec.Finite (-5) (-3)) TWO Dec.ROUND_HALF_UP = Ok (Dec.Finite (-1) (-2)).
Proof. reflexivity. Qed.

Example quantize_too_long :
  Dec.quantize (Dec.Finite 1 30) TWO Dec.ROUND_HALF_UP = Raise InvalidOperation.
Proof. vm_compute. reflexivity. Qed.

Example mul_rounds_to_context :
  Dec.mul (Dec.Finite 49999999999999999999999999999 (-31)) (Dec.of_int 1)
  = Ok (Dec.Finite 5000000000000000000000000000 (-30)).
Proof. vm_compute. reflexivity. Qed.

Example int_of_text : Py.int " 1_000 " = Ok 1000.
Proof. reflexivity. Qed.

Example int_of_padded_text :
  Py.int (String (ascii_of_nat 28) "12")
  = Raise (ValueError "invalid literal for int() with base 10: '\x1c12'").
Proof. vm_compute. reflexivity. Qed.

Example int_refuses_long_literal :
  Py.int (Py.str (repeat "9"%char 4301))
  = Raise (ValueError
      "Exceeds the limit (4300 digits) for integer string conversion: value has 4301 digits; use sys.set_int_max_str_digits() to increase the limit").
Proof. vm_compute. reflexivity. Qed.

Example seat_cols_fatal :
  create_app {[ "SEAT_COLS" := "doce" ]}%string
  = Raise (ValueError "invalid literal for int() with base 10: 'doce'").
Proof. vm_compute. reflexivity. Qed.

(** ** Digits, the context and [quantize] *)

Section DecimalLemmas.

Import Dec.
Lemma pow10_pos k : 0 < 10 ^ k ∨ k < 0.
Proof. destruct (Z_lt_le_dec k 0); [right; lia | left; apply Z.pow_pos_nonneg; lia]. Qed.

Lemma ndigits_aux_spec fuel m :
  0 < m → m < 2 ^ (Z.of_nat fuel + 1) →
  1 ≤ ndigits_aux fuel m ∧
  10 ^ (ndigits_aux fuel m - 1) ≤ m < 10 ^ (ndigits_aux fuel m).
Proof.
  revert m. induction fuel as [|f IH]; intros m Hpos Hlt.
  - simpl in *. assert (m = 1) by lia. subst. split; [lia|]. simpl. lia.
  - cbn [ndigits_aux]. destruct (Z.ltb_spec m 10) as [H10|H10].
    + split; [lia|]. simpl. lia.
    + assert (Hq : 0 < m / 10) by (apply Z.div_str_pos; lia).
      assert (Hb : m / 10 < 2 ^ (Z.of_nat f + 1)).
      { apply Z.div_lt_upper_bound; [lia|].
        replace (Z.of_nat (S f) + 1) with (Z.succ (Z.of_nat f + 1)) in Hlt by lia.
        rewrite Z.pow_succ_r in Hlt by lia. lia. }
      destruct (IH _ Hq Hb) as (H1 & Hlo & Hhi).
      set (r := ndigits_aux f (m / 10)) in *.
      split; [lia|].
      replace (1 + r - 1) with (Z.succ (r - 1)) by lia.
      replace (1 + r) with (Z.succ r) by lia.
      rewrite !Z.pow_succ_r by lia.
      pose proof (Z.mul_div_le m 10 ltac:(lia)).
      pose proof (Z.mul_succ_div_gt m 10 ltac:(lia)).
      lia.
Qed.

Lemma ndigits_spec c :
  c ≠ 0 → 1 ≤ ndigits c ∧ 10 ^ (ndigits c - 1) ≤ Z.abs c < 10 ^ (ndigits c).
Proof.
  intros Hc. unfold ndigits. apply ndigits_aux_spec; [lia|].
  rewrite Z2Nat.id by apply Z.log2_nonneg.
  replace (Z.log2 (Z.abs c) + 1) with (Z.succ (Z.log2 (Z.abs c))) by lia.
  apply Z.log2_spec. lia.
Qed.

Lemma ndigits_zero : ndigits 0 = 1.
Proof. reflexivity. Qed.

Lemma ndigits_le c k : 0 ≤ k → Z.abs c < 10 ^ k → c ≠ 0 → ndigits c ≤ k.
Proof.
  intros Hk Hlt Hc. destruct (ndigits_spec c Hc) as (H1 & Hlo & _).
  destruct (Z_le_gt_dec (ndigits c) k) as [|Hgt]; [done|].
  assert (10 ^ k ≤ 10 ^ (ndigits c - 1)) by (apply Z.pow_le_mono_r; lia).
  lia.
Qed.

Lemma ndigits_ge c k : 10 ^ k ≤ Z.abs c → k < ndigits c.
Proof.
  intros Hle.
  destruct (Z.eq_dec c 0) as [->|Hc].
  { destruct (pow10_pos k); [simpl in Hle; lia | rewrite ndigits_zero; lia]. }
  destruct (ndigits_spec c Hc) as (H1 & _ & Hhi).
  destruct (Z_lt_le_dec k (ndigits c)) as [|Hge]; [done|].
  assert (10 ^ ndigits c ≤ 10 ^ k) by (apply Z.pow_le_mono_r; lia).
  lia.
Qed.

Lemma fix_id c e :
  Z.abs c < 10 ^ prec → Etiny ≤ e ≤ Etop → fix_ (Finite c e) = Ok (Finite c e).
Proof.
  intros Hc He. unfold fix_.
  destruct (Z.eqb_spec c 0) as [->|Hne].
  { f_equal. f_equal. unfold Etiny, Etop, Emax, Emin, prec in *. lia. }
  pose proof (ndigits_le c prec ltac:(unfold prec; lia) Hc Hne) as Hn.
  destruct (ndigits_spec c Hne) as (H1 & _).
  destruct (Z.ltb_spec Etop (ndigits c + e - prec)); [lia|].
  destruct (Z.ltb_spec e (Z.max (ndigits c + e - prec) Etiny)); [lia|]. done.
Qed.


Lemma round_mag_lower r m k : 0 ≤ m → 0 ≤ k → m / 10 ^ k ≤ round_mag r m k.
Proof.
  intros Hm Hk. unfold round_mag.
  destruct r; repeat (match goal with |- context [if ?b then _ else _] => destruct b end); lia.
Qed.

Lemma round_mag_nonneg r m k : 0 ≤ m → 0 ≤ k → 0 ≤ round_mag r m k.
Proof.
  intros Hm Hk. pose proof (round_mag_lower r m k Hm Hk).
  assert (0 ≤ m / 10 ^ k) by (apply Z.div_pos; [lia | apply Z.pow_pos_nonneg; lia]). lia.
Qed.

Lemma rescale_abs c e q r :
  c ≠ 0 →
  Z.abs (rescale c e q r) =
    if q <=? e then Z.abs c * 10 ^ (e - q) else round_mag r (Z.abs c) (q - e).
Proof.
  intros Hc. unfold rescale. rewrite (proj2 (Z.eqb_neq c 0) Hc).
  destruct (Z.leb_spec q e).
  - rewrite Z.abs_mul. f_equal. apply Z.abs_eq. apply Z.pow_nonneg; lia.
  - rewrite Z.abs_mul.
    pose proof (round_mag_nonneg r (Z.abs c) (q - e) ltac:(lia) ltac:(lia)).
    rewrite (Z.abs_eq (round_mag _ _ _)) by done.
    assert (Z.abs (Z.sgn c) = 1) by lia. lia.
Qed.

(** A quantized amount that fits the context bounds the digits of its source. *)
Lemma rescale_fit_digits c e q r :
  c ≠ 0 → Z.abs (rescale c e q r) < 10 ^ prec → ndigits c + e - q ≤ prec.
Proof.
  intros Hc Hfit. rewrite rescale_abs in Hfit by done.
  destruct (ndigits_spec c Hc) as (H1 & Hlo & _).
  destruct (Z_le_gt_dec (ndigits c + e - q) prec) as [|Hgt]; [done|exfalso].
  assert (Hp : 10 ^ prec ≤ 10 ^ (ndigits c + e - q - 1))
    by (apply Z.pow_le_mono_r; unfold prec in *; lia).
  destruct (Z.leb_spec q e).
  - assert (10 ^ (ndigits c + e - q - 1) = 10 ^ (ndigits c - 1) * 10 ^ (e - q)).
    { rewrite <- Z.pow_add_r by lia. f_equal. lia. }
    assert (0 < 10 ^ (e - q)) by (apply Z.pow_pos_nonneg; lia). nia.
  - pose proof (round_mag_lower r (Z.abs c) (q - e) ltac:(lia) ltac:(lia)).
    assert (10 ^ (ndigits c + e - q - 1) ≤ Z.abs c / 10 ^ (q - e)).
    { apply Z.div_le_lower_bound; [apply Z.pow_pos_nonneg; lia|].
      rewrite <- Z.pow_add_r by (unfold prec in *; lia).
      replace (q - e + (ndigits c + e - q - 1)) with (ndigits c - 1) by lia. done. }
    lia.
Qed.

Lemma quantize_two c e :
  Z.abs (cents c e) < 10 ^ prec →
  quantize (Finite c e) TWO ROUND_HALF_UP = Ok (Finite (cents c e) (-2)).
Proof.
  intros Hfit. unfold quantize, TWO, cents in *.
  replace (negb ((Etiny <=? -2) && (-2 <=? Emax))) with false by reflexivity.
  destruct (Z.eqb_spec c 0) as [->|Hc]; [reflexivity|].
  pose proof (rescale_fit_digits c e (-2) ROUND_HALF_UP Hc Hfit) as Hd.
  destruct (ndigits_spec c Hc) as (H1 & _).
  unfold adjusted.
  destruct (Z.ltb_spec Emax (e + ndigits c - 1)); [unfold Emax, prec in *; lia|].
  destruct (Z.ltb_spec prec (e + ndigits c - 1 - -2 + 1)); [lia|].
  set (c' := rescale c e (-2) ROUND_HALF_UP) in *.
  assert (Hn : ndigits c' ≤ prec).
  { destruct (Z.eq_dec c' 0) as [->|Hc']; [rewrite ndigits_zero; unfold prec; lia|].
    apply ndigits_le; [unfold prec; lia | done | done]. }
  destruct (Z.ltb_spec Emax (-2 + ndigits c' - 1)); [unfold Emax, prec in *; lia|].
  destruct (Z.ltb_spec prec (ndigits c')); [lia|].
  apply fix_id; [done | unfold Etiny, Etop, Emin, Emax, prec; lia].
Qed.

End DecimalLemmas.

(** ** Quantizing is rounding half-up, on rational numbers *)

Section QuoteLemmas.

Import Dec Quote.
Lemma half_up_div m P :
  0 ≤ m → 0 < P →
  (2 * m + P) / (2 * P) = m / P + (if P <=? 2 * (m mod P) then 1 else 0).
Proof.
  intros Hm HP.
  pose proof (Z.div_mod m P ltac:(lia)) as Hdm.
  pose proof (Z.mod_pos_bound m P HP) as Hr.
  set (q := m / P) in *. set (r := m mod P) in *.
  symmetry. destruct (Z.leb_spec P (2 * r)).
  - apply Z.div_unique with (r := 2 * r - P); nia.
  - apply Z.div_unique with (r := 2 * r + P); nia.
Qed.

Lemma round_half_up_comp q q' : (q == q')%Q → round_half_up q = round_half_up q'.
Proof.
  intros H. unfold round_half_up.
  assert (Hb : Qle_bool 0 q = Qle_bool 0 q').
  { apply eq_true_iff_eq. rewrite !Qle_bool_iff. rewrite H. tauto. }
  rewrite Hb. destruct (Qle_bool 0 q').
  - apply Qfloor_comp. rewrite H. reflexivity.
  - f_equal. apply Qfloor_comp. rewrite H. reflexivity.
Qed.

Lemma inject_Z_nonzero z : z ≠ 0 → ¬ (inject_Z z == 0)%Q.
Proof. intros Hz H. apply Hz. apply (proj1 (inject_Z_injective z 0)). exact H. Qed.

Lemma inject_Z_lt0 z : (inject_Z z < 0)%Q ↔ z < 0.
Proof. unfold Qlt. simpl. lia. Qed.

Lemma inject_Z_gt0 z : (0 < inject_Z z)%Q ↔ 0 < z.
Proof. unfold Qlt. simpl. lia. Qed.

Lemma inject_Z_ge0 z : (0 <= inject_Z z)%Q ↔ 0 ≤ z.
Proof. unfold Qle. simpl. lia. Qed.

Lemma round_half_up_frac a P :
  0 < P →
  round_half_up (inject_Z a / inject_Z P) = Z.sgn a * ((2 * Z.abs a + P) / (2 * P)).
Proof.
  intros HP.
  assert (HPq : ¬ (inject_Z P == 0)%Q) by (apply inject_Z_nonzero; lia).
  assert (Hsum : ∀ b, (inject_Z b / inject_Z P + (1 # 2) == inject_Z (2 * b + P) / inject_Z (2 * P))%Q).
  { intros b. rewrite inject_Z_plus, !inject_Z_mult. field. exact HPq. }
  unfold round_half_up.
  destruct (Qle_bool 0 (inject_Z a / inject_Z P)) eqn:Hs.
  - apply Qle_bool_iff in Hs.
    assert (0 ≤ a).
    { destruct (Z_lt_le_dec a 0) as [Hneg|]; [exfalso|done].
      assert (inject_Z a / inject_Z P < 0)%Q; [|eapply Qlt_not_le; eauto].
      apply Qlt_shift_div_r; [apply inject_Z_gt0; done|].
      rewrite Qmult_0_l. apply inject_Z_lt0. done. }
    rewrite (Qfloor_comp _ _ (Hsum a)), <- Zdiv_Qdiv.
    destruct (Z.eq_dec a 0) as [->|].
    + simpl. rewrite Z.div_small; lia.
    + rewrite Z.abs_eq by done. replace (Z.sgn a) with 1 by lia. lia.
  - assert (a < 0).
    { destruct (Z_lt_le_dec a 0) as [|Hge]; [done|exfalso].
      assert (Qle_bool 0 (inject_Z a / inject_Z P) = true); [|congruence].
      apply Qle_bool_iff. apply Qle_shift_div_l; [apply inject_Z_gt0; done|].
      rewrite Qmult_0_l. apply inject_Z_ge0. done. }
    assert (Hneg : (- (inject_Z a / inject_Z P) + (1 # 2) == inject_Z (- a) / inject_Z P + (1 # 2))%Q).
    { rewrite inject_Z_opp. field. exact HPq. }
    rewrite (Qfloor_comp _ _ Hneg), (Qfloor_comp _ _ (Hsum (- a))), <- Zdiv_Qdiv.
    rewrite Z.abs_neq by lia. replace (Z.sgn a) with (-1) by lia. lia.
Qed.

Lemma pow10_Q k : 0 ≤ k → (10 ^ k == inject_Z (10 ^ k))%Q.
Proof. intros Hk. rewrite Zpower_Qpower by done. reflexivity. Qed.

Lemma pow10_Q_neg k : 0 ≤ k → (10 ^ (- k) == / inject_Z (10 ^ k))%Q.
Proof. intros Hk. rewrite Qpower_opp, pow10_Q by done. reflexivity. Qed.

Lemma pow10_Q_nonzero k : ¬ (10 ^ k == 0)%Q.
Proof. apply Qpower_not_0. discriminate. Qed.

(** Quantizing to cents is rounding the number half-up to two decimals. *)
Lemma round_half_up_cents c e :
  round_half_up (value (Finite c e) * 100) = cents c e.
Proof.
  unfold cents, rescale, value.
  destruct (Z.eqb_spec c 0) as [->|Hc].
  { rewrite (round_half_up_comp _ 0%Q); [reflexivity|]. simpl. ring. }
  destruct (Z.leb_spec (-2) e) as [He|He].
  - rewrite (round_half_up_comp _ (inject_Z (c * 10 ^ (e - -2)) / inject_Z 1)).
    + rewrite round_half_up_frac by lia.
      replace ((2 * Z.abs (c * 10 ^ (e - -2)) + 1) / (2 * 1)) with (Z.abs (c * 10 ^ (e - -2))).
      * lia.
      * apply Z.div_unique with (r := 1); lia.
    + rewrite inject_Z_mult, <- pow10_Q by lia.
      replace (e - -2) with (e + 2) by lia.
      rewrite Qpower_plus by discriminate.
      change (10 ^ 2)%Q with 100%Q. field.
  - set (k := -2 - e).
    assert (HP : 0 < 10 ^ k) by (apply Z.pow_pos_nonneg; lia).
    rewrite (round_half_up_comp _ (inject_Z c / inject_Z (10 ^ k))).
    + rewrite round_half_up_frac by done.
      rewrite half_up_div by lia. unfold round_mag. fold k.
      destruct (10 ^ k <=? 2 * (Z.abs c mod 10 ^ k)); f_equal; lia.
    + replace e with (- k + - 2) by lia.
      rewrite Qpower_plus by discriminate.
      rewrite pow10_Q_neg by lia.
      change (10 ^ (- 2))%Q with (/ 100)%Q.
      field. apply inject_Z_nonzero. lia.
Qed.

Lemma value_cents c e :
  (value (Finite (cents c e) (-2)) == round_2dp (value (Finite c e)))%Q.
Proof.
  unfold round_2dp. rewrite round_half_up_cents.
  unfold value. change (10 ^ (-2))%Q with (/ 100)%Q. field.
Qed.

(** Padding a coefficient with zeros does not change the number. *)
Lemma value_pad c e k :
  0 ≤ k → (value (Finite (c * 10 ^ k) (e - k)) == value (Finite c e))%Q.
Proof.
  intros Hk. unfold value. rewrite inject_Z_mult, <- pow10_Q by done.
  rewrite <- Qmult_assoc, <- Qpower_plus by discriminate.
  replace (k + (e - k)) with e by lia. reflexivity.
Qed.

Lemma value_add c1 c2 e :
  (value (Finite (c1 + c2) e) == value (Finite c1 e) + value (Finite c2 e))%Q.
Proof. unfold value. rewrite inject_Z_plus. ring. Qed.

Lemma value_mul c n e :
  (value (Finite (c * n) e) == value (Finite c e) * inject_Z n)%Q.
Proof. unfold value. rewrite inject_Z_mult. ring. Qed.

End QuoteLemmas.

(** ** The server-side totals *)

Section Totals.

Import Dec Quote.
Context (svc : Services).
Lemma representable_fix c e :
  representable c e = true → fix_ (Finite c e) = Ok (Finite c e).
Proof.
  unfold representable. rewrite !andb_true_iff, Z.ltb_lt, !Z.leb_le.
  intros [[? ?] ?]. apply fix_id; lia.
Qed.

Lemma add_comm a b : add a b = add b a.
Proof.
  destruct a as [c1 e1|[]| |], b as [c2 e2|[]| |]; try reflexivity.
  cbn [add]. rewrite (Z.min_comm e2 e1), Z.add_comm. reflexivity.
Qed.

Lemma sum_precios_from l : sum_precios l = sum_from (of_int 0) l.
Proof.
  destruct l as [|c l]; [reflexivity|]. simpl.
  destruct (of_string (combo_precio c)) as [p|]; [|reflexivity]. simpl.
  rewrite (add_comm p). reflexivity.
Qed.

Lemma round_2dp_comp q q' : (q == q')%Q → (round_2dp q == round_2dp q')%Q.
Proof.
  intros H. unfold round_2dp.
  rewrite (round_half_up_comp (q * 100) (q' * 100)); [reflexivity|].
  rewrite H. reflexivity.
Qed.

Lemma exact_sum_sound l : ∀ ca ea cs es,
  exact_sum (ca, ea) l = Some (cs, es) →
  sum_from (Finite ca ea) l = Ok (Finite cs es) ∧
  (value (Finite cs es) == value (Finite ca ea) + Qsum (map precio l))%Q.
Proof.
  induction l as [|c l IH]; intros ca ea cs es H; simpl in H.
  - injection H as <- <-. split; [reflexivity|]. simpl. ring.
  - cbn [sum_from map Qsum fold_right]. unfold precio at 1.
    destruct (of_string (combo_precio c)) as [[c2 e2| | |]|]; try discriminate.
    set (e := Z.min ea e2) in *.
    set (m := ca * 10 ^ (ea - e) + c2 * 10 ^ (e2 - e)) in *.
    destruct (representable m e) eqn:Hrep; [|discriminate].
    destruct (IH _ _ _ _ H) as [Hs Hv].
    split.
    + cbn [bind add]. fold e. fold m.
      rewrite (representable_fix _ _ Hrep). exact Hs.
    + rewrite Hv. fold (Qsum (map precio l)).
      assert (Hm : (value (Finite m e) == value (Finite ca ea) + value (Finite c2 e2))%Q).
      { unfold m. rewrite value_add.
        pose proof (value_pad ca ea (ea - e) ltac:(lia)) as H1.
        pose proof (value_pad c2 e2 (e2 - e) ltac:(lia)) as H2.
        replace (ea - (ea - e)) with e in H1 by lia.
        replace (e2 - (e2 - e)) with e in H2 by lia.
        rewrite H1, H2. reflexivity. }
      rewrite Hm. ring.
Qed.

Lemma cents_two x : cents x (-2) = x.
Proof.
  unfold cents, rescale. destruct (Z.eqb_spec x 0); [lia|]. simpl. lia.
Qed.

Lemma totals_within_context cfg ses :
  within_context svc cfg ses = true →
  ∃ te tc total,
    _calcular_totales_server_side svc cfg ses
      = Ok (te, tc, total, _combos_from_session svc ses,
            _seats_from_session ses, _seleccion_from_session ses) ∧
    let price := value (_precio_entrada cfg) in
    let n := Z.of_nat (length (_seats_from_session ses)) in
    let prices := map precio (_combos_from_session svc ses) in
    (value te == entradas price n)%Q ∧
    (value tc == combos_subtotal prices)%Q ∧
    (value total == Quote.total price n prices)%Q.
Proof.
  unfold within_context, _calcular_totales_server_side.
  destruct (_precio_entrada cfg) as [c e| | |] eqn:Hp; try discriminate.
  set (n := Z.of_nat (length (_seats_from_session ses))).
  set (cs := _combos_from_session svc ses).
  destruct (exact_sum (0, 0) cs) as [[s es]|] eqn:Hsum;
    [|rewrite andb_false_r; discriminate].
  rewrite !andb_true_iff. unfold cents_fit. rewrite !Z.ltb_lt.
  intros [[Hrep Hte] [Htc Htot]].
  destruct (exact_sum_sound _ _ _ _ _ Hsum) as [Hs Hv].
  exists (Finite (cents (c * n) e) (-2)), (Finite (cents s es) (-2)),
         (Finite (cents (c * n) e + cents s es) (-2)).
  split.
  - cbn [mul of_int]. rewrite Z.add_0_r, (representable_fix _ _ Hrep).
    cbn [bind]. rewrite (quantize_two _ _ Hte). cbn [bind].
    rewrite sum_precios_from. unfold of_int. rewrite Hs. cbn [bind].
    rewrite (quantize_two _ _ Htc). cbn [bind add].
    replace (Z.min (-2) (-2)) with (-2) by reflexivity.
    replace (-2 - -2) with 0 by reflexivity.
    rewrite Z.pow_0_r, !Z.mul_1_r.
    rewrite fix_id; [|done|unfold Etiny, Etop, Emin, Emax, prec; lia].
    cbn [bind]. rewrite quantize_two; rewrite cents_two; [reflexivity|done].
  - cbn zeta.
    assert (H1 : (value (Finite (cents (c * n) e) (-2)) == entradas (value (Finite c e)) n)%Q).
    { rewrite value_cents. apply round_2dp_comp. apply value_mul. }
    assert (H2 : (value (Finite (cents s es) (-2)) == combos_subtotal (map precio cs))%Q).
    { rewrite value_cents. apply round_2dp_comp. rewrite Hv. unfold value at 1. simpl. ring. }
    split; [exact H1|]. split; [exact H2|].
    unfold Quote.total.
    transitivity (round_2dp (value (Finite (cents (c * n) e + cents s es) (-2)))).
    + rewrite <- value_cents, cents_two. reflexivity.
    + apply round_2dp_comp. rewrite value_add, H1, H2. reflexivity.
Qed.

End Totals.

(** ** Cents *)

Section Cents.

Import Dec Quote.
Lemma ndigits_unique c k :
  10 ^ (k - 1) ≤ Z.abs c < 10 ^ k → 1 ≤ k → ndigits c = k.
Proof.
  intros [Hlo Hhi] Hk.
  assert (Hc : c ≠ 0).
  { intros ->. assert (0 < 10 ^ (k - 1)) by (apply Z.pow_pos_nonneg; lia). simpl in Hlo. lia. }
  pose proof (ndigits_le c k ltac:(lia) Hhi Hc).
  pose proof (ndigits_ge c (k - 1) Hlo). lia.
Qed.

Lemma ndigits_pad c j : c ≠ 0 → 0 ≤ j → ndigits (c * 10 ^ j) = ndigits c + j.
Proof.
  intros Hc Hj. destruct (ndigits_spec c Hc) as (H1 & Hlo & Hhi).
  assert (Hp : 0 < 10 ^ j) by (apply Z.pow_pos_nonneg; lia).
  apply ndigits_unique; [|lia].
  rewrite Z.abs_mul, (Z.abs_eq (10 ^ j)) by lia.
  replace (ndigits c + j - 1) with (ndigits c - 1 + j) by lia.
  rewrite !Z.pow_add_r by lia. nia.
Qed.

Lemma round_mag_exact r m j d :
  0 ≤ m → 0 ≤ d ≤ j → round_mag r (m * 10 ^ j) d = m * 10 ^ (j - d).
Proof.
  intros Hm Hd. unfold round_mag.
  assert (Hp : 0 < 10 ^ d) by (apply Z.pow_pos_nonneg; lia).
  assert (Hsplit : m * 10 ^ j = m * 10 ^ (j - d) * 10 ^ d).
  { rewrite <- Z.mul_assoc, <- Z.pow_add_r by lia. do 2 f_equal. lia. }
  rewrite Hsplit, Z.div_mul, Z.mod_mul by lia.
  destruct r.
  - destruct (Z.leb_spec (10 ^ d) (2 * 0)); [lia|reflexivity].
  - destruct (Z.ltb_spec (10 ^ d) (2 * 0)); [lia|].
    destruct (Z.eqb_spec (10 ^ d) (2 * 0)); [lia|reflexivity].
Qed.

(** A coefficient padded with zeros: the context drops as many of the
    zeros as it must, and nothing else. *)
Lemma fix_pad c j e :
  c ≠ 0 → Z.abs c < 10 ^ prec → 0 ≤ j → Etiny ≤ e → e + j ≤ Etop →
  ∃ d, 0 ≤ d ≤ j ∧ fix_ (Finite (c * 10 ^ j) e) = Ok (Finite (c * 10 ^ (j - d)) (e + d)).
Proof.
  intros Hc Hlt Hj He Hej.
  assert (Hpj : 0 < 10 ^ j) by (apply Z.pow_pos_nonneg; lia).
  pose proof (ndigits_le c prec ltac:(unfold prec; lia) Hlt Hc) as Hn.
  destruct (ndigits_spec c Hc) as (H1 & _).
  unfold fix_.
  destruct (Z.eqb_spec (c * 10 ^ j) 0); [nia|].
  rewrite ndigits_pad by done.
  destruct (Z.ltb_spec Etop (ndigits c + j + e - prec)); [lia|].
  destruct (Z.ltb_spec e (Z.max (ndigits c + j + e - prec) Etiny)) as [Hr|Hr].
  - rewrite Z.max_l in * by lia.
    set (d := ndigits c + j + e - prec - e).
    exists d. split; [lia|].
    rewrite Z.abs_mul, (Z.abs_eq (10 ^ j)) by lia.
    replace (ndigits c + j + e - prec - e) with d by lia.
    rewrite round_mag_exact by lia.
    assert (Hpd : 0 < 10 ^ (j - d)) by (apply Z.pow_pos_nonneg; lia).
    assert (Hnd : ndigits (Z.abs c * 10 ^ (j - d)) = ndigits c + (j - d)).
    { rewrite ndigits_pad by lia. f_equal. unfold ndigits. by rewrite Z.abs_idemp. }
    rewrite Hnd.
    destruct (Z.ltb_spec prec (ndigits c + (j - d))); [lia|].
    destruct (Z.ltb_spec Etop (ndigits c + j + e - prec)); [lia|].
    do 2 f_equal; [|lia].
    rewrite Z.sgn_mul, (Z.sgn_pos (10 ^ j)) by lia.
    rewrite Z.mul_1_r, Z.mul_assoc. f_equal. lia.
  - exists 0. split; [lia|]. rewrite Z.sub_0_r, Z.add_0_r. reflexivity.
Qed.

(** Converting a two-decimal total to cents is exact. *)
Lemma monto_cents_de_two c :
  Z.abs c < 10 ^ prec → monto_cents_de (Finite c (-2)) = Ok c.
Proof.
  intros Hlt. unfold monto_cents_de. cbn [mul of_int].
  destruct (Z.eq_dec c 0) as [->|Hc]; [reflexivity|].
  change 100 with (10 ^ 2).
  destruct (fix_pad c 2 (-2 + 0) Hc Hlt ltac:(lia)
              ltac:(unfold Etiny, Emin, prec; lia)
              ltac:(unfold Etop, Emax, prec; lia)) as (d & Hd & ->).
  cbn [bind to_integral_value].
  assert (Hs : Z.sgn c * Z.abs c = c) by lia.
  destruct (Z.leb_spec 0 (-2 + 0 + d)).
  - cbn [bind to_int]. assert (d = 2) by lia. subst d.
    destruct (Z.leb_spec 0 (-2 + 0 + 2)); [|lia].
    f_equal. simpl. lia.
  - cbn [bind to_int]. rewrite Z.leb_refl. f_equal.
    unfold rescale.
    assert (Hp : 0 < 10 ^ (2 - d)) by (apply Z.pow_pos_nonneg; lia).
    destruct (Z.eqb_spec (c * 10 ^ (2 - d)) 0); [nia|].
    destruct (Z.leb_spec 0 (-2 + 0 + d)); [lia|].
    rewrite Z.abs_mul, (Z.abs_eq (10 ^ (2 - d))) by lia.
    replace (0 - (-2 + 0 + d)) with (2 - d) by lia.
    rewrite round_mag_exact by lia.
    rewrite Z.sub_diag, Z.sgn_mul, (Z.sgn_pos (10 ^ (2 - d))) by lia.
    simpl. lia.
Qed.

(** What [quantize] to two decimals can return. *)
Lemma quantize_two_result d t :
  quantize d TWO ROUND_HALF_UP = Ok t →
  (d = NaN ∧ t = NaN) ∨ ∃ c, t = Finite c (-2) ∧ Z.abs c < 10 ^ prec.
Proof.
  unfold quantize, TWO.
  destruct d as [c e|s| |]; try discriminate; [|intros [= <-]; by left].
  replace (negb ((Etiny <=? -2) && (-2 <=? Emax))) with false by reflexivity.
  destruct (Z.eqb_spec c 0) as [->|Hc].
  { intros [= <-]. right. exists 0. split; [reflexivity|]. unfold prec. simpl. lia. }
  repeat (match goal with |- context [if ?b then _ else _] => destruct b eqn:? end;
          try discriminate).
  set (c' := rescale c e (-2) ROUND_HALF_UP) in *.
  assert (Hlt : Z.abs c' < 10 ^ prec).
  { destruct (Z.eq_dec c' 0) as [->|Hc']; [unfold prec; simpl; lia|].
    destruct (ndigits_spec c' Hc') as (_ & _ & Hhi).
    assert (10 ^ ndigits c' ≤ 10 ^ prec); [|lia].
    apply Z.pow_le_mono_r; lia. }
  rewrite fix_id by (done || unfold Etiny, Etop, Emin, Emax, prec; lia).
  intros [= <-]. right. eauto.
Qed.

End Cents.

(** ** The payment route, path by path *)

Section Handler.

Context (svc : Services).

(** The ways [confirm_seats] can end. *)
Lemma confirm_seats_cases falla token k email trx now db db' r :
  Store.confirm_seats falla token k email trx now db = (db', r) →
  (db' = db ∧ (r = Ok [] ∨ ∃ e, r = Raise e)) ∨
  (∃ tk h,
      token = Some tk ∧ seat_holds db !! tk = Some h ∧
      Store.live now h = true ∧ h_key h = k ∧
      h_seats h ## Store.seats_confirmed db k ∧
      r = Ok (elements (h_seats h)) ∧
      transacciones db' = transacciones db ∧
      seat_holds db' = delete tk (seat_holds db) ∧
      reservas db' = reservas db ++
        map (fun s => {| r_key := k; r_seat := s; r_trx := trx;
                         r_email := email; r_confirmed_at := now |})
            (elements (h_seats h))).
Proof.
  unfold Store.confirm_seats, Store.commit, Store.get, Store.release. intros H.
  repeat case_match; simplify_eq; eauto 10.
  right. do 2 eexists.
  match goal with H : _ && _ = true |- _ => apply andb_true_iff in H as [? Hk] end.
  apply bool_decide_eq_true in Hk. subst. simpl. eauto 12.
Qed.

(** What [confirm_seats] answers, from the hold of the session's token:
    the failure of the storage layer if there is one; no seat without a
    live hold of the showtime; [ValueError] when a seat of the hold is in
    the ledger; the seats of the hold otherwise. *)
Lemma confirm_seats_answer falla token k email trx now db db' r :
  Store.confirm_seats falla token k email trx now db = (db', r) →
  match falla with
  | Some e => r = Raise e
  | None =>
      match hold_vivo now db token k with
      | None => r = Ok []
      | Some h =>
          if decide (h_seats h ## Store.seats_confirmed db k)
          then r = Ok (elements (h_seats h))
          else ∃ msg, r = Raise (ValueError msg)
      end
  end.
Proof.
  unfold Store.confirm_seats, Store.commit, Store.get, hold_vivo. intros H.
  repeat case_match; simplify_eq; eauto.
Qed.

Lemma next_id_fresh db t : t ∈ transacciones db → trx_id t < next_id db.
Proof.
  unfold next_id. generalize (transacciones db). intros l Hin.
  induction l as [|x l IH]; [by apply elem_of_nil in Hin|].
  apply elem_of_cons in Hin as [->|Hin]; simpl; [lia|].
  specialize (IH Hin). lia.
Qed.

Lemma update_estado_others st id l :
  (∀ t, t ∈ l → trx_id t ≠ id) →
  map (fun t => if trx_id t =? id then set_estado st t else t) l = l.
Proof.
  induction l as [|x l IH]; intros H; [reflexivity|]. simpl.
  rewrite IH by (intros t Ht; apply H; by right).
  destruct (Z.eqb_spec (trx_id x) id) as [E|]; [|reflexivity].
  exfalso. eapply H; [by left|exact E].
Qed.

(** Writing the state of the row just inserted touches no other row. *)
Lemma update_estado_insertada db db2 fila st :
  (∀ id, trx_id (fila id) = id) →
  transacciones db2 = transacciones (con_fila db (fila (next_id db))) →
  transacciones (update_estado db2 st (next_id db))
    = transacciones db ++ [set_estado st (fila (next_id db))].
Proof.
  intros Hid Htr. unfold update_estado. simpl. rewrite Htr. simpl.
  rewrite map_app. simpl. rewrite Hid, Z.eqb_refl.
  rewrite update_estado_others; [reflexivity|].
  intros t Ht. pose proof (next_id_fresh db t Ht). lia.
Qed.

Lemma set_estado_same t : set_estado (estado t) t = t.
Proof. by destruct t. Qed.

(** The [INSERT] either raises, or adds the row under the next id. *)
Lemma insert_transaccion_ok falla db fila db1 trx :
  insert_transaccion falla db fila = Ok (db1, trx) →
  trx = next_id db ∧ db1 = con_fila db (fila (next_id db)).
Proof.
  unfold insert_transaccion. intros H. repeat case_match; simplify_eq. done.
Qed.

Lemma same_selection_refl ses : same_selection ses ses.
Proof. done. Qed.

Lemma same_selection_flash msg cat ses : same_selection ses (flash msg cat ses).
Proof. done. Qed.

Lemma pago_aprobado_spec cfg db2 ses trx email nombre brand last4 auth confirmados total :
  let '(db', ses', out) :=
    pago_aprobado svc cfg db2 ses trx email nombre brand last4 auth confirmados total in
  match storage_error svc UPDATE_estado db2 with
  | Some e => db' = db2 ∧ ses' = ses ∧ out = Raised e
  | None =>
      db' = update_estado db2 "APROBADO" trx ∧
      ((ses' = limpiar_sesion ses ∧
        out = Returned (pago_ok_html trx confirmados total brand last4 auth)) ∨
       (ses' = ses ∧ ∃ e, out = Raised e))
  end.
Proof.
  unfold pago_aprobado, ejecutar_update.
  destruct (storage_error svc UPDATE_estado db2); [done|].
  repeat case_match; simplify_eq; split; eauto.
Qed.

(** The route after the [INSERT], answer by answer of [confirm_seats]
    and of the [UPDATE]. *)
Lemma pago_confirmar_exacto cfg now db ses fila email nombre brand last4 auth
    seats sel total db1 trx db2 r :
  insert_transaccion (storage_error svc INSERT_transaccion db) db fila = Ok (db1, trx) →
  Store.confirm_seats (storage_error svc CONFIRM_seats db1)
    (hold_token ses) (showkey sel) (or_None email) trx now db1 = (db2, r) →
  let '(db', ses', out) :=
    pago_confirmar svc cfg now db ses fila email nombre brand last4 auth seats sel total in
  match r, storage_error svc UPDATE_estado db2 with
  | Ok (s :: l), None =>
      db' = update_estado db2 "APROBADO" trx ∧
      ((ses' = limpiar_sesion ses ∧
        out = Returned (pago_ok_html trx (s :: l) total brand last4 auth)) ∨
       (ses' = ses ∧ ∃ e, out = Raised e))
  | Ok [], None =>
      db' = update_estado db2 "RECHAZADA" trx ∧
      ses' = flash "Tus asientos ya no estaban retenidos. Por favor, volvé a elegirlos."
               "warning" ses ∧
      out = Returned (pago_html
              ["Los asientos se liberaron por tiempo. Volvé a seleccionarlos."%string]
              seats total (Some (url_for svc "venta.reserva_asientos")))
  | Raise (ValueError msg), None =>
      db' = update_estado db2 "RECHAZADA" trx ∧
      ses' = flash msg "danger" ses ∧
      out = Returned (pago_html [msg] seats total
                        (Some (url_for svc "venta.reserva_asientos")))
  | Ok _, Some e | Raise (ValueError _), Some e => db' = db2 ∧ ses' = ses ∧ out = Raised e
  | Raise e, _ => db' = db2 ∧ ses' = ses ∧ out = Raised e
  end.
Proof.
  intros Hi Hc. unfold pago_confirmar. rewrite Hi, Hc.
  destruct r as [[|s l]|e]; cbn [Py.is_nil].
  - unfold ejecutar_update. by destruct (storage_error svc UPDATE_estado db2).
  - pose proof (pago_aprobado_spec cfg db2 ses trx email nombre brand last4 auth (s :: l) total) as H.
    destruct (pago_aprobado _ _ _ _ _ _ _ _ _ _ _) as [[db' ses'] out].
    by destruct (storage_error svc UPDATE_estado db2).
  - unfold ejecutar_update.
    destruct e; destruct (storage_error svc UPDATE_estado db2); done.
Qed.

Lemma pago_confirmar_spec cfg now db ses fila email nombre brand last4 auth seats sel total :
  (∃ e, pago_confirmar svc cfg now db ses fila email nombre brand last4 auth seats sel total
        = (db, ses, Raised e)) ∨
  ∃ db2 r,
    Store.confirm_seats (storage_error svc CONFIRM_seats (con_fila db (fila (next_id db))))
      (hold_token ses) (showkey sel) (or_None email)
      (next_id db) now (con_fila db (fila (next_id db))) = (db2, r) ∧
    let '(db', ses', out) :=
      pago_confirmar svc cfg now db ses fila email nombre brand last4 auth seats sel total in
    desenlace db ses db2 r seats total db' ses' out.
Proof.
  destruct (insert_transaccion (storage_error svc INSERT_transaccion db) db fila)
    as [[db1 trx]|e] eqn:Hi.
  2: { left. exists e. unfold pago_confirmar. by rewrite Hi. }
  right. destruct (insert_transaccion_ok _ _ _ _ _ Hi) as [-> ->].
  destruct (Store.confirm_seats (storage_error svc CONFIRM_seats _) (hold_token ses)
              (showkey sel) (or_None email) (next_id db) now _) as [db2 r] eqn:Hc.
  exists db2, r. split; [reflexivity|].
  pose proof (pago_confirmar_exacto cfg now db ses fila email nombre brand last4 auth
                seats sel total _ _ _ _ Hi Hc) as H.
  destruct (pago_confirmar _ _ _ _ _ _ _ _ _ _ _ _ _) as [[db' ses'] out].
  destruct r as [[|s l]|e]; cbn [desenlace].
  - destruct (storage_error svc UPDATE_estado db2).
    + right. destruct H as (-> & -> & ->). eauto.
    + left. destruct H as (-> & -> & ->).
      split; [done|]. split; [apply same_selection_flash|eauto].
  - destruct (storage_error svc UPDATE_estado db2).
    + right. destruct H as (-> & -> & ->). eauto.
    + left. destruct H as [-> [[-> ->]|[-> ?]]]; split; eauto 10.
  - destruct e; try (by destruct (storage_error svc UPDATE_estado db2)).
    destruct (storage_error svc UPDATE_estado db2).
    + right. destruct H as (-> & -> & ->). eauto.
    + left. destruct H as (-> & -> & ->).
      split; [done|]. split; [apply same_selection_flash|eauto].
Qed.

Lemma calcular_components cfg ses te tc total cs ss sel :
  _calcular_totales_server_side svc cfg ses = Ok (te, tc, total, cs, ss, sel) →
  cs = _combos_from_session svc ses ∧ ss = _seats_from_session ses ∧
  sel = _seleccion_from_session ses ∧
  (total = Dec.NaN ∨ ∃ c, total = Dec.Finite c (-2) ∧ Z.abs c < 10 ^ Dec.prec).
Proof.
  unfold _calcular_totales_server_side. intros H.
  repeat match type of H with
  | bind ?m _ = _ => destruct m eqn:?; cbn [bind] in H; [|discriminate]
  end.
  injection H as <- <- <- <- <- <-. do 3 (split; [reflexivity|]).
  match goal with H : Dec.quantize _ TWO _ = Ok _ |- _ =>
    destruct (quantize_two_result _ _ H) as [[_ ->]|?]; eauto end.
Qed.

(** Every run of the POST branch: either it stops at a check or at the
    [INSERT], leaving the database and the selection in the session as
    they were, or it inserts a PENDIENTE row carrying the server-side
    amount and ends as [desenlace] says. *)
Lemma pago_post_spec cfg now form db ses :
  let '(db', ses', out) := pago_post svc cfg now form db ses in
  (db' = db ∧ same_selection ses ses' ∧ not_approved out) ∨
  ∃ te tc total cs ss sel fila db2 r,
    _calcular_totales_server_side svc cfg ses = Ok (te, tc, total, cs, ss, sel) ∧
    validar_tarjeta svc (strip (form_get form "email"))
      (Py.str (Py.remove_char " " (Py.chars (form_get form "pan"))))
      (strip (form_get form "nombre_tarjeta")) (strip (form_get form "exp_mes"))
      (strip (form_get form "exp_anio")) (strip (form_get form "cvv"))
      (format_2f svc total) = [] ∧
    (∀ id, trx_id (fila id) = id ∧ estado (fila id) = "PENDIENTE"%string ∧
           monto_cents_de total = Ok (monto_cents (fila id))) ∧
    Store.confirm_seats (storage_error svc CONFIRM_seats (con_fila db (fila (next_id db))))
      (hold_token ses) (showkey sel)
      (usuario_email (fila (next_id db)))
      (next_id db) now (con_fila db (fila (next_id db))) = (db2, r) ∧
    desenlace db ses db2 r ss total db' ses' out.
Proof.
  unfold pago_post.
  destruct (_calcular_totales_server_side svc cfg ses)
    as [[[[[[te tc] total] cs] ss] sel]|e] eqn:Hcalc; [|left; done].
  destruct (Py.is_nil ss || bool_decide (sel = ∅));
    [left; split; [done|]; split; [apply same_selection_flash|done]|].
  match goal with |- context [validar_tarjeta svc ?a ?b ?c ?d ?e ?f ?g] =>
    destruct (validar_tarjeta svc a b c d e f g) as [|err errs] eqn:Hval end;
    cbn [Py.is_nil negb]; [|left; done].
  destruct (monto_cents_de total) as [monto|e] eqn:Hm; [|left; done].
  destruct (int_or_None (strip (form_get form "exp_mes"))) as [mes|e]; [|left; done].
  destruct (int_or_None (strip (form_get form "exp_anio"))) as [anio|e]; [|left; done].
  match goal with |- context [pago_confirmar svc cfg now db ses ?f ?a ?b ?c ?d ?e ?g ?h ?i] =>
    destruct (pago_confirmar_spec cfg now db ses f a b c d e g h i)
      as [[e0 ->]|(db2 & r & Hc & Hd)]; [left; done|];
    destruct (pago_confirmar svc cfg now db ses f a b c d e g h i) as [[db' ses'] out];
    right; exists te, tc, total, cs, ss, sel, f, db2, r
  end.
  split; [reflexivity|]. split; [done|]. split; [done|]. split; [exact Hc|exact Hd].
Qed.

(** A request that reaches the [INSERT] goes on as [pago_confirmar] with
    the row of [fila_de]. *)
Lemma pago_post_llega cfg now form db ses total monto mes anio :
  llega_al_insert svc cfg form ses total monto mes anio →
  pago_post svc cfg now form db ses =
    let pan := Py.str (Py.remove_char " " (Py.chars (form_get form "pan"))) in
    let last4 := Py.str (Py.last_n 4 (Py.chars pan)) in
    pago_confirmar svc cfg now db ses (fila_de svc now form monto mes anio)
      (strip (form_get form "email")) (strip (form_get form "nombre_tarjeta"))
      (detectar_brand svc pan) last4
      ("APP-" ++ last4 ++ "-" ++ strftime svc "%H%M%S" now)%string
      (_seats_from_session ses) (_seleccion_from_session ses) total.
Proof.
  intros ((te & tc & cs & Hcalc) & Hs & Hsel & Hval & Hm & Hmes & Hanio).
  unfold pago_post. rewrite Hcalc.
  destruct (_seats_from_session ses) as [|s ss] eqn:Hss; [done|]. cbn [Py.is_nil orb].
  rewrite (bool_decide_eq_false_2 _ Hsel), Hval. cbn [Py.is_nil negb].
  rewrite Hm, Hmes, Hanio. reflexivity.
Qed.

Lemma find_trx_fresh l n :
  (∀ t, t ∈ l → trx_id t < n) → find (fun t => trx_id t =? n) l = None.
Proof.
  induction l as [|x l IH]; intros H; [reflexivity|]. simpl.
  destruct (Z.eqb_spec (trx_id x) n) as [E|].
  - specialize (H x ltac:(by left)). lia.
  - apply IH. intros t Ht. apply H. by right.
Qed.

Lemma lookup_trx_fresh db : lookup_trx db (next_id db) = None.
Proof. apply find_trx_fresh, next_id_fresh. Qed.

Lemma find_trx_snoc l row n :
  find (fun t => trx_id t =? n) l = None → trx_id row = n →
  find (fun t => trx_id t =? n) (l ++ [row]) = Some row.
Proof.
  intros Hn <-. induction l as [|x l IH]; simpl in *.
  - by rewrite Z.eqb_refl.
  - destruct (trx_id x =? trx_id row); [discriminate|]. by apply IH.
Qed.

Lemma lookup_trx_nueva db db' row :
  transacciones db' = transacciones db ++ [row] → trx_id row = next_id db →
  lookup_trx db' (next_id db) = Some row.
Proof.
  intros Htr Hid. unfold lookup_trx. rewrite Htr.
  apply find_trx_snoc; [apply lookup_trx_fresh|done].
Qed.


(** [confirm_seats] leaves the table of transactions as it is. *)
Lemma confirm_seats_transacciones falla tk k em trx now db db2 r :
  Store.confirm_seats falla tk k em trx now db = (db2, r) →
  transacciones db2 = transacciones db.
Proof.
  intros Hc. destruct (confirm_seats_cases _ _ _ _ _ _ _ _ _ Hc) as [[-> _]|H]; [done|].
  destruct H as (? & ? & _ & _ & _ & _ & _ & _ & H & _). exact H.
Qed.

(** The database after a request that reached the [INSERT] and whose
    [INSERT] went through, given what [confirm_seats] answered. *)
Lemma pago_llega_db cfg now form db ses total monto mes anio db1 trx db2 r :
  llega_al_insert svc cfg form ses total monto mes anio →
  insert_transaccion (storage_error svc INSERT_transaccion db) db
    (fila_de svc now form monto mes anio) = Ok (db1, trx) →
  Store.confirm_seats (storage_error svc CONFIRM_seats db1) (hold_token ses)
    (showkey (_seleccion_from_session ses)) (or_None (strip (form_get form "email")))
    trx now db1 = (db2, r) →
  let db' := (pago_post svc cfg now form db ses).1.1 in
  transacciones db' =
    transacciones db ++
      [set_estado (estado_final (storage_error svc UPDATE_estado db2) r)
         (fila_de svc now form monto mes anio trx)] ∧
  seat_holds db' = seat_holds db2 ∧ reservas db' = reservas db2.
Proof.
  intros Hl Hi Hc. cbv zeta.
  rewrite (pago_post_llega cfg now form db ses _ _ _ _ Hl). cbv zeta.
  match goal with |- context [pago_confirmar svc cfg now db ses ?f ?a ?b ?c ?d ?e ?g ?h ?i] =>
    pose proof (pago_confirmar_exacto cfg now db ses f a b c d e g h i _ _ _ _ Hi Hc) as H;
    destruct (pago_confirmar svc cfg now db ses f a b c d e g h i) as [[db' ses'] out]
  end.
  cbn [fst].
  destruct (insert_transaccion_ok _ _ _ _ _ Hi) as [-> ->].
  pose proof (confirm_seats_transacciones _ _ _ _ _ _ _ _ _ Hc) as Htr.
  set (fila := fila_de svc now form monto mes anio) in *.
  assert (Hid : ∀ id, trx_id (fila id) = id) by reflexivity.
  assert (Hup : ∀ st, transacciones (update_estado db2 st (next_id db))
                      = transacciones db ++ [set_estado st (fila (next_id db))])
    by (intros st; by apply update_estado_insertada).
  assert (Hpe : transacciones db2
                = transacciones db ++ [set_estado "PENDIENTE" (fila (next_id db))])
    by (rewrite Htr; reflexivity).
  unfold estado_final.
  destruct r as [[|s l]|e]; [| |destruct e];
    destruct (storage_error svc UPDATE_estado db2); cbn [veredicto];
    destruct H as (-> & _); first [by split; [apply Hup|] | by split; [apply Hpe|]].
Qed.

(** Whether a request reaches the [INSERT]. *)
Lemma pago_post_llega_o_no cfg now form db ses :
  (∃ total monto mes anio, llega_al_insert svc cfg form ses total monto mes anio) ∨
  (let '(db', ses', out) := pago_post svc cfg now form db ses in
   db' = db ∧ same_selection ses ses' ∧ not_approved out).
Proof.
  unfold pago_post.
  destruct (_calcular_totales_server_side svc cfg ses)
    as [[[[[[te tc] total] cs] ss] sel]|e] eqn:Hcalc; [|by right].
  destruct (calcular_components _ _ _ _ _ _ _ _ Hcalc) as (-> & -> & -> & _).
  destruct (Py.is_nil _ || bool_decide _) eqn:Hsel;
    [right; split; [done|]; split; [apply same_selection_flash|done]|].
  apply orb_false_iff in Hsel as [Hs Hsel]. apply bool_decide_eq_false in Hsel.
  match goal with |- context [validar_tarjeta svc ?a ?b ?c ?d ?e ?f ?g] =>
    destruct (validar_tarjeta svc a b c d e f g) as [|err errs] eqn:Hval end;
    cbn [Py.is_nil negb]; [|by right].
  destruct (monto_cents_de total) as [monto|e] eqn:Hm; [|by right].
  destruct (int_or_None (strip (form_get form "exp_mes"))) as [mes|e] eqn:Hmes; [|by right].
  destruct (int_or_None (strip (form_get form "exp_anio"))) as [anio|e] eqn:Hanio; [|by right].
  left. exists total, monto, mes, anio.
  split; [eauto|]. split; [by destruct (_seats_from_session ses)|]. done.
Qed.

(** A request that does not reach the [INSERT] stops at a check. *)
Lemma pago_post_no_llega cfg now form db ses :
  (¬ ∃ total monto mes anio, llega_al_insert svc cfg form ses total monto mes anio) →
  let '(db', ses', out) := pago_post svc cfg now form db ses in
  db' = db ∧ same_selection ses ses' ∧ not_approved out.
Proof.
  intros Hno. by destruct (pago_post_llega_o_no cfg now form db ses) as [Hl|H].
Qed.

(** The row that a request leaves under the next id. *)
Lemma fila_nueva_exacta cfg now form db ses t :
  lookup_trx (pago_post svc cfg now form db ses).1.1 (next_id db) = Some t →
  ∃ total monto mes anio db2 r,
    llega_al_insert svc cfg form ses total monto mes anio ∧
    Store.confirm_seats
      (storage_error svc CONFIRM_seats
         (con_fila db (fila_de svc now form monto mes anio (next_id db))))
      (hold_token ses) (showkey (_seleccion_from_session ses))
      (or_None (strip (form_get form "email"))) (next_id db) now
      (con_fila db (fila_de svc now form monto mes anio (next_id db))) = (db2, r) ∧
    t = set_estado (estado_final (storage_error svc UPDATE_estado db2) r)
          (fila_de svc now form monto mes anio (next_id db)).
Proof.
  intros Ht.
  destruct (pago_post_llega_o_no cfg now form db ses) as [(total & monto & mes & anio & Hl)|H].
  2: { destruct (pago_post svc cfg now form db ses) as [[db' ses'] out].
       destruct H as (-> & _). cbn [fst] in Ht. by rewrite lookup_trx_fresh in Ht. }
  destruct (insert_transaccion (storage_error svc INSERT_transaccion db) db
              (fila_de svc now form monto mes anio)) as [[db1 trx]|e] eqn:Hi.
  2: { rewrite (pago_post_llega cfg now form db ses _ _ _ _ Hl) in Ht. cbv zeta in Ht.
       unfold pago_confirmar in Ht. rewrite Hi in Ht. cbn [fst] in Ht.
       by rewrite lookup_trx_fresh in Ht. }
  destruct (insert_transaccion_ok _ _ _ _ _ Hi) as [-> ->].
  destruct (Store.confirm_seats
      (storage_error svc CONFIRM_seats
         (con_fila db (fila_de svc now form monto mes anio (next_id db))))
      (hold_token ses) (showkey (_seleccion_from_session ses))
      (or_None (strip (form_get form "email"))) (next_id db) now
      (con_fila db (fila_de svc now form monto mes anio (next_id db)))) as [db2 r] eqn:Hc.
  destruct (pago_llega_db cfg now form db ses _ _ _ _ _ _ _ _ Hl Hi Hc) as (Htr & _).
  rewrite (lookup_trx_nueva _ _ _ Htr eq_refl) in Ht. injection Ht as <-.
  exists total, monto, mes, anio, db2, r. done.
Qed.

(** The table of transactions after a request that got past the checks. *)
Lemma desenlace_transacciones db ses fila db2 r ss total db' ses' out falla tk k em now :
  (∀ id, trx_id (fila id) = id) →
  estado (fila (next_id db)) = "PENDIENTE"%string →
  Store.confirm_seats falla tk k em (next_id db) now (con_fila db (fila (next_id db)))
    = (db2, r) →
  desenlace db ses db2 r ss total db' ses' out →
  ∃ st, transacciones db' = transacciones db ++ [set_estado st (fila (next_id db))].
Proof.
  intros Hid Hpe Hc Hd.
  pose proof (confirm_seats_transacciones _ _ _ _ _ _ _ _ _ Hc) as Htr.
  assert (Hdb2 : transacciones db2
                 = transacciones db ++ [set_estado "PENDIENTE" (fila (next_id db))])
    by (rewrite Htr, <- Hpe, set_estado_same; reflexivity).
  destruct r as [[|s l]|e]; [| |destruct e]; cbn [desenlace] in Hd;
    first
      [ destruct Hd as [[-> _]|[-> _]];
        [eexists; by apply update_estado_insertada|eexists; exact Hdb2]
      | destruct Hd as [-> _]; eexists; exact Hdb2 ].
Qed.

End Handler.

(** ** Claims about the server-side totals *)

(** C5 (as amended).  Whenever every step of the computation stays within
    the 28 digits of the decimal context ([within_context]), the function
    returns, and the numbers it returns are: the entradas subtotal, the
    ticket price times the seat count rounded half-up to two decimals;
    the combos subtotal, the sum of the selected combo prices rounded
    half-up to two decimals; and the total, their sum rounded half-up to
    two decimals again.  These three roundings are not one rounding of the
    raw sum: the second part exhibits a selection on which the two differ. *)
Theorem totals_three_roundings :
  (∀ svc cfg ses,
      within_context svc cfg ses = true →
      ∃ te tc total,
        _calcular_totales_server_side svc cfg ses
          = Ok (te, tc, total, _combos_from_session svc ses,
                _seats_from_session ses, _seleccion_from_session ses) ∧
        let price := Quote.value (_precio_entrada cfg) in
        let n := Z.of_nat (length (_seats_from_session ses)) in
        let prices := map Quote.precio (_combos_from_session svc ses) in
        (Quote.value te == Quote.entradas price n)%Q ∧
        (Quote.value tc == Quote.combos_subtotal prices)%Q ∧
        (Quote.value total == Quote.total price n prices)%Q) ∧
  (∃ svc cfg ses te tc total,
      within_context svc cfg ses = true ∧
      _calcular_totales_server_side svc cfg ses
        = Ok (te, tc, total, _combos_from_session svc ses,
              _seats_from_session ses, _seleccion_from_session ses) ∧
      ¬ (Quote.value total ==
           Quote.single_rounding (Quote.value (_precio_entrada cfg))
             (Z.of_nat (length (_seats_from_session ses)))
             (map Quote.precio (_combos_from_session svc ses)))%Q).
Proof.
  split; [exact totals_within_context|].
  exists Escenario.servicios, (Escenario.config "0.005"),
         (Escenario.sesion ["C7"%string] [3]).
  do 3 eexists. split; [vm_compute; reflexivity|].
  split; [vm_compute; reflexivity|].
  vm_compute. discriminate.
Qed.

Lemma totals_three_roundings_witness :
  within_context Escenario.servicios (Escenario.config "5000")
    (Escenario.sesion ["C7"; "C8"]%string [1]) = true ∧
  ∃ te tc total,
    _calcular_totales_server_side Escenario.servicios (Escenario.config "5000")
      (Escenario.sesion ["C7"; "C8"]%string [1])
      = Ok (te, tc, total,
            _combos_from_session Escenario.servicios (Escenario.sesion ["C7"; "C8"]%string [1]),
            ["C7"; "C8"]%string, Escenario.funcion) ∧
    (Quote.value total ==
       Quote.total (Quote.value (Dec.Finite 5000 0)) 2
         (map Quote.precio
            (_combos_from_session Escenario.servicios
               (Escenario.sesion ["C7"; "C8"]%string [1%Z]))))%Q.
Proof.
  split; [vm_compute; reflexivity|].
  destruct (proj1 totals_three_roundings Escenario.servicios (Escenario.config "5000")
              (Escenario.sesion ["C7"; "C8"]%string [1]) ltac:(vm_compute; reflexivity))
    as (te & tc & total & Hc & _ & _ & Ht).
  exists te, tc, total. split; [exact Hc|exact Ht].
Defined.

(** C5, the claim as first stated, fails on a price of 29 significant
    digits just under half a cent: the product by the seat count is first
    rounded to the 28 digits of the context, which lifts it to exactly
    half a cent, and the quantization then rounds that up.  The route
    charges one cent where rounding the exact product half-up gives zero. *)
Lemma context_rounding_changes_total :
  let cfg := Escenario.config "0.0049999999999999999999999999999" in
  let ses := Escenario.sesion ["C7"%string] [] in
  _calcular_totales_server_side Escenario.servicios cfg ses
    = Ok (Dec.Finite 1 (-2), Dec.Finite 0 (-2), Dec.Finite 1 (-2),
          [], ["C7"%string], Escenario.funcion) ∧
  (Quote.total (Quote.value (_precio_entrada cfg)) 1 [] == 0)%Q ∧
  ¬ (Quote.value (Dec.Finite 1 (-2)) == 0)%Q.
Proof.
  cbv zeta. split; [vm_compute; reflexivity|].
  split; [vm_compute; reflexivity|]. vm_compute. discriminate.
Qed.

(** ** Claims about the payment route *)

(** C2 (as amended).  Take a POST that reaches the [INSERT], whose
    [INSERT] succeeds, and let [r] be what [confirm_seats] answers on the
    database that holds the new row.  That answer is the failure of the
    storage layer if there is one; otherwise no seat when the session's
    token has no live hold of the showtime, a [ValueError] when a seat of
    the hold is already in the ledger, and the seats of the hold
    otherwise.  The request leaves the table with exactly one more row,
    the inserted one, and holds and ledger as [confirm_seats] left them:
    on seats, exactly the seats of the hold are in the ledger under this
    transaction and the hold is released, and the row is written
    APROBADO;
    on no seat or a [ValueError], the ledger is as it was, the row is
    written RECHAZADA and the failure page is returned;
    on any other exception, holds and ledger are as they were, the row
    stays PENDIENTE and the exception leaves the route.
    When the storage layer refuses the [UPDATE] that writes the state,
    its exception leaves the route and the row stays PENDIENTE, also
    with the seats already in the ledger. *)
Theorem confirm_ends_terminal svc cfg now form db ses total monto mes anio db1 trx db2 r :
  llega_al_insert svc cfg form ses total monto mes anio →
  insert_transaccion (storage_error svc INSERT_transaccion db) db
    (fila_de svc now form monto mes anio) = Ok (db1, trx) →
  Store.confirm_seats (storage_error svc CONFIRM_seats db1) (hold_token ses)
    (showkey (_seleccion_from_session ses)) (or_None (strip (form_get form "email")))
    trx now db1 = (db2, r) →
  let k := showkey (_seleccion_from_session ses) in
  let fu := storage_error svc UPDATE_estado db2 in
  let '(db', ses', out) := pago svc cfg now POST form db ses in
  match storage_error svc CONFIRM_seats db1 with
  | Some e => r = Raise e
  | None =>
      match hold_vivo now db (hold_token ses) k with
      | None => r = Ok []
      | Some h =>
          if decide (h_seats h ## Store.seats_confirmed db k)
          then r = Ok (elements (h_seats h))
          else ∃ msg, r = Raise (ValueError msg)
      end
  end ∧
  transacciones db' =
    transacciones db ++
      [set_estado (estado_final fu r) (fila_de svc now form monto mes anio trx)] ∧
  estado <$> lookup_trx db' trx = Some (estado_final fu r) ∧
  seat_holds db' = seat_holds db2 ∧ reservas db' = reservas db2 ∧
  match r with
  | Ok (s :: l) =>
      (∃ tk h,
          hold_token ses = Some tk ∧ hold_vivo now db (Some tk) k = Some h ∧
          s :: l = elements (h_seats h) ∧
          seat_holds db2 = delete tk (seat_holds db) ∧
          reservas db2 = reservas db ++
            map (fun x => {| r_key := k; r_seat := x; r_trx := trx;
                             r_email := or_None (strip (form_get form "email"));
                             r_confirmed_at := now |})
                (elements (h_seats h))) ∧
      match fu with
      | None =>
          (ses' = limpiar_sesion ses ∧
           ∃ b l4 a, out = Returned (pago_ok_html trx (s :: l) total b l4 a)) ∨
          (ses' = ses ∧ ∃ e, out = Raised e)
      | Some e => ses' = ses ∧ out = Raised e
      end
  | Ok [] =>
      reservas db2 = reservas db ∧
      match fu with
      | None =>
          out = Returned (pago_html
                  ["Los asientos se liberaron por tiempo. Volvé a seleccionarlos."%string]
                  (_seats_from_session ses) total
                  (Some (url_for svc "venta.reserva_asientos")))
      | Some e => ses' = ses ∧ out = Raised e
      end
  | Raise (ValueError msg) =>
      reservas db2 = reservas db ∧ seat_holds db2 = seat_holds db ∧
      match fu with
      | None =>
          out = Returned (pago_html [msg] (_seats_from_session ses) total
                            (Some (url_for svc "venta.reserva_asientos")))
      | Some e => ses' = ses ∧ out = Raised e
      end
  | Raise e =>
      reservas db2 = reservas db ∧ seat_holds db2 = seat_holds db ∧
      ses' = ses ∧ out = Raised e
  end.
Proof.
  intros Hl Hi Hc k fu. cbn [pago].
  pose proof (pago_llega_db svc cfg now form db ses _ _ _ _ _ _ _ _ Hl Hi Hc) as Hdb.
  cbv zeta in Hdb. fold fu in Hdb.
  rewrite (pago_post_llega svc cfg now form db ses _ _ _ _ Hl) in Hdb |- *.
  cbv zeta in Hdb |- *.
  match goal with |- context [pago_confirmar svc cfg now db ses ?f ?a ?b ?c ?d ?e ?g ?h ?i] =>
    pose proof (pago_confirmar_exacto svc cfg now db ses f a b c d e g h i _ _ _ _ Hi Hc) as H;
    destruct (pago_confirmar svc cfg now db ses f a b c d e g h i) as [[db' ses'] out]
  end.
  cbn [fst] in Hdb. destruct Hdb as (Htr & Hho & Hre). fold fu in H.
  destruct (insert_transaccion_ok _ _ _ _ _ Hi) as [-> ->].
  pose proof (confirm_seats_answer _ _ _ _ _ _ _ _ _ Hc) as Ha.
  pose proof (confirm_seats_cases _ _ _ _ _ _ _ _ _ Hc) as Hcases.
  split; [exact Ha|]. split; [exact Htr|].
  split; [by rewrite (lookup_trx_nueva _ _ _ Htr eq_refl)|].
  split; [exact Hho|]. split; [exact Hre|].
  clear Htr Hho Hre Ha.
  destruct r as [[|s l]|e].
  - split.
    + destruct Hcases as [[-> _]|(tk & h & _ & _ & _ & _ & _ & Hel & _ & _ & Hres)]; [done|].
      injection Hel as Hel. rewrite Hres, <- Hel. cbn. by rewrite app_nil_r.
    + destruct fu; [tauto|]. apply H.
  - split.
    + destruct Hcases
        as [[_ [?|[? ?]]]|(tk & h & Htk & Hh & Hlive & Hk & _ & Hel & _ & Hho & Hres)];
        [done|done|].
      exists tk, h. split; [exact Htk|]. injection Hel as Hel.
      split; [|split; [exact Hel|split; [exact Hho|exact Hres]]].
      unfold hold_vivo. cbn [con_fila seat_holds] in Hh. rewrite Hh, Hlive.
      by rewrite (bool_decide_eq_true_2 _ Hk).
    + destruct fu; [tauto|]. destruct H as (_ & [[-> ->]|[-> ?]]); eauto 10.
  - assert (Hdb2 : db2 = con_fila db (fila_de svc now form monto mes anio (next_id db))).
    { destruct Hcases as [[-> _]|(? & ? & _ & _ & _ & _ & _ & ? & _)]; done. }
    rewrite Hdb2. cbn [con_fila reservas seat_holds].
    destruct e; try (destruct H as (_ & -> & ->); done).
    do 2 (split; [reflexivity|]). destruct fu; [tauto|]. apply H.
Qed.

Lemma confirm_ends_terminal_witness :
  let r :=
    pago Escenario.servicios (Escenario.config "5000") 1200 POST
      (Escenario.form_tarjeta "1.00") Escenario.db_con_hold
      (Escenario.sesion ["C7"; "C8"]%string [1]) in
  estado <$> lookup_trx r.1.1 1 = Some "APROBADO"%string ∧
  length (reservas r.1.1) = 2%nat ∧
  seat_holds r.1.1 = delete "tok-1"%string (seat_holds Escenario.db_con_hold).
Proof.
  cbv zeta.
  assert (Hl : llega_al_insert Escenario.servicios (Escenario.config "5000")
                 (Escenario.form_tarjeta "1.00")
                 (Escenario.sesion ["C7"; "C8"]%string [1])
                 (Dec.Finite 1150000 (-2)) 1150000 (Some 12) (Some 2030)).
  { split; [do 3 eexists; vm_compute; reflexivity|].
    split; [vm_compute; discriminate|].
    split; [intros Hs; apply (f_equal (fun m => m !! "id"%string)) in Hs;
            vm_compute in Hs; discriminate Hs|].
    repeat split; vm_compute; reflexivity. }
  destruct (Store.confirm_seats
              (storage_error Escenario.servicios CONFIRM_seats
                 (con_fila Escenario.db_con_hold
                    (fila_de Escenario.servicios 1200 (Escenario.form_tarjeta "1.00")
                       1150000 (Some 12) (Some 2030) 1)))
              (hold_token (Escenario.sesion ["C7"; "C8"]%string [1]))
              (showkey (_seleccion_from_session (Escenario.sesion ["C7"; "C8"]%string [1])))
              (or_None (strip (form_get (Escenario.form_tarjeta "1.00") "email")))
              1 1200
              (con_fila Escenario.db_con_hold
                 (fila_de Escenario.servicios 1200 (Escenario.form_tarjeta "1.00")
                    1150000 (Some 12) (Some 2030) 1))) as [db2 r] eqn:Hc.
  pose proof (confirm_ends_terminal Escenario.servicios (Escenario.config "5000") 1200
    (Escenario.form_tarjeta "1.00") Escenario.db_con_hold
    (Escenario.sesion ["C7"; "C8"]%string [1])
    (Dec.Finite 1150000 (-2)) 1150000 (Some 12) (Some 2030)
    (con_fila Escenario.db_con_hold
       (fila_de Escenario.servicios 1200 (Escenario.form_tarjeta "1.00")
          1150000 (Some 12) (Some 2030) 1)) 1) as H.
  specialize (H db2 r Hl ltac:(vm_compute; reflexivity) Hc).
  assert (Hr : ∃ s l, r = Ok (s :: l)).
  { vm_compute in Hc. injection Hc as _ <-. eauto. }
  destruct Hr as (s & l & ->). cbv zeta in H.
  destruct (pago _ _ _ _ _ _ _) as [[db' ses'] out].
  destruct H as (_ & _ & Hst & Hho & Hre & (tk & h & Htk & Hh & _ & Hho2 & Hres) & _).
  cbn [fst]. split; [exact Hst|]. injection Htk as <-.
  vm_compute in Hh. injection Hh as <-.
  split; [rewrite Hre, Hres; vm_compute; reflexivity|by rewrite Hho].
Defined.

(** C2, the claim as first stated, fails when the storage layer fails
    after the [INSERT].  When [confirm_seats] raises anything but
    [ValueError], the one exception that the route catches around it, as
    with the database locked by another connection, the exception leaves
    the route and the transaction of this attempt stays PENDIENTE, with
    no seat committed and the hold in place.  When the [UPDATE] that
    writes APROBADO is refused, the exception leaves the route with both
    seats of the hold already in the ledger under a transaction that is
    still PENDIENTE. *)
Lemma storage_failure_leaves_pending :
  let r1 :=
    pago servicios_db_bloqueada (Escenario.config "5000") 1200 POST
      (Escenario.form_tarjeta "1.00") Escenario.db_con_hold
      (Escenario.sesion ["C7"; "C8"]%string [1]) in
  let r2 :=
    pago servicios_update_bloqueado (Escenario.config "5000") 1200 POST
      (Escenario.form_tarjeta "1.00") Escenario.db_con_hold
      (Escenario.sesion ["C7"; "C8"]%string [1]) in
  (r1.2 = Raised (OperationalError "database is locked") ∧
   estado <$> lookup_trx r1.1.1 1 = Some "PENDIENTE"%string ∧
   reservas r1.1.1 = [] ∧
   seat_holds r1.1.1 = seat_holds Escenario.db_con_hold) ∧
  (r2.2 = Raised (OperationalError "database is locked") ∧
   estado <$> lookup_trx r2.1.1 1 = Some "PENDIENTE"%string ∧
   map (fun x => (r_seat x, r_trx x)) (reservas r2.1.1) = [("C7"%string, 1); ("C8"%string, 1)]).
Proof. cbv zeta. repeat split; vm_compute; reflexivity. Qed.


(** C4 (as amended).  A POST that does not reach the [INSERT] (no
    selection, card validation errors, an amount or a date that does not
    convert) persists nothing and approves nothing.  A POST that reaches
    it either fails in the [INSERT], and then persists nothing and the
    exception leaves the route, or stores its transaction first, as
    PENDIENTE with the server-side amount, under the next id, with holds
    and ledger as before the request: [confirm_seats] runs on that
    database, and whatever it answers, the row stays in the table, in the
    state that the answer decides: APROBADO on seats, RECHAZADA on no seat
    or a [ValueError], PENDIENTE on any other exception, and PENDIENTE
    too when the [UPDATE] that writes the state is refused. *)
Theorem transaction_pending_before_ledger svc cfg now form db ses :
  ((¬ ∃ total monto mes anio, llega_al_insert svc cfg form ses total monto mes anio) →
   let '(db', _, out) := pago svc cfg now POST form db ses in
   db' = db ∧ not_approved out) ∧
  (∀ total monto mes anio,
     llega_al_insert svc cfg form ses total monto mes anio →
     let fila := fila_de svc now form monto mes anio in
     match insert_transaccion (storage_error svc INSERT_transaccion db) db fila with
     | Raise e => pago svc cfg now POST form db ses = (db, ses, Raised e)
     | Ok (db1, trx) =>
         trx = next_id db ∧ db1 = con_fila db (fila trx) ∧
         lookup_trx db1 trx = Some (fila trx) ∧
         estado (fila trx) = "PENDIENTE"%string ∧ monto_cents (fila trx) = monto ∧
         seat_holds db1 = seat_holds db ∧ reservas db1 = reservas db ∧
         ∀ db2 r,
           Store.confirm_seats (storage_error svc CONFIRM_seats db1) (hold_token ses)
             (showkey (_seleccion_from_session ses))
             (or_None (strip (form_get form "email"))) trx now db1 = (db2, r) →
           let db' := (pago svc cfg now POST form db ses).1.1 in
           let st := estado_final (storage_error svc UPDATE_estado db2) r in
           transacciones db' = transacciones db ++ [set_estado st (fila trx)] ∧
           lookup_trx db' trx = Some (set_estado st (fila trx)) ∧
           seat_holds db' = seat_holds db2 ∧ reservas db' = reservas db2
     end).
Proof.
  split.
  { intros Hno. cbn [pago].
    pose proof (pago_post_no_llega svc cfg now form db ses Hno) as H.
    destruct (pago_post svc cfg now form db ses) as [[db' ses'] out]. tauto. }
  intros total monto mes anio Hl fila. cbn [pago].
  destruct (insert_transaccion (storage_error svc INSERT_transaccion db) db fila)
    as [[db1 trx]|e] eqn:Hi.
  2: { rewrite (pago_post_llega svc cfg now form db ses _ _ _ _ Hl). cbv zeta.
       unfold pago_confirmar. fold fila. by rewrite Hi. }
  destruct (insert_transaccion_ok _ _ _ _ _ Hi) as [-> ->].
  split; [reflexivity|]. split; [reflexivity|].
  split; [by apply (lookup_trx_nueva db (con_fila db (fila (next_id db))) (fila (next_id db)))|].
  do 4 (split; [reflexivity|]).
  intros db2 r Hc. cbv zeta.
  destruct (pago_llega_db svc cfg now form db ses _ _ _ _ _ _ _ _ Hl Hi Hc) as (Ht & Hh & Hr).
  split; [exact Ht|]. split; [|done].
  by apply (lookup_trx_nueva db).
Qed.

Lemma transaction_pending_before_ledger_witness :
  let fila :=
    fila_de Escenario.servicios 1200 (Escenario.form_tarjeta "1.00")
      1150000 (Some 12) (Some 2030) in
  let r :=
    pago Escenario.servicios (Escenario.config "5000") 1200 POST
      (Escenario.form_tarjeta "1.00") Escenario.db_con_hold
      (Escenario.sesion ["C7"; "C8"]%string [1]) in
  lookup_trx (con_fila Escenario.db_con_hold (fila 1)) 1 = Some (fila 1) ∧
  estado (fila 1) = "PENDIENTE"%string ∧ monto_cents (fila 1) = 1150000 ∧
  reservas (con_fila Escenario.db_con_hold (fila 1)) = [] ∧
  lookup_trx r.1.1 1 = Some (set_estado "APROBADO" (fila 1)).
Proof.
  cbv zeta.
  assert (Hl : llega_al_insert Escenario.servicios (Escenario.config "5000")
                 (Escenario.form_tarjeta "1.00")
                 (Escenario.sesion ["C7"; "C8"]%string [1])
                 (Dec.Finite 1150000 (-2)) 1150000 (Some 12) (Some 2030)).
  { split; [do 3 eexists; vm_compute; reflexivity|].
    split; [vm_compute; discriminate|].
    split; [intros Hs; apply (f_equal (fun m => m !! "id"%string)) in Hs;
            vm_compute in Hs; discriminate Hs|].
    repeat split; vm_compute; reflexivity. }
  pose proof (proj2 (transaction_pending_before_ledger Escenario.servicios
                       (Escenario.config "5000") 1200 (Escenario.form_tarjeta "1.00")
                       Escenario.db_con_hold (Escenario.sesion ["C7"; "C8"]%string [1]))
                _ _ _ _ Hl) as H.
  cbv zeta in H.
  change (insert_transaccion _ _ _)
    with (Ok (A := DB * Z)
            (con_fila Escenario.db_con_hold
               (fila_de Escenario.servicios 1200 (Escenario.form_tarjeta "1.00")
                  1150000 (Some 12) (Some 2030) 1), 1)) in H.
  destruct H as (_ & _ & Hlk & Hpe & Hmo & _ & Hre & Hfin).
  split; [exact Hlk|]. split; [exact Hpe|]. split; [exact Hmo|]. split; [exact Hre|].
  destruct (Store.confirm_seats
              (storage_error Escenario.servicios CONFIRM_seats
                 (con_fila Escenario.db_con_hold
                    (fila_de Escenario.servicios 1200 (Escenario.form_tarjeta "1.00")
                       1150000 (Some 12) (Some 2030) 1)))
              (hold_token (Escenario.sesion ["C7"; "C8"]%string [1]))
              (showkey (_seleccion_from_session (Escenario.sesion ["C7"; "C8"]%string [1])))
              (or_None (strip (form_get (Escenario.form_tarjeta "1.00") "email")))
              1 1200
              (con_fila Escenario.db_con_hold
                 (fila_de Escenario.servicios 1200 (Escenario.form_tarjeta "1.00")
                    1150000 (Some 12) (Some 2030) 1))) as [db2 r] eqn:Hc.
  destruct (Hfin db2 r eq_refl) as (_ & Hfinal & _).
  assert (Hr : ∃ s l, r = Ok (s :: l)).
  { vm_compute in Hc. injection Hc as _ <-. eauto. }
  destruct Hr as (s & l & ->). exact Hfinal.
Defined.

(** C4, the claim as first stated, fails on a request without a card
    number: the validator reports an error, the route returns the form
    with it, and the table of transactions is still empty, so there is no
    RECHAZADA row for this attempt. *)
Lemma validation_failure_persists_nothing :
  let r :=
    pago Escenario.servicios (Escenario.config "5000") 1200 POST
      Escenario.form_sin_tarjeta Escenario.db_con_hold
      (Escenario.sesion ["C7"; "C8"]%string [1]) in
  r.2 = Returned (pago_html ["Número de tarjeta inválido."%string]
                    ["C7"; "C8"]%string (Dec.Finite 1150000 (-2)) None) ∧
  transacciones r.1.1 = [].
Proof. cbv zeta. split; vm_compute; reflexivity. Qed.

(** On the table that the migration creates, the [INSERT] of the route
    is refused, and the attempt leaves no row at all. *)
Lemma insert_failure_persists_nothing :
  let r :=
    pago servicios_tabla_migrada (Escenario.config "5000") 1200 POST
      (Escenario.form_tarjeta "1.00") Escenario.db_con_hold
      (Escenario.sesion ["C7"; "C8"]%string [1]) in
  r.2 = Raised (IntegrityError "NOT NULL constraint failed: transacciones.total_pesos") ∧
  r.1.1 = Escenario.db_con_hold.
Proof. cbv zeta. split; vm_compute; reflexivity. Qed.

(** The row that a request adds carries the amount that the server computed. *)
Lemma fila_nueva_monto svc cfg now form db ses t :
  lookup_trx (pago svc cfg now POST form db ses).1.1 (next_id db) = Some t →
  ∃ te tc total cs ss sel,
    _calcular_totales_server_side svc cfg ses = Ok (te, tc, total, cs, ss, sel) ∧
    monto_cents_de total = Ok (monto_cents t).
Proof.
  cbn [pago]. pose proof (pago_post_spec svc cfg now form db ses) as H.
  destruct (pago_post svc cfg now form db ses) as [[db' ses'] out]. cbn [fst].
  intros Ht. destruct H as [(-> & _ & _)|H].
  { rewrite lookup_trx_fresh in Ht. discriminate. }
  destruct H as (te & tc & total & cs & ss & sel & fila & db2 & r & Hcalc & _ & Hfila & Hc & Hd).
  assert (Hid : ∀ id, trx_id (fila id) = id) by (intros id; apply Hfila).
  destruct (desenlace_transacciones _ _ _ _ _ _ _ _ _ _ _ _ _ _ _ Hid (proj1 (proj2 (Hfila _))) Hc Hd) as [st Htr].
  rewrite (lookup_trx_nueva _ _ _ Htr (Hid _)) in Ht. injection Ht as <-.
  exists te, tc, total, cs, ss, sel. split; [done|]. apply Hfila.
Qed.

(** C6.  Two POST requests with the same session and configuration
    persist the same [monto_cents], whatever their forms hold (and
    whatever the clock and the database are): the amount is computed from
    the session and the configuration alone. *)
Theorem monto_ignores_form svc cfg ses now1 now2 form1 form2 db1 db2 t1 t2 :
  lookup_trx (pago svc cfg now1 POST form1 db1 ses).1.1 (next_id db1) = Some t1 →
  lookup_trx (pago svc cfg now2 POST form2 db2 ses).1.1 (next_id db2) = Some t2 →
  monto_cents t1 = monto_cents t2.
Proof.
  intros H1 H2.
  destruct (fila_nueva_monto _ _ _ _ _ _ _ H1) as (? & ? & total1 & ? & ? & ? & Hc1 & Hm1).
  destruct (fila_nueva_monto _ _ _ _ _ _ _ H2) as (? & ? & total2 & ? & ? & ? & Hc2 & Hm2).
  rewrite Hc1 in Hc2. injection Hc2 as <- <- <- <- <- <-. congruence.
Qed.

Lemma monto_ignores_form_witness :
  ∃ t1 t2,
    lookup_trx
      (pago Escenario.servicios (Escenario.config "5000") 1200 POST
         (Escenario.form_tarjeta "1.00") Escenario.db_con_hold
         (Escenario.sesion ["C7"; "C8"]%string [1])).1.1
      (next_id Escenario.db_con_hold) = Some t1 ∧
    lookup_trx
      (pago Escenario.servicios (Escenario.config "5000") 1700 POST
         (Escenario.form_tarjeta "999999.99") Escenario.db_con_hold
         (Escenario.sesion ["C7"; "C8"]%string [1])).1.1
      (next_id Escenario.db_con_hold) = Some t2 ∧
    monto_cents t1 = 1150000 ∧ monto_cents t1 = monto_cents t2.
Proof.
  do 2 eexists. split; [vm_compute; reflexivity|]. split; [vm_compute; reflexivity|].
  split; [reflexivity|].
  eapply (monto_ignores_form Escenario.servicios (Escenario.config "5000")
            (Escenario.sesion ["C7"; "C8"]%string [1]) 1200 1700
            (Escenario.form_tarjeta "1.00") (Escenario.form_tarjeta "999999.99")
            Escenario.db_con_hold Escenario.db_con_hold);
    vm_compute; reflexivity.
Defined.

(** C8.  The session keys [seats], [hold_token] and [combos] are removed
    exactly when the route returns the approval page, whose transaction is
    then APROBADO; on every other return (no selection, card errors, no
    live hold, seat conflict) and on every exception the three keys are
    as they were. *)
Theorem session_cleared_only_on_success svc cfg now form db ses :
  let '(db', ses', out) := pago svc cfg now POST form db ses in
  match out with
  | Returned (pago_ok_html trx _ _ _ _ _) =>
      seats ses' = None ∧ hold_token ses' = None ∧ combos ses' = None ∧
      estado <$> lookup_trx db' trx = Some "APROBADO"%string
  | _ =>
      seats ses' = seats ses ∧ hold_token ses' = hold_token ses ∧
      combos ses' = combos ses
  end.
Proof.
  cbn [pago]. pose proof (pago_post_spec svc cfg now form db ses) as H.
  destruct (pago_post svc cfg now form db ses) as [[db' ses'] out].
  destruct H as [(-> & Hs & Hno)|H].
  { destruct out as [[]|]; done. }
  destruct H as (te & tc & total & cs & ss & sel & fila & db2 & r & _ & _ & Hfila & Hc & Hd).
  assert (Hid : ∀ id, trx_id (fila id) = id) by (intros id; apply Hfila).
  destruct (desenlace_transacciones _ _ _ _ _ _ _ _ _ _ _ _ _ _ _ Hid (proj1 (proj2 (Hfila _))) Hc Hd) as [st Htr].
  pose proof (confirm_seats_transacciones _ _ _ _ _ _ _ _ _ Hc) as Htr2.
  destruct r as [[|s l]|e]; cbn [desenlace] in Hd.
  - destruct Hd as [(_ & Hs & (? & ? & ->))|(_ & -> & (? & ->))]; [exact Hs|done].
  - destruct Hd as [(-> & [(-> & (? & ? & ? & ->))|(-> & ? & ->)])|(_ & -> & (? & ->))];
      [|done|done].
    do 3 (split; [reflexivity|]).
    by rewrite (lookup_trx_nueva _ _ _ (update_estado_insertada _ _ _ _ Hid Htr2) (Hid _)).
  - destruct e; cbn [desenlace] in Hd;
      first [ by destruct Hd as (_ & -> & ->)
            | destruct Hd as [(_ & Hs & (? & ? & ->))|(_ & -> & (? & ->))];
              [exact Hs|done] ].
Qed.

(** C10.  The [monto_cents] that a POST persists is the coefficient of the
    two-decimal total that the server computed, that is, exactly one
    hundred times the total: the conversion through [total * 100] and
    [to_integral_value] rounds nothing. *)
Theorem monto_cents_exact svc cfg now form db ses t :
  lookup_trx (pago svc cfg now POST form db ses).1.1 (next_id db) = Some t →
  ∃ te tc total cs ss sel,
    _calcular_totales_server_side svc cfg ses = Ok (te, tc, total, cs, ss, sel) ∧
    total = Dec.Finite (monto_cents t) (-2) ∧
    (inject_Z (monto_cents t) == Quote.value total * 100)%Q.
Proof.
  intros Ht.
  destruct (fila_nueva_monto _ _ _ _ _ _ _ Ht) as (te & tc & total & cs & ss & sel & Hc & Hm).
  exists te, tc, total, cs, ss, sel. split; [done|].
  destruct (calcular_components _ _ _ _ _ _ _ _ _ Hc) as (_ & _ & _ & [->|(c & -> & Hlt)]).
  { discriminate. }
  rewrite (monto_cents_de_two c Hlt) in Hm. injection Hm as <-.
  split; [reflexivity|]. unfold Quote.value.
  change (10 ^ (-2))%Q with (/ 100)%Q. field.
Qed.

Lemma monto_cents_exact_witness :
  ∃ t te tc cs ss sel,
    lookup_trx
      (pago Escenario.servicios (Escenario.config "4999.99") 1200 POST
         (Escenario.form_tarjeta "1.00") Escenario.db_con_hold
         (Escenario.sesion ["C7"; "C8"]%string [1; 3])).1.1
      (next_id Escenario.db_con_hold) = Some t ∧
    monto_cents t = 1149999 ∧
    _calcular_totales_server_side Escenario.servicios (Escenario.config "4999.99")
      (Escenario.sesion ["C7"; "C8"]%string [1; 3])
      = Ok (te, tc, Dec.Finite (monto_cents t) (-2), cs, ss, sel).
Proof.
  eexists. 
  destruct (monto_cents_exact Escenario.servicios (Escenario.config "4999.99") 1200
              (Escenario.form_tarjeta "1.00") Escenario.db_con_hold
              (Escenario.sesion ["C7"; "C8"]%string [1; 3]) _
              ltac:(vm_compute; reflexivity))
    as (te & tc & total & cs & ss & sel & Hc & -> & _).
  exists te, tc, cs, ss, sel. split; [reflexivity|]. split; [reflexivity|exact Hc].
Defined.

(** ** No double booking *)

Section NoDoubleBooking.

Import Booking.
Lemma live_mono now now' h : now ≤ now' → Store.live now' h = true → Store.live now h = true.
Proof. unfold Store.live. rewrite !Z.ltb_lt. lia. Qed.

(** The invariant only reads the holds and the ledger. *)
Lemma no_double_booking_ext now db db' :
  seat_holds db' = seat_holds db → reservas db' = reservas db →
  no_double_booking now db → no_double_booking now db'.
Proof.
  intros Hh Hr (H1 & H2 & H3).
  unfold no_double_booking, holds_disjoint, holds_off_ledger, ledger_unique.
  rewrite Hh, Hr. done.
Qed.

(** Time passing can only expire holds. *)
Lemma no_double_booking_later now now' db :
  now ≤ now' → no_double_booking now db → no_double_booking now' db.
Proof.
  intros Hle (H1 & H2 & H3). split; [|split; [|done]].
  - intros t1 t2 h1 h2 ? ? ? ?%(live_mono now) ?%(live_mono now); eauto.
  - intros t h r ? ?%(live_mono now); eauto.
Qed.

(** Dropping holds keeps the invariant. *)
Lemma no_double_booking_fewer now db db' :
  seat_holds db' ⊆ seat_holds db → reservas db' = reservas db →
  no_double_booking now db → no_double_booking now db'.
Proof.
  intros Hsub Hr (H1 & H2 & H3). split; [|split].
  - intros t1 t2 h1 h2 Hne Ht1 Ht2.
    eapply H1; eauto using lookup_weaken.
  - intros t h r Ht Hl Hin. rewrite Hr in Hin.
    eapply H2; eauto using lookup_weaken.
  - unfold ledger_unique. by rewrite Hr.
Qed.

Lemma elem_of_seats_confirmed db k s :
  s ∈ Store.seats_confirmed db k ↔ ∃ r, r ∈ reservas db ∧ r_key r = k ∧ r_seat r = s.
Proof.
  unfold Store.seats_confirmed. rewrite elem_of_list_to_set, list_elem_of_fmap.
  split.
  - intros (r & -> & Hin). apply list_elem_of_filter in Hin as [Hk Hin].
    apply bool_decide_unpack in Hk. eauto.
  - intros (r & Hin & Hk & <-). exists r. split; [done|].
    apply list_elem_of_filter. split; [by apply bool_decide_pack|done].
Qed.

Lemma place_preserves now db token k seats ttl :
  no_double_booking now db →
  no_double_booking now (Store.place token k seats ttl now db).1.
Proof.
  intros (H1 & H2 & H3). unfold Store.place.
  destruct (decide _) as [[Hfree Hconf]|]; [|done]. cbn [fst].
  split; [|split; [|done]].
  - intros t1 t2 h1 h2 Hne Ht1 Ht2 Hl1 Hl2 Hk. cbn in Ht1, Ht2.
    destruct (decide (t1 = token)) as [->|Hn1];
      [rewrite lookup_insert_eq in Ht1; rewrite lookup_insert_ne in Ht2 by done
      |rewrite lookup_insert_ne in Ht1 by done].
    + injection Ht1 as <-. cbn in *.
      destruct (Hfree t2 h2 Ht2) as [?|[?|[?|?]]]; [congruence..|done].
    + destruct (decide (t2 = token)) as [->|Hn2];
        [rewrite lookup_insert_eq in Ht2|rewrite lookup_insert_ne in Ht2 by done].
      * injection Ht2 as <-. cbn in *.
        destruct (Hfree t1 h1 Ht1) as [?|[?|[?|?]]]; [congruence..|done].
      * eauto.
  - intros t h r Ht Hl Hin Hk Hs. cbn in Ht, Hin.
    destruct (decide (t = token)) as [->|Hn];
      [rewrite lookup_insert_eq in Ht|rewrite lookup_insert_ne in Ht by done].
    + injection Ht as <-. cbn in *.
      apply (Hconf (r_seat r)); [done|]. apply elem_of_seats_confirmed. eauto.
    + eapply H2; eauto.
Qed.

Lemma confirm_preserves now db falla token k email trx :
  no_double_booking now db →
  no_double_booking now (Store.confirm_seats falla token k email trx now db).1.
Proof.
  intros Hinv.
  destruct (Store.confirm_seats falla token k email trx now db) as [db' r] eqn:Hc.
  destruct (confirm_seats_cases _ _ _ _ _ _ _ _ _ Hc) as [[-> _]|Hok]; [done|].
  destruct Hok as (tk & h & -> & Hh & Hlive & <- & Hdisj & _ & _ & Hholds & Hres).
  destruct Hinv as (H1 & H2 & H3). cbn [fst].
  split; [|split].
  - intros t1 t2 h1 h2 Hne Ht1 Ht2. rewrite Hholds in Ht1, Ht2.
    apply lookup_delete_Some in Ht1 as [_ Ht1], Ht2 as [_ Ht2]. eauto.
  - intros t h' r' Ht Hl Hin Hk. rewrite Hholds in Ht.
    apply lookup_delete_Some in Ht as [Hne Ht].
    rewrite Hres in Hin. apply elem_of_app in Hin as [Hin|Hin]; [eauto|].
    apply list_elem_of_fmap in Hin as (s & -> & Hs). cbn in *.
    apply elem_of_elements in Hs.
    intros Hs'. eapply (H1 tk t h h'); eauto.
  - unfold ledger_unique. rewrite Hres, map_app. apply NoDup_app.
    split; [exact H3|]. split.
    + intros ks Hold Hnew.
      apply list_elem_of_fmap in Hnew as (r' & -> & Hnew).
      apply list_elem_of_fmap in Hnew as (s & -> & Hs). cbn in *.
      apply list_elem_of_fmap in Hold as (r0 & Heq & Hold).
      injection Heq as Hk Hseat. apply elem_of_elements in Hs.
      apply (Hdisj s); [done|]. apply elem_of_seats_confirmed. eauto.
    + rewrite <- list_fmap_compose.
      apply NoDup_fmap_2; [|apply NoDup_elements].
      intros s1 s2 [= ->]. done.
Qed.

(** Each operation keeps the invariant, at any later clock reading. *)
Lemma run_preserves o now now' db :
  now ≤ now' → no_double_booking now db → no_double_booking now' (run o now' db).
Proof.
  intros Hle Hinv%(no_double_booking_later _ now'); [|done].
  destruct o as [token k seats ttl|falla token k email trx|token| |svc cfg form ses]; cbn [run].
  - by apply place_preserves.
  - by apply confirm_preserves.
  - eapply no_double_booking_fewer; [| |exact Hinv]; [apply delete_subseteq|done].
  - eapply no_double_booking_fewer; [| |exact Hinv]; [apply map_filter_subseteq|done].
  - cbn [pago]. pose proof (pago_post_spec svc cfg now' form db ses) as H.
    destruct (pago_post svc cfg now' form db ses) as [[db' ses'] out]. cbn [fst].
    destruct H as [(-> & _)|H]; [done|].
    destruct H as (? & ? & ? & ? & ? & sel & fila & db2 & r & _ & _ & _ & Hc & Hd).
    assert (Hinv2 : no_double_booking now' db2).
    { change db2 with ((db2, r).1). rewrite <- Hc. apply confirm_preserves.
      eapply no_double_booking_ext; [..|exact Hinv]; reflexivity. }
    assert (Hdb' : seat_holds db' = seat_holds db2 ∧ reservas db' = reservas db2).
    { destruct r as [[|]|e]; [| |destruct e]; cbn [desenlace] in Hd;
        first [ by destruct Hd as [[-> _]|[-> _]] | by destruct Hd as [-> _] ]. }
    eapply no_double_booking_ext; [..|exact Hinv2]; apply Hdb'.
Qed.

Lemma empty_no_double_booking now : no_double_booking now empty_db.
Proof.
  split; [|split].
  - intros t1 t2 h1 h2 _ Ht1. cbn in Ht1. by rewrite lookup_empty in Ht1.
  - intros t h r Ht. cbn in Ht. by rewrite lookup_empty in Ht.
  - apply NoDup_nil_2.
Qed.

End NoDoubleBooking.

(** C1.  In every state reached from the empty database by placing holds,
    confirming, releasing, sweeping and paying, at non-decreasing clock
    readings: two live holds of different tokens on one showtime share no
    seat, no seat of a live hold is in the ledger for that showtime, and
    the ledger holds each (showtime, seat) once.  Every operation keeps
    this invariant, from any state that has it. *)
Theorem no_double_booking_invariant :
  (∀ now db, Booking.reachable now db → Booking.no_double_booking now db) ∧
  (∀ o now now' db,
      now ≤ now' → Booking.no_double_booking now db →
      Booking.no_double_booking now' (Booking.run o now' db)).
Proof.
  split; [|intros; by eapply run_preserves].
  induction 1 as [now|now now' db o _ IH Hle].
  - apply empty_no_double_booking.
  - by eapply run_preserves.
Qed.

(** ** The configuration read at startup *)

Lemma create_app_is_ok env :
  is_ok (create_app env)
  = forallb (fun kd => is_ok (Py.int (getenv env kd.1 kd.2))) int_settings.
Proof.
  unfold create_app, int_settings. cbn [forallb fst snd].
  repeat (match goal with |- context [Py.int ?x] => destruct (Py.int x) end;
          cbn [bind is_ok andb]; try reflexivity).
Qed.

Lemma getenv_insert_ne env k k' v d :
  k ≠ k' → getenv (<[k := v]> env) k' d = getenv env k' d.
Proof. intros H. unfold getenv. by rewrite lookup_insert_ne. Qed.

(** C7 (as amended).  Startup succeeds exactly when the four settings that
    [create_app] converts with [int] (MAIL_PORT, SEAT_COLS,
    SEAT_MAX_PER_ORDER, HOLD_TTL_SECONDS) are integer literals; whatever
    TICKET_PRICE and SEAT_ROWS hold makes no difference to it, and both
    are stored as given.  A TICKET_PRICE that [Decimal] cannot parse is no
    error anywhere: every request prices the ticket at the default 5000. *)
Theorem startup_checks_integers_only env :
  is_ok (create_app env)
    = forallb (fun kd => is_ok (Py.int (getenv env kd.1 kd.2))) int_settings ∧
  (∀ v, is_ok (create_app (<["TICKET_PRICE" := v]> env)) = is_ok (create_app env)) ∧
  (∀ v, is_ok (create_app (<["SEAT_ROWS" := v]> env)) = is_ok (create_app env)) ∧
  (∀ cfg, create_app env = Ok cfg →
     TICKET_PRICE cfg = Some (getenv env "TICKET_PRICE" "5000") ∧
     SEAT_ROWS cfg = getenv env "SEAT_ROWS" "ABCDEFGHIJ" ∧
     (is_ok (Dec.of_string (getenv env "TICKET_PRICE" "5000")) = false →
      _precio_entrada cfg = Dec.Finite 5000 0)).
Proof.
  split; [apply create_app_is_ok|]. split; [|split].
  - intros v. rewrite !create_app_is_ok. unfold int_settings. cbn [forallb fst snd].
    by rewrite !getenv_insert_ne.
  - intros v. rewrite !create_app_is_ok. unfold int_settings. cbn [forallb fst snd].
    by rewrite !getenv_insert_ne.
  - intros cfg. unfold create_app.
    repeat (match goal with |- context [Py.int ?x] => destruct (Py.int x) end;
            cbn [bind]; try discriminate).
    intros [= <-]. cbn. split; [done|]. split; [done|].
    unfold _precio_entrada. cbn.
    destruct (Dec.of_string (getenv env "TICKET_PRICE" "5000")); [discriminate|done].
Qed.

Lemma startup_checks_integers_only_witness :
  ∃ cfg,
    create_app {[ "TICKET_PRICE" := "cinco mil" ]}%string = Ok cfg ∧
    is_ok (Dec.of_string
             (getenv {[ "TICKET_PRICE" := "cinco mil" ]}%string "TICKET_PRICE" "5000"))
      = false ∧
    _precio_entrada cfg = Dec.Finite 5000 0.
Proof.
  eexists. split; [vm_compute; reflexivity|]. split; [vm_compute; reflexivity|].
  eapply (startup_checks_integers_only {[ "TICKET_PRICE" := "cinco mil" ]}%string);
    vm_compute; reflexivity.
Defined.

(** C7, the claim as first stated, fails on TICKET_PRICE=gratis: startup
    succeeds with the text stored as it is, [Decimal] cannot parse it, and
    the price of a ticket is silently the default 5000 on each request. *)
Lemma unparsable_price_not_fatal :
  ∃ cfg,
    create_app {[ "TICKET_PRICE" := "gratis" ]}%string = Ok cfg ∧
    TICKET_PRICE cfg = Some "gratis"%string ∧
    Dec.of_string "gratis" = Raise InvalidOperation ∧
    _precio_entrada cfg = Dec.Finite 5000 0.
Proof. eexists. repeat split; vm_compute; reflexivity. Qed.

(** ** The migration *)

Section Migration.

Import Migr.
(** *** Identifier comparison *)



(** *** The catalogue only grows *)

Lemma appended_refl s : appended s s.
Proof. exists [], []. by rewrite !app_nil_r. Qed.

Lemma appended_trans s1 s2 s3 : appended s1 s2 → appended s2 s3 → appended s1 s3.
Proof.
  intros (t1 & i1 & Ht1 & Hi1) (t2 & i2 & Ht2 & Hi2).
  exists (t1 ++ t2), (i1 ++ i2). rewrite Ht2, Hi2, Ht1, Hi1, !app_assoc. done.
Qed.






Lemma exec_appended st s s' : exec st s = Ok s' → appended s s'.
Proof.
  destruct st as [name cols|name table cols]; simpl; intros H;
    repeat case_match; simplify_eq;
    first [ apply appended_refl
          | eexists _, []; cbn; split; [reflexivity|symmetry; apply app_nil_r]
          | eexists [], _; cbn; split; [symmetry; apply app_nil_r|reflexivity] ].
Qed.

Lemma executescript_appended script : ∀ s s' r,
  executescript script s = (s', r) → appended s s'.
Proof.
  induction script as [|st rest IH]; intros s s' r H; simpl in H.
  - injection H as <- _. apply appended_refl.
  - destruct (exec st s) as [s1|e] eqn:He.
    + eapply appended_trans; [by eapply exec_appended|by eapply IH].
    + injection H as <- _. apply appended_refl.
Qed.





























(** *** The text of [sqlite_master.sql] names every column *)

Lemma chars_app a b : Py.chars (a ++ b)%string = Py.chars a ++ Py.chars b.
Proof. unfold Py.chars. induction a as [|x a IH]; simpl; [done|by rewrite IH]. Qed.

Lemma starts_with_app l r : Py.starts_with l (l ++ r) = true.
Proof.
  induction l as [|a l IH]; [done|]. simpl.
  by rewrite Ascii.eqb_refl, IH.
Qed.

Lemma contains_here sub r : Py.contains sub (sub ++ r) = true.
Proof.
  destruct (sub ++ r) eqn:E; simpl; rewrite <- E, starts_with_app; done.
Qed.

Lemma contains_later sub pre l :
  Py.contains sub l = true → Py.contains sub (pre ++ l) = true.
Proof.
  intros H. induction pre as [|a pre IH]; [done|].
  cbn [app Py.contains]. rewrite IH. apply orb_true_r.
Qed.

Lemma contains_middle sub pre post : Py.contains sub (pre ++ sub ++ post) = true.
Proof. apply contains_later, contains_here. Qed.

Lemma occurs_contains sub s :
  occurs sub s → Py.contains (Py.chars sub) (Py.chars s) = true.
Proof. intros (pre & post & ->). apply contains_middle. Qed.

Lemma occurs_app_l sub a b : occurs sub a → occurs sub (a ++ b)%string.
Proof.
  intros (pre & post & H). exists pre, (post ++ Py.chars b).
  by rewrite chars_app, H, <- !app_assoc.
Qed.

Lemma occurs_app_r sub a b : occurs sub b → occurs sub (a ++ b)%string.
Proof.
  intros (pre & post & H). exists (Py.chars a ++ pre), post.
  by rewrite chars_app, H, <- !app_assoc.
Qed.

Lemma occurs_concat sub sep x l :
  x ∈ l → occurs sub x → occurs sub (String.concat sep l).
Proof.
  intros Hin Hx. induction l as [|y l IH]; [by apply elem_of_nil in Hin|].
  apply elem_of_cons in Hin as [->|Hin].
  - destruct l; cbn [String.concat]; [done|by apply occurs_app_l].
  - destruct l as [|z l]; [by apply elem_of_nil in Hin|].
    cbn [String.concat]. apply occurs_app_r, occurs_app_r. by apply IH.
Qed.











(** *** The migration as a whole *)

Lemma script_transacciones_split :
  script_transacciones
  = CREATE_TABLE_IF_NOT_EXISTS "transacciones" (tbl_cols tabla_nueva)
      :: tail script_transacciones.
Proof. reflexivity. Qed.

Lemma executescript_cons st rest s :
  executescript (st :: rest) s
  = match exec st s with
    | Ok s' => executescript rest s'
    | Raise e => (s, Raise e)
    end.
Proof. reflexivity. Qed.











End Migration.




(** * Further properties of the code *)

(** ** The totals, whatever the session holds *)

Section TotalsAlways.

Import Dec.
Context (svc : Services).

Lemma fix_raises d e : fix_ d = Raise e → e = Overflow.
Proof.
  destruct d as [c x|s| |]; try discriminate. unfold fix_.
  intros Hr; repeat case_match; simplify_eq; reflexivity.
Qed.

Lemma mul_raises a b e : mul a b = Raise e → decimal_error e.
Proof.
  unfold decimal_error.
  destruct a as [c1 e1|s1| |], b as [c2 e2|s2| |]; cbn [mul];
    intros Hr; repeat case_match; simplify_eq; auto;
    right; by eapply fix_raises.
Qed.

Lemma add_raises a b e : add a b = Raise e → decimal_error e.
Proof.
  unfold decimal_error.
  destruct a as [c1 e1|s1| |], b as [c2 e2|s2| |]; cbn [add];
    intros Hr; repeat case_match; simplify_eq; auto;
    right; by eapply fix_raises.
Qed.

Lemma quantize_raises d q r e : quantize d q r = Raise e → decimal_error e.
Proof.
  unfold decimal_error.
  destruct d as [c1 e1|s1| |], q as [c2 e2|s2| |]; cbn [quantize];
    intros Hr; repeat case_match; simplify_eq; auto;
    right; by eapply fix_raises.
Qed.

Lemma of_string_raises s e : of_string s = Raise e → e = InvalidOperation.
Proof.
  unfold of_string. intros Hr; repeat case_match; simplify_eq; reflexivity.
Qed.

Lemma sum_from_raises l : ∀ acc e, sum_from acc l = Raise e → decimal_error e.
Proof.
  induction l as [|c l IH]; intros acc e; cbn [sum_from]; [discriminate|].
  destruct (of_string (combo_precio c)) as [p|e1] eqn:Hp; cbn [bind].
  - destruct (add acc p) as [acc'|e2] eqn:Ha; cbn [bind]; [apply IH|].
    intros [= <-]. by eapply add_raises.
  - intros [= <-]. left. by eapply of_string_raises.
Qed.

Lemma sum_precios_raises l e : sum_precios l = Raise e → decimal_error e.
Proof.
  destruct l as [|c l]; cbn [sum_precios]; [discriminate|].
  destruct (of_string (combo_precio c)) as [p|e1] eqn:Hp; cbn [bind].
  - destruct (add p (of_int 0)) as [acc'|e2] eqn:Ha; cbn [bind]; [apply sum_from_raises|].
    intros [= <-]. by eapply add_raises.
  - intros [= <-]. left. by eapply of_string_raises.
Qed.

Lemma quantize_two_dos_decimales d t :
  quantize d TWO ROUND_HALF_UP = Ok t → dos_decimales t.
Proof.
  intros H. destruct (quantize_two_result _ _ H) as [[_ ->]|?]; [by left|by right].
Qed.

End TotalsAlways.

(** X1.  [_calcular_totales_server_side] either returns or raises one of
    the two trapped exceptions of [decimal] ([InvalidOperation],
    [Overflow]) and nothing else.  When it returns, each of the three
    amounts has exactly two decimals and at most 28 digits, or is NaN,
    and the combos, seats and selection returned are those of the
    session. *)
Theorem totals_two_decimals_or_decimal_error svc cfg ses :
  match _calcular_totales_server_side svc cfg ses with
  | Ok (te, tc, total, cs, ss, sel) =>
      dos_decimales te ∧ dos_decimales tc ∧ dos_decimales total ∧
      cs = _combos_from_session svc ses ∧ ss = _seats_from_session ses ∧
      sel = _seleccion_from_session ses
  | Raise e => decimal_error e
  end.
Proof.
  unfold _calcular_totales_server_side.
  destruct (Dec.mul _ _) as [prod|e] eqn:H1; cbn [bind]; [|by eapply mul_raises].
  destruct (Dec.quantize prod _ _) as [te|e] eqn:H2; cbn [bind]; [|by eapply quantize_raises].
  destruct (sum_precios _) as [suma|e] eqn:H3; cbn [bind]; [|by eapply sum_precios_raises].
  destruct (Dec.quantize suma _ _) as [tc|e] eqn:H4; cbn [bind]; [|by eapply quantize_raises].
  destruct (Dec.add te tc) as [bruto|e] eqn:H5; cbn [bind]; [|by eapply add_raises].
  destruct (Dec.quantize bruto _ _) as [total|e] eqn:H6; cbn [bind]; [|by eapply quantize_raises].
  repeat split; by eapply quantize_two_dos_decimales.
Qed.

Section NonFinite.

Import Dec.

Lemma calcular_non_finite svc cfg ses te tc total cs ss sel :
  is_finite (_precio_entrada cfg) = false →
  _calcular_totales_server_side svc cfg ses = Ok (te, tc, total, cs, ss, sel) →
  total = NaN.
Proof.
  unfold _calcular_totales_server_side. intros Hf.
  destruct (_precio_entrada cfg) as [c e|s| |]; [discriminate| | |].
  - cbn [mul of_int]. destruct (_ =? 0); [discriminate|]. cbn [bind quantize TWO]. discriminate.
  - cbn [mul of_int bind quantize TWO].
    destruct (sum_precios _) as [suma|e]; cbn [bind]; [|discriminate].
    destruct (quantize suma _ _) as [tc'|e] eqn:Hq; cbn [bind]; [|discriminate].
    destruct (quantize_two_dos_decimales _ _ Hq) as [->|(c & -> & _)];
      cbn [add bind quantize]; by intros [= <- <- <- <- <- <-].
  - cbn [mul of_int bind]. discriminate.
Qed.

Lemma calcular_infinite svc cfg ses neg :
  _precio_entrada cfg = Inf neg →
  _calcular_totales_server_side svc cfg ses = Raise InvalidOperation.
Proof.
  unfold _calcular_totales_server_side. intros ->.
  cbn [mul of_int]. by destruct (_ =? 0).
Qed.

End NonFinite.

(** X2.  With a ticket price that [Decimal] parses to something that is
    not a finite number (NaN, sNaN, Infinity, which [_precio_entrada]
    lets through), no POST inserts a transaction, changes the selection
    in the session or reaches the approval page; with an infinite price
    every request to the route, GET or POST, raises [InvalidOperation]
    and leaves database and session as they were. *)
Theorem non_finite_price_sells_nothing svc cfg now form db ses :
  is_finite (_precio_entrada cfg) = false →
  (let '(db', ses', out) := pago svc cfg now POST form db ses in
   db' = db ∧ same_selection ses ses' ∧ not_approved out) ∧
  (∀ neg method,
     _precio_entrada cfg = Dec.Inf neg →
     pago svc cfg now method form db ses = (db, ses, Raised InvalidOperation)).
Proof.
  intros Hf. split.
  - cbn [pago]. pose proof (pago_post_spec svc cfg now form db ses) as H.
    destruct (pago_post svc cfg now form db ses) as [[db' ses'] out].
    destruct H as [H|H]; [exact H|exfalso].
    destruct H as (te & tc & total & cs & ss & sel & fila & db2 & r & Hcalc & _ & Hfila & _).
    rewrite (calcular_non_finite _ _ _ _ _ _ _ _ _ Hf Hcalc) in Hfila.
    destruct (Hfila 0) as (_ & _ & Hm). discriminate.
  - intros neg method Hinf.
    destruct method; cbn [pago]; unfold pago_post;
      by rewrite (calcular_infinite svc cfg ses neg Hinf).
Qed.

Lemma non_finite_price_sells_nothing_witness :
  is_finite (_precio_entrada (Escenario.config "NaN")) = false ∧
  pago Escenario.servicios (Escenario.config "NaN") 1200 POST
    (Escenario.form_tarjeta "1.00") Escenario.db_con_hold
    (Escenario.sesion ["C7"; "C8"]%string [1])
  = (Escenario.db_con_hold, Escenario.sesion ["C7"; "C8"]%string [1],
     Raised (ValueError "cannot convert NaN to integer")) ∧
  let '(db', ses', out) :=
    pago Escenario.servicios (Escenario.config "NaN") 1200 POST
      (Escenario.form_tarjeta "1.00") Escenario.db_con_hold
      (Escenario.sesion ["C7"; "C8"]%string [1]) in
  db' = Escenario.db_con_hold ∧
  same_selection (Escenario.sesion ["C7"; "C8"]%string [1]) ses' ∧ not_approved out.
Proof.
  split; [vm_compute; reflexivity|]. split; [vm_compute; reflexivity|].
  exact (proj1 (non_finite_price_sells_nothing Escenario.servicios
                  (Escenario.config "NaN") 1200 (Escenario.form_tarjeta "1.00")
                  Escenario.db_con_hold (Escenario.sesion ["C7"; "C8"]%string [1])
                  ltac:(vm_compute; reflexivity))).
Defined.

(** X3.  [_combos_from_session] takes the ids of the session as a set:
    the combos selected, and with them the totals, are the same for two
    sessions whose id lists have the same elements, however often or in
    which order an id is listed; the result is a sublist of the
    catalogue, in catalogue order, and holds exactly the catalogue
    entries whose id is in the session, so an id that is not in the
    catalogue adds nothing. *)
Theorem combos_counted_once svc :
  (∀ ses ses',
      (∀ i, i ∈ default [] (combos ses) ↔ i ∈ default [] (combos ses')) →
      _combos_from_session svc ses = _combos_from_session svc ses') ∧
  (∀ ses, _combos_from_session svc ses `sublist_of` COMBOS_CATALOG svc) ∧
  (∀ ses c, c ∈ _combos_from_session svc ses ↔
            c ∈ COMBOS_CATALOG svc ∧ combo_id c ∈ default [] (combos ses)) ∧
  (∀ cfg ses ses',
      (∀ i, i ∈ default [] (combos ses) ↔ i ∈ default [] (combos ses')) →
      seats ses = seats ses' → movie_selection ses = movie_selection ses' →
      _calcular_totales_server_side svc cfg ses
      = _calcular_totales_server_side svc cfg ses').
Proof.
  assert (Hset : ∀ ses ses',
      (∀ i, i ∈ default [] (combos ses) ↔ i ∈ default [] (combos ses')) →
      _combos_from_session svc ses = _combos_from_session svc ses').
  { intros ses ses' H. unfold _combos_from_session.
    apply list_filter_iff. intros c. rewrite !bool_decide_spec. apply H. }
  split; [exact Hset|]. split; [|split].
  - intros ses. apply sublist_filter.
  - intros ses c. unfold _combos_from_session.
    rewrite list_elem_of_filter, bool_decide_spec. tauto.
  - intros cfg ses ses' H Hs Hm. unfold _calcular_totales_server_side.
    rewrite (Hset ses ses' H). unfold _seats_from_session, _seleccion_from_session.
    by rewrite Hs, Hm.
Qed.

(** ** What a request stores and shows *)

(** X4.  The total that GET shows for a session is the amount that a
    POST with the same session and configuration stores: whenever GET
    returns the form with total [shown] and a POST inserts the row [t],
    [shown] is [monto_cents t] hundredths. *)
Theorem shown_total_is_charged svc cfg ses now now' form form' db db' seats_shown shown t :
  (pago svc cfg now GET form db ses).2 = Returned (pago_html [] seats_shown shown None) →
  lookup_trx (pago svc cfg now' POST form' db' ses).1.1 (next_id db') = Some t →
  shown = Dec.Finite (monto_cents t) (-2).
Proof.
  intros Hget Hpost.
  destruct (fila_nueva_monto _ _ _ _ _ _ _ Hpost)
    as (te & tc & total & cs & ss & sel & Hc & Hm).
  cbn [pago] in Hget. rewrite Hc in Hget. cbn in Hget. injection Hget as _ <-.
  destruct (calcular_components _ _ _ _ _ _ _ _ _ Hc) as (_ & _ & _ & [->|(c & -> & Hlt)]).
  { discriminate. }
  rewrite (monto_cents_de_two c Hlt) in Hm. by injection Hm as <-.
Qed.

Lemma shown_total_is_charged_witness :
  ∃ t,
    (pago Escenario.servicios (Escenario.config "4999.99") 1100 GET ∅
       Escenario.db_con_hold (Escenario.sesion ["C7"; "C8"]%string [1; 3])).2
    = Returned (pago_html [] ["C7"; "C8"]%string (Dec.Finite 1149999 (-2)) None) ∧
    lookup_trx
      (pago Escenario.servicios (Escenario.config "4999.99") 1200 POST
         (Escenario.form_tarjeta "1.00") Escenario.db_con_hold
         (Escenario.sesion ["C7"; "C8"]%string [1; 3])).1.1
      (next_id Escenario.db_con_hold) = Some t ∧
    Dec.Finite 1149999 (-2) = Dec.Finite (monto_cents t) (-2).
Proof.
  eexists. split; [vm_compute; reflexivity|]. split; [vm_compute; reflexivity|].
  eapply (shown_total_is_charged Escenario.servicios (Escenario.config "4999.99")
            (Escenario.sesion ["C7"; "C8"]%string [1; 3]) 1100 1200 ∅
            (Escenario.form_tarjeta "1.00") Escenario.db_con_hold Escenario.db_con_hold);
    vm_compute; reflexivity.
Defined.

Section Rows.

Context (svc : Services).

Lemma last_n_suffix n (l : list ascii) :
  (length (Py.last_n n l) ≤ n)%nat ∧ ∃ pre, l = pre ++ Py.last_n n l.
Proof.
  unfold Py.last_n. split.
  - rewrite length_skipn. lia.
  - exists (firstn (length l - n) l). symmetry. apply firstn_skipn.
Qed.

Lemma form_get_insert_ne (form : gmap string string) k k' v :
  k ≠ k' → form_get (<[k := v]> form) k' = form_get form k'.
Proof. intros Hne. unfold form_get. by rewrite lookup_insert_ne. Qed.

Lemma form_get_insert (form : gmap string string) k v :
  form_get (<[k := v]> form) k = v.
Proof. unfold form_get. by rewrite lookup_insert_eq. Qed.

(** The row of a form, with the card number made explicit. *)
Lemma fila_de_pan now form p monto mes anio id :
  fila_de svc now (<["pan" := p]> form) monto mes anio id =
  let limpio := Py.remove_char " " (Py.chars p) in
  let l4 := Py.str (Py.last_n 4 limpio) in
  {| trx_id := id; usuario_email := or_None (strip (form_get form "email"));
     monto_cents := monto; brand := or_None (detectar_brand svc (Py.str limpio));
     last4 := or_None l4; exp_mes := mes; exp_anio := anio; estado := "PENDIENTE";
     auth_code := ("APP-" ++ l4 ++ "-" ++ strftime svc "%H%M%S" now)%string;
     created_at := strftime svc "%Y-%m-%d %H:%M:%S" now |}.
Proof.
  unfold fila_de. cbv zeta.
  rewrite form_get_insert, form_get_insert_ne by done.
  unfold Py.chars at 2 3, Py.str at 2 4.
  by rewrite !list_ascii_of_string_of_list_ascii.
Qed.

End Rows.

(** X5.  Of the card number, the row that a POST stores depends on
    nothing but its last four characters and the brand that
    [detectar_brand] names.  Take two forms of ASCII fields that differ
    in [pan] alone, whose card numbers, spaces removed, end in the same
    four characters and are of the same brand: on the same database,
    session and clock, the rows that the two requests leave are the same
    row.  Its [last4] is that suffix, of at most four characters, or
    NULL when the number is empty. *)
Theorem row_keeps_only_last_four svc cfg now form p1 p2 db ses t1 t2 :
  formulario_ascii (<["pan" := p1]> form) = true →
  formulario_ascii (<["pan" := p2]> form) = true →
  let limpio p := Py.remove_char " " (Py.chars p) in
  Py.last_n 4 (limpio p1) = Py.last_n 4 (limpio p2) →
  detectar_brand svc (Py.str (limpio p1)) = detectar_brand svc (Py.str (limpio p2)) →
  lookup_trx (pago svc cfg now POST (<["pan" := p1]> form) db ses).1.1 (next_id db)
    = Some t1 →
  lookup_trx (pago svc cfg now POST (<["pan" := p2]> form) db ses).1.1 (next_id db)
    = Some t2 →
  t1 = t2 ∧
  last4 t1 = or_None (Py.str (Py.last_n 4 (limpio p1))) ∧
  (length (Py.last_n 4 (limpio p1)) ≤ 4)%nat ∧
  ∃ pre, limpio p1 = pre ++ Py.last_n 4 (limpio p1).
Proof.
  intros _ _ limpio Hl4 Hb H1 H2. cbn [pago] in H1, H2.
  destruct (fila_nueva_exacta svc cfg now _ db ses t1 H1)
    as (total1 & monto1 & mes1 & anio1 & db21 & r1 & Hl1 & Hc1 & ->).
  destruct (fila_nueva_exacta svc cfg now _ db ses t2 H2)
    as (total2 & monto2 & mes2 & anio2 & db22 & r2 & Hl2 & Hc2 & ->).
  destruct Hl1 as ((te1 & tc1 & cs1 & Hcalc1) & _ & _ & _ & Hm1 & Hmes1 & Hanio1).
  destruct Hl2 as ((te2 & tc2 & cs2 & Hcalc2) & _ & _ & _ & Hm2 & Hmes2 & Hanio2).
  rewrite Hcalc1 in Hcalc2. injection Hcalc2 as _ _ <- _.
  rewrite Hm1 in Hm2. injection Hm2 as <-.
  rewrite form_get_insert_ne in Hmes1, Hmes2, Hanio1, Hanio2 by done.
  rewrite Hmes1 in Hmes2. injection Hmes2 as <-.
  rewrite Hanio1 in Hanio2. injection Hanio2 as <-.
  rewrite form_get_insert_ne in Hc1, Hc2 by done.
  rewrite !fila_de_pan in *. cbv zeta in *. fold (limpio p1) (limpio p2) in *.
  rewrite <- Hl4, <- Hb in *. rewrite Hc1 in Hc2. injection Hc2 as <- <-.
  split; [reflexivity|]. split; [reflexivity|]. apply last_n_suffix.
Qed.

Lemma row_keeps_only_last_four_witness :
  ∃ t,
    lookup_trx
      (pago Escenario.servicios (Escenario.config "5000") 1200 POST
         (<["pan" := "4111 1111 1111 1111"%string]> (Escenario.form_tarjeta "1.00"))
         Escenario.db_con_hold
         (Escenario.sesion ["C7"; "C8"]%string [1])).1.1
      (next_id Escenario.db_con_hold) = Some t ∧
    lookup_trx
      (pago Escenario.servicios (Escenario.config "5000") 1200 POST
         (<["pan" := "4242 4242 4242 1111"%string]> (Escenario.form_tarjeta "1.00"))
         Escenario.db_con_hold
         (Escenario.sesion ["C7"; "C8"]%string [1])).1.1
      (next_id Escenario.db_con_hold) = Some t ∧
    last4 t = Some "1111"%string.
Proof.
  eexists. split; [vm_compute; reflexivity|].
  destruct (row_keeps_only_last_four Escenario.servicios (Escenario.config "5000") 1200
              (Escenario.form_tarjeta "1.00")
              "4111 1111 1111 1111" "4242 4242 4242 1111"
              Escenario.db_con_hold (Escenario.sesion ["C7"; "C8"]%string [1])
              _ _
              ltac:(vm_compute; reflexivity) ltac:(vm_compute; reflexivity)
              ltac:(vm_compute; reflexivity) ltac:(vm_compute; reflexivity)
              ltac:(vm_compute; reflexivity) ltac:(vm_compute; reflexivity))
    as (Heq & Hl & _).
  split; [vm_compute; reflexivity|exact Hl].
Defined.

Section Ids.

Context (svc : Services).

Lemma pago_transacciones cfg now method form db ses :
  transacciones (pago svc cfg now method form db ses).1.1 = transacciones db ∨
  ∃ row, trx_id row = next_id db ∧
    transacciones (pago svc cfg now method form db ses).1.1 = transacciones db ++ [row].
Proof.
  destruct method; cbn [pago].
  { left. by repeat case_match. }
  pose proof (pago_post_spec svc cfg now form db ses) as H.
  destruct (pago_post svc cfg now form db ses) as [[db' ses'] out]. cbn [fst].
  destruct H as [(-> & _)|H]; [by left|right].
  destruct H as (te & tc & total & cs & ss & sel & fila & db2 & r & _ & _ & Hfila & Hc & Hd).
  assert (Hid : ∀ id, trx_id (fila id) = id) by (intros id; apply Hfila).
  destruct (desenlace_transacciones _ _ _ _ _ _ _ _ _ _ _ _ _ _ _ Hid
              (proj1 (proj2 (Hfila _))) Hc Hd) as [st Htr].
  eexists. split; [|exact Htr].
  apply Hid.
Qed.

Lemma next_id_not_in db : next_id db ∉ map trx_id (transacciones db).
Proof.
  intros (t & Heq & Hin)%list_elem_of_fmap.
  pose proof (next_id_fresh db t Hin). lia.
Qed.

End Ids.

(** X6.  Requests keep the transaction ids unique: if no two rows of
    [transacciones] share an id before a request, none do after it.
    A row that the request added carries the id [next_id db], which no
    row had before, and the next id moves on by one; in any case the
    next id never decreases. *)
Theorem transaction_ids_stay_unique svc cfg now method form db ses :
  (NoDup (map trx_id (transacciones db)) →
   NoDup (map trx_id (transacciones (pago svc cfg now method form db ses).1.1))) ∧
  (∀ t, t ∈ transacciones (pago svc cfg now method form db ses).1.1 →
        t ∈ transacciones db ∨
        (trx_id t = next_id db ∧ lookup_trx db (trx_id t) = None ∧
         next_id (pago svc cfg now method form db ses).1.1 = next_id db + 1)) ∧
  next_id db ≤ next_id (pago svc cfg now method form db ses).1.1.
Proof.
  destruct (pago_transacciones svc cfg now method form db ses) as [E|(row & Hid & E)].
  - unfold next_id. rewrite E. split; [done|]. split; [by left|lia].
  - assert (Hn : next_id (pago svc cfg now method form db ses).1.1 = next_id db + 1).
    { unfold next_id at 1. rewrite E, map_app, fold_right_app. cbn [map fold_right].
      rewrite Hid. fold (next_id db).
      assert (H0 : ∀ l a, 0 ≤ a → fold_right Z.max a l = Z.max a (fold_right Z.max 0 l)).
      { induction l as [|x l IH]; intros a Ha; cbn [fold_right]; [lia|].
        rewrite IH by done. lia. }
      rewrite H0 by (unfold next_id; pose proof (H0 (map trx_id (transacciones db)) 0); lia).
      unfold next_id.
      assert (0 ≤ fold_right Z.max 0 (map trx_id (transacciones db))).
      { generalize (map trx_id (transacciones db)). induction l; cbn [fold_right]; lia. }
      lia. }
    split; [|split].
    + rewrite E, map_app. cbn [map]. intros Hnd.
      apply NoDup_app. split; [done|]. split; [|apply NoDup_singleton].
      intros x Hx ->%list_elem_of_singleton. rewrite Hid in Hx.
      by apply next_id_not_in in Hx.
    + intros t. rewrite E. intros [Ht| ->%list_elem_of_singleton]%elem_of_app; [by left|].
      right. rewrite Hid. split; [done|]. split; [apply lookup_trx_fresh|exact Hn].
    + lia.
Qed.

(** X7.  Besides [seats], [hold_token] and [combos], a request leaves the
    session as it was: [movie_selection] and [branch] are never changed,
    no flashed message is dropped, and at most one is added, which
    happens only when the payment form is returned. *)
Theorem request_keeps_selection_and_flashes svc cfg now method form db ses :
  let '(_, ses', out) := pago svc cfg now method form db ses in
  movie_selection ses' = movie_selection ses ∧ branch ses' = branch ses ∧
  ∃ extra, flashes ses' = flashes ses ++ extra ∧ (length extra ≤ 1)%nat ∧
           (extra ≠ [] → ∃ errs ss t url, out = Returned (pago_html errs ss t url)).
Proof.
  assert (Hsame : ∀ out, movie_selection ses = movie_selection ses ∧ branch ses = branch ses ∧
    ∃ extra, flashes ses = flashes ses ++ extra ∧ (length extra ≤ 1)%nat ∧
           (extra ≠ [] → ∃ errs ss t url, out = Returned (pago_html errs ss t url))).
  { intros out. do 2 (split; [done|]). exists []. rewrite app_nil_r. split; [done|]. split; [simpl; lia|]. intros H. by destruct H. }
  assert (Hflash : ∀ msg cat errs ss t url,
    movie_selection (flash msg cat ses) = movie_selection ses ∧
    branch (flash msg cat ses) = branch ses ∧
    ∃ extra, flashes (flash msg cat ses) = flashes ses ++ extra ∧ (length extra ≤ 1)%nat ∧
           (extra ≠ [] → ∃ errs' ss' t' url',
              Returned (pago_html errs ss t url) = Returned (pago_html errs' ss' t' url'))).
  { intros. do 2 (split; [done|]). eexists. split; [reflexivity|]. split; [simpl; lia|eauto]. }
  assert (Hclean : ∀ out,
    movie_selection (limpiar_sesion ses) = movie_selection ses ∧
    branch (limpiar_sesion ses) = branch ses ∧
    ∃ extra, flashes (limpiar_sesion ses) = flashes ses ++ extra ∧ (length extra ≤ 1)%nat ∧
           (extra ≠ [] → ∃ errs ss t url, out = Returned (pago_html errs ss t url))).
  { intros out. do 2 (split; [done|]). exists []. cbn. rewrite app_nil_r. split; [done|]. split; [lia|]. intros H. by destruct H. }
  destruct method; cbn [pago].
  { repeat case_match; simplify_eq; apply Hsame. }
  unfold pago_post, pago_confirmar, pago_aprobado.
  repeat case_match; simplify_eq; first [apply Hsame | apply Hflash | apply Hclean].
Qed.

Section EmptyCart.

Import Dec.

Lemma quantize_zero e : quantize (Finite 0 e) TWO ROUND_HALF_UP = Ok (Finite 0 (-2)).
Proof. reflexivity. Qed.

Lemma add_zero_two c :
  Z.abs c < 10 ^ prec → add (Finite 0 (-2)) (Finite c (-2)) = Ok (Finite c (-2)).
Proof.
  intros H. cbn [add]. change (Z.min (-2) (-2)) with (-2). change (-2 - -2) with 0.
  replace (0 * 10 ^ 0 + c * 10 ^ 0) with c by lia. apply fix_id; [done|]. unfold Etiny, Etop, Emin, Emax, prec. lia.
Qed.

End EmptyCart.

(** X8.  Without seats in the session, whatever the finite ticket price is,
    the entradas subtotal is 0.00 and the total is the combos subtotal,
    which is 0.00 when no combo is selected; the function can then only
    fail on the price of a selected combo. *)
Theorem no_seats_no_ticket_charge svc cfg ses c e :
  _precio_entrada cfg = Dec.Finite c e →
  _seats_from_session ses = [] →
  match _calcular_totales_server_side svc cfg ses with
  | Ok (te, tc, total, _, _, _) =>
      te = Dec.Finite 0 (-2) ∧ total = tc ∧
      (_combos_from_session svc ses = [] → tc = Dec.Finite 0 (-2))
  | Raise err => decimal_error err ∧ _combos_from_session svc ses ≠ []
  end.
Proof.
  intros Hp Hs. unfold _calcular_totales_server_side. rewrite Hp, Hs.
  cbn [length Z.of_nat Dec.of_int Dec.mul]. rewrite Z.mul_0_r.
  replace (Dec.fix_ (Dec.Finite 0 (e + 0)))
    with (Ok (Dec.Finite 0 (Z.min (Z.max (e + 0) Dec.Etiny) Dec.Emax))) by reflexivity.
  cbn [bind]. rewrite quantize_zero. cbn [bind].
  destruct (sum_precios (_combos_from_session svc ses)) as [suma|err] eqn:Hsum; cbn [bind].
  - destruct (Dec.quantize suma TWO Dec.ROUND_HALF_UP) as [tc|err] eqn:Hq; cbn [bind].
    + destruct (quantize_two_dos_decimales _ _ Hq) as [->|(x & -> & Hx)].
      * cbn. split; [done|]. split; [done|]. intros Hn. rewrite Hn in Hsum.
        cbn in Hsum. injection Hsum as <-. discriminate.
      * rewrite (add_zero_two x Hx). cbn [bind].
        rewrite (quantize_two x (-2)) by (by rewrite cents_two). rewrite cents_two.
        cbn [bind]. split; [done|]. split; [done|]. intros Hn. rewrite Hn in Hsum.
        cbn in Hsum. injection Hsum as <-. cbn in Hq. by injection Hq as <-.
    + split; [by eapply quantize_raises|]. intros Hn. rewrite Hn in Hsum.
      cbn in Hsum. injection Hsum as <-. discriminate.
  - split; [by eapply sum_precios_raises|]. intros Hn. by rewrite Hn in Hsum.
Qed.

Lemma no_seats_no_ticket_charge_witness :
  _precio_entrada (Escenario.config "4999.99") = Dec.Finite 499999 (-2) ∧
  _calcular_totales_server_side Escenario.servicios (Escenario.config "4999.99")
    (Escenario.sesion [] [1])
  = Ok (Dec.Finite 0 (-2), Dec.Finite 150000 (-2), Dec.Finite 150000 (-2),
        _combos_from_session Escenario.servicios (Escenario.sesion [] [1]),
        [], Escenario.funcion) ∧
  match _calcular_totales_server_side Escenario.servicios (Escenario.config "4999.99")
          (Escenario.sesion [] [1]) with
  | Ok (te, tc, total, _, _, _) => te = Dec.Finite 0 (-2) ∧ total = tc
  | Raise _ => False
  end.
Proof.
  split; [vm_compute; reflexivity|]. split; [vm_compute; reflexivity|].
  pose proof (no_seats_no_ticket_charge Escenario.servicios (Escenario.config "4999.99")
                (Escenario.sesion [] [1]) 499999 (-2)
                ltac:(vm_compute; reflexivity) ltac:(reflexivity)) as H.
  destruct (_calcular_totales_server_side _ _ _) as [[[[[[te tc] total] cs] ss] sel]|err] eqn:E.
  - destruct H as (H1 & H2 & _). by split.
  - vm_compute in E. discriminate E.
Defined.

(** ** Refusals and failures of the route *)

(** X9.  A POST from a session without seats, or without a showtime, is
    refused before the card is looked at: whatever the form holds, the
    route returns the form with "Falta selección de función o asientos."
    and the server-side total, flashes one warning, and leaves the
    database as it was. *)
Theorem missing_selection_is_refused_first svc cfg now form db ses te tc total cs ss sel :
  _calcular_totales_server_side svc cfg ses = Ok (te, tc, total, cs, ss, sel) →
  _seats_from_session ses = [] ∨ _seleccion_from_session ses = ∅ →
  pago svc cfg now POST form db ses
  = (db, flash "Primero elegí función y asientos." "warning" ses,
     Returned (pago_html ["Falta selección de función o asientos."%string]
                 (_seats_from_session ses) total None)).
Proof.
  intros Hc Hsel. cbn [pago]. unfold pago_post. rewrite Hc.
  destruct (calcular_components _ _ _ _ _ _ _ _ _ Hc) as (_ & -> & -> & _).
  destruct Hsel as [->| ->]; [reflexivity|].
  rewrite bool_decide_eq_true_2 by done. by rewrite orb_true_r.
Qed.

Lemma missing_selection_is_refused_first_witness :
  pago Escenario.servicios (Escenario.config "5000") 1200 POST
    (Escenario.form_tarjeta "1.00") Escenario.db_con_hold (Escenario.sesion [] [1])
  = (Escenario.db_con_hold,
     flash "Primero elegí función y asientos." "warning" (Escenario.sesion [] [1]),
     Returned (pago_html ["Falta selección de función o asientos."%string] []
                 (Dec.Finite 150000 (-2)) None)).
Proof.
  apply (missing_selection_is_refused_first Escenario.servicios (Escenario.config "5000")
           1200 (Escenario.form_tarjeta "1.00") Escenario.db_con_hold
           (Escenario.sesion [] [1]) (Dec.Finite 0 (-2)) (Dec.Finite 150000 (-2))
           (Dec.Finite 150000 (-2))
           (_combos_from_session Escenario.servicios (Escenario.sesion [] [1]))
           [] Escenario.funcion);
    [vm_compute; reflexivity|left; reflexivity].
Defined.

(** X10.  A failure of the QR code or of the receipt comes after the
    approval.  Take a request that is approved; the same request with a
    QR generator that raises, or with a receipt generator that raises,
    leaves the database exactly as the approved run does, transaction
    APROBADO and seats committed, but ends in that exception, with the
    session still holding its seats, hold token and combos. *)
Theorem receipt_failure_after_approval svc cfg now form db ses db' ses' trx ss t b l4 a :
  pago svc cfg now POST form db ses
    = (db', ses', Returned (pago_ok_html trx ss t b l4 a)) →
  (∀ e pdf,
      pago (con_recibo svc (fun _ _ _ => Raise e) pdf) cfg now POST form db ses
      = (db', ses, Raised e)) ∧
  (∀ e,
      pago (con_recibo svc (generar_qr svc) (fun _ _ _ _ _ => Raise e))
        cfg now POST form db ses
      = (db', ses, Raised e)).
Proof.
  cbn [pago]. unfold pago_post at 1. intros H.
  assert (Hq : ∀ qr pdf,
    (∀ e, (∀ x y z, qr x y z = Raise e) ∨
          (qr = generar_qr svc ∧ ∀ v w x y z, pdf v w x y z = Raise e) →
     pago_post (con_recibo svc qr pdf) cfg now form db ses = (db', ses, Raised e))).
  { intros qr pdf e Hfail. unfold pago_post.
    change (_calcular_totales_server_side (con_recibo svc qr pdf) cfg ses)
      with (_calcular_totales_server_side svc cfg ses).
    destruct (_calcular_totales_server_side svc cfg ses)
      as [[[[[[te tc] total] cs] ss0] sel]|e0]; [|discriminate].
    destruct (Py.is_nil ss0 || bool_decide (sel = ∅)); [discriminate|].
    cbn [con_recibo validar_tarjeta format_2f detectar_brand strftime].
    destruct (negb _); [discriminate|].
    destruct (monto_cents_de total); [|discriminate].
    destruct (int_or_None _); [|discriminate].
    destruct (int_or_None _); [|discriminate].
    unfold pago_confirmar in *. cbn [con_recibo storage_error] in *.
    destruct (insert_transaccion _ _ _) as [[db1 trx1]|e1]; [|discriminate].
    unfold ejecutar_update in *.
    destruct (Store.confirm_seats _ _ _ _ _ _ _) as [db2 [confirmados|e1]];
      [|destruct e1; try discriminate;
        destruct (storage_error svc UPDATE_estado db2); discriminate].
    destruct (Py.is_nil confirmados);
      [destruct (storage_error svc UPDATE_estado db2); discriminate|].
    unfold pago_aprobado, ejecutar_update in *.
    cbn [con_recibo storage_error generar_qr generar_comprobante_pdf enviar_ticket] in *.
    destruct (storage_error svc UPDATE_estado db2); [discriminate|].
    destruct Hfail as [Hqr|[-> Hpdf]].
    - rewrite Hqr.
      destruct (generar_qr svc _ _ _); [|discriminate].
      destruct (generar_comprobante_pdf svc _ _ _ _ _); [|discriminate].
      destruct (enviar_ticket svc _ _ _) as [|[]]; try discriminate;
        by injection H as <- _ _.
    - destruct (generar_qr svc _ _ _); [|discriminate]. rewrite Hpdf.
      destruct (generar_comprobante_pdf svc _ _ _ _ _); [|discriminate].
      destruct (enviar_ticket svc _ _ _) as [|[]]; try discriminate;
        by injection H as <- _ _. }
  split.
  - intros e pdf. apply Hq. by left.
  - intros e. apply Hq. by right.
Qed.

Lemma receipt_failure_after_approval_witness :
  ∃ db' ses' t b l4 a,
    pago Escenario.servicios (Escenario.config "5000") 1200 POST
      (Escenario.form_tarjeta "1.00") Escenario.db_con_hold
      (Escenario.sesion ["C7"; "C8"]%string [1])
    = (db', ses', Returned (pago_ok_html 1 ["C7"; "C8"]%string t b l4 a)) ∧
    estado <$> lookup_trx db' 1 = Some "APROBADO"%string ∧
    length (reservas db') = 2%nat ∧
    pago (con_recibo Escenario.servicios
            (fun _ _ _ => Raise (OSError "No space left on device"))
            (generar_comprobante_pdf Escenario.servicios))
      (Escenario.config "5000") 1200 POST
      (Escenario.form_tarjeta "1.00") Escenario.db_con_hold
      (Escenario.sesion ["C7"; "C8"]%string [1])
    = (db', Escenario.sesion ["C7"; "C8"]%string [1],
       Raised (OSError "No space left on device")).
Proof.
  do 6 eexists. split; [vm_compute; reflexivity|].
  split; [vm_compute; reflexivity|]. split; [vm_compute; reflexivity|].
  eapply (proj1 (receipt_failure_after_approval Escenario.servicios
                   (Escenario.config "5000") 1200 (Escenario.form_tarjeta "1.00")
                   Escenario.db_con_hold (Escenario.sesion ["C7"; "C8"]%string [1])
                   _ _ _ _ _ _ _ _ ltac:(vm_compute; reflexivity))).
Defined.

(** X11.  A mail that fails does not change the sale: as long as
    [enviar_ticket] returns or raises [OSError], [ValueError] or
    [RuntimeError], the result of a request (database, session and
    response) does not depend on what it does. *)
Theorem mail_failure_changes_nothing svc f g cfg now method form db ses :
  (∀ a b c, tolerado (f a b c)) → (∀ a b c, tolerado (g a b c)) →
  pago (con_correo svc f) cfg now method form db ses
  = pago (con_correo svc g) cfg now method form db ses.
Proof.
  intros Hf Hg. destruct method; [reflexivity|].
  cbn [pago]. unfold pago_post.
  change (_calcular_totales_server_side (con_correo svc g) cfg ses)
    with (_calcular_totales_server_side (con_correo svc f) cfg ses).
  destruct (_calcular_totales_server_side (con_correo svc f) cfg ses)
    as [[[[[[te tc] total] cs] ss] sel]|e]; [|reflexivity].
  destruct (Py.is_nil ss || bool_decide (sel = ∅)); [reflexivity|].
  cbn [con_correo validar_tarjeta format_2f detectar_brand strftime].
  destruct (negb _); [reflexivity|].
  destruct (monto_cents_de total); [|reflexivity].
  destruct (int_or_None _); [|reflexivity].
  destruct (int_or_None _); [|reflexivity].
  unfold pago_confirmar. cbn [con_correo storage_error].
  destruct (insert_transaccion _ _ _) as [[db1 trx1]|e]; [|reflexivity].
  destruct (Store.confirm_seats _ _ _ _ _ _ _) as [db2 [confirmados|e]]; [|reflexivity].
  destruct (Py.is_nil confirmados); [reflexivity|].
  unfold pago_aprobado, ejecutar_update.
  cbn [con_correo storage_error generar_qr generar_comprobante_pdf enviar_ticket].
  destruct (storage_error svc UPDATE_estado db2); [reflexivity|].
  destruct (generar_qr svc _ _ _); [|reflexivity].
  destruct (generar_comprobante_pdf svc _ _ _ _ _) as [pdf|]; [|reflexivity].
  match goal with |- context [f ?a ?b ?c] =>
    specialize (Hf a b c); specialize (Hg a b c);
    destruct (f a b c) as [|[]], (g a b c) as [|[]] end;
    cbn [tolerado] in *; try done.
Qed.

Lemma mail_failure_changes_nothing_witness :
  pago (con_correo Escenario.servicios (fun _ _ _ => Raise (OSError "Connection refused")))
    (Escenario.config "5000") 1200 POST (Escenario.form_tarjeta "1.00")
    Escenario.db_con_hold (Escenario.sesion ["C7"; "C8"]%string [1])
  = pago (con_correo Escenario.servicios (fun _ _ _ => Ok tt))
    (Escenario.config "5000") 1200 POST (Escenario.form_tarjeta "1.00")
    Escenario.db_con_hold (Escenario.sesion ["C7"; "C8"]%string [1]) ∧
  ∃ db' ses' t brand l4 auth,
    pago (con_correo Escenario.servicios (fun _ _ _ => Raise (OSError "Connection refused")))
      (Escenario.config "5000") 1200 POST (Escenario.form_tarjeta "1.00")
      Escenario.db_con_hold (Escenario.sesion ["C7"; "C8"]%string [1])
    = (db', ses', Returned (pago_ok_html 1 ["C7"; "C8"]%string t brand l4 auth)).
Proof.
  split.
  - apply mail_failure_changes_nothing; intros; exact I.
  - do 6 eexists. vm_compute. reflexivity.
Defined.

(** ** The migration on any schema *)

Section MigrationOnlyAdds.

Import Migr.

Lemma conserva_refl s : conserva s s.
Proof. split; [|done]. intros t Ht. exists t. by repeat split. Qed.

Lemma conserva_trans s1 s2 s3 : conserva s1 s2 → conserva s2 s3 → conserva s1 s3.
Proof.
  intros [H1 I1] [H2 I2]. split; [|by auto].
  intros t Ht. destruct (H1 t Ht) as (t' & Ht' & Hn' & Hp').
  destruct (H2 t' Ht') as (t'' & Ht'' & Hn'' & Hp'').
  exists t''. split; [done|]. split; [congruence|by etrans].
Qed.

Lemma appended_conserva s s' : appended s s' → conserva s s'.
Proof.
  intros (ts & ixs & Ht & Hi). split.
  - intros t Hin. exists t. rewrite Ht. split; [apply elem_of_app; by left|done].
  - intros i Hin. rewrite Hi. apply elem_of_app. by left.
Qed.

Lemma add_column_conserva name c ts t :
  t ∈ ts →
  ∃ t', t' ∈ add_column name c ts ∧ tbl_name t' = tbl_name t ∧
        tbl_cols t `prefix_of` tbl_cols t'.
Proof.
  induction ts as [|x ts IH]; [by intros ?%elem_of_nil|].
  cbn [add_column]. intros [->|Hin]%elem_of_cons.
  - destruct (ieq (tbl_name x) name).
    + eexists. split; [apply list_elem_of_here|]. split; [done|]. by apply prefix_app_r.
    + exists x. split; [apply list_elem_of_here|done].
  - destruct (ieq (tbl_name x) name).
    + exists t. split; [by apply list_elem_of_further|done].
    + destruct (IH Hin) as (t' & ? & ? & ?). exists t'.
      split; [by apply list_elem_of_further|done].
Qed.

Lemma alter_conserva s table n d s' :
  alter_add_column s table n d = Ok s' → conserva s s'.
Proof.
  unfold alter_add_column. destruct (find_table s table); [|discriminate].
  destruct (has_column _ _); [discriminate|]. intros [= <-].
  split; [|done]. intros t0 Ht0. cbn [tables]. by apply add_column_conserva.
Qed.

Lemma try_add_column_conserva s c s' : try_add_column s c = Ok s' → conserva s s'.
Proof.
  unfold try_add_column.
  destruct (alter_add_column s _ _ _) as [s1|e] eqn:Ha.
  - intros [= <-]. by eapply alter_conserva.
  - destruct e; try discriminate. intros [= <-]. apply conserva_refl.
Qed.

Lemma add_columns_conserva cs : ∀ s s', add_columns cs s = Ok s' → conserva s s'.
Proof.
  induction cs as [|c cs IH]; intros s s'; cbn [add_columns].
  - intros [= <-]. apply conserva_refl.
  - destruct (try_add_column s c) as [s1|e] eqn:H1; cbn [bind]; [|discriminate].
    intros H2. eapply conserva_trans; [by eapply try_add_column_conserva|by apply IH].
Qed.

Lemma migrar_email_conserva s s' : migrar_email s = Ok s' → conserva s s'.
Proof.
  unfold migrar_email. destruct (find_table s _); [|intros [= <-]; apply conserva_refl].
  destruct (has_column _ _); [|intros [= <-]; apply conserva_refl].
  destruct (alter_add_column s _ _ _) as [s1|e] eqn:Ha.
  - intros [= <-]. by eapply alter_conserva.
  - destruct e; try discriminate. intros [= <-]. apply conserva_refl.
Qed.

(** X12.  The migration only adds: whatever the schema and however the
    migration ends, every table that was there is still there under the
    same name, with the columns it had, unchanged and in the same order,
    at the front of its column list, and every index is kept. *)
Theorem migration_only_adds s :
  conserva s (migrate_add_mercadopago_support s).1.
Proof.
  unfold migrate_add_mercadopago_support.
  destruct (master_lookup s "transacciones").
  - destruct (add_columns new_columns s) as [s1|e] eqn:H1; [|apply conserva_refl].
    pose proof (add_columns_conserva _ _ _ H1) as C1.
    destruct (migrar_email s1) as [s2|e] eqn:H2; [|exact C1].
    pose proof (migrar_email_conserva _ _ H2) as C2.
    destruct (executescript script_auxiliares s2) as [s3 r3] eqn:H3. cbn [fst].
    eapply conserva_trans; [exact C1|]. eapply conserva_trans; [exact C2|].
    apply appended_conserva. by eapply executescript_appended.
  - destruct (executescript script_transacciones s) as [s1 r1] eqn:H1.
    pose proof (appended_conserva _ _ (executescript_appended _ _ _ _ H1)) as C1.
    destruct r1 as [u|e]; [|exact C1].
    destruct (executescript script_auxiliares s1) as [s3 r3] eqn:H3. cbn [fst].
    eapply conserva_trans; [exact C1|].
    apply appended_conserva. by eapply executescript_appended.
Qed.

End MigrationOnlyAdds.

(** X13.  The migration raises on a table created under another letter
    case.  When [sqlite_master] has no table named exactly
    [transacciones] while SQLite finds one under that name, the table
    lacks the column [usuario_email] and the index
    [idx_transacciones_email] does not exist, the [CREATE TABLE IF NOT
    EXISTS] of the migration does nothing, its first [CREATE INDEX] fails
    on the missing column, and the migration re-raises that
    [OperationalError], leaving the schema as it was.  So it is for a
    table created as [Transacciones]. *)
Theorem migration_raises_on_renamed_table s t :
  Migr.master_lookup s "transacciones" = None →
  Migr.find_table s "transacciones" = Some t →
  Migr.has_column t "usuario_email" = false →
  Migr.has_index s "idx_transacciones_email" = false →
  ∃ msg, Migr.migrate_add_mercadopago_support s = (s, Raise (OperationalError msg)).
Proof.
  intros Hm HT Hc Hi. unfold Migr.migrate_add_mercadopago_support. rewrite Hm.
  rewrite script_transacciones_split, executescript_cons. cbn [Migr.exec]. rewrite HT.
  cbn [Migr.script_transacciones tail]. rewrite executescript_cons. cbn [Migr.exec].
  rewrite HT, Hi. cbn [forallb]. rewrite Hc. cbn [andb]. eauto.
Qed.

Lemma migration_raises_on_renamed_table_witness :
  Migr.master_lookup esquema_renombrado "transacciones" = None ∧
  is_Some (Migr.find_table esquema_renombrado "transacciones") ∧
  ∃ msg, Migr.migrate_add_mercadopago_support esquema_renombrado
         = (esquema_renombrado, Raise (OperationalError msg)).
Proof.
  split; [vm_compute; reflexivity|]. split; [vm_compute; eauto|].
  eapply (migration_raises_on_renamed_table esquema_renombrado);
    vm_compute; reflexivity.
Defined.

Section FreshDatabase.

Import Migr.



End FreshDatabase.



(** X15.  [check_migration_needed] searches the stored [CREATE TABLE]
    text: it answers False as soon as each of the three names occurs in
    the name or in the definition of some column of [transacciones], and
    it answers False only if a table named exactly [transacciones]
    exists.  A table that has none of the three columns, but spells their
    names inside another column name and a default, is therefore not
    reported as needing the migration. *)
Theorem check_reads_text :
  (∀ s t,
      Migr.master_lookup s "transacciones" = Some t →
      (∀ n, n ∈ Migr.mp_columns →
            ∃ c, c ∈ Migr.tbl_cols t ∧
                 (Migr.occurs n (Migr.col_name c) ∨ Migr.occurs n (Migr.col_def c))) →
      Migr.check_migration_needed s = false) ∧
  (∀ s, Migr.check_migration_needed s = false →
        is_Some (Migr.master_lookup s "transacciones")) ∧
  (∃ t, Migr.master_lookup esquema_homonimos "transacciones" = Some t ∧
        Migr.check_migration_needed esquema_homonimos = false ∧
        ∀ n, n ∈ Migr.mp_columns → Migr.has_column t n = false).
Proof.
  split; [|split].
  - intros s t Hm Hcols. unfold Migr.check_migration_needed. rewrite Hm.
    apply negb_false_iff, forallb_forall. intros n Hn%list_elem_of_In.
    destruct (Hcols n Hn) as (c & Hc & Hocc).
    apply occurs_contains. unfold Migr.table_sql.
    do 3 apply occurs_app_r. apply occurs_app_l.
    apply (occurs_concat _ _ (Migr.col_name c ++ " " ++ Migr.col_def c)%string).
    + apply list_elem_of_fmap. by exists c.
    + destruct Hocc as [H|H]; [by apply occurs_app_l|by do 2 apply occurs_app_r].
  - intros s. unfold Migr.check_migration_needed.
    destruct (Migr.master_lookup s "transacciones"); [by eexists|discriminate].
  - eexists. split; [reflexivity|]. split; [vm_compute; reflexivity|].
    intros n Hn. unfold Migr.mp_columns in Hn.
    repeat (apply elem_of_cons in Hn as [->|Hn]; [vm_compute; reflexivity|]).
    by apply elem_of_nil in Hn.
Qed.


(** ** Sample data *)

Section SampleData.

Import Muestra.

Lemma insert_rows_grows {R} (rows : list R) : ∀ t,
  admite (insert_rows rows t) = admite t ∧
  ∃ done, done `prefix_of` rows ∧ filas (insert_rows rows t) = filas t ++ done ∧
          ((∀ l r, admite t l r = true) → done = rows).
Proof.
  induction rows as [|r rows IH]; intros t; cbn [insert_rows].
  - split; [done|]. exists []. split; [done|]. by rewrite app_nil_r.
  - unfold insert_row. destruct (admite t (filas t) r) eqn:Ha.
    + destruct (IH {| filas := filas t ++ [r]; admite := admite t |})
        as (Hadm & done & Hpre & Hf & Hall).
      split; [exact Hadm|]. exists (r :: done). split; [by apply prefix_cons|].
      split; [by rewrite Hf; cbn [filas]; rewrite <- app_assoc|].
      intros H. f_equal. by apply Hall.
    + split; [done|]. exists []. split; [apply prefix_nil|]. split; [by rewrite app_nil_r|].
      intros H. rewrite H in Ha. discriminate.
Qed.

Lemma insert_rows_same_or_filled {R} (rows : list R) (t : Tabla R) :
  filas t = [] → insert_rows rows t = t ∨ filas (insert_rows rows t) ≠ [].
Proof.
  intros Hempty. destruct rows as [|r rows]; [by left|]. cbn [insert_rows]. unfold insert_row.
  destruct (admite t (filas t) r); [right|by left].
  destruct (insert_rows_grows rows {| filas := filas t ++ [r]; admite := admite t |})
    as (_ & done & _ & -> & _).
  cbn [filas]. rewrite Hempty. discriminate.
Qed.

Lemma seed_idempotent {R} (rows : list R) t : seed rows (seed rows t) = seed rows t.
Proof.
  destruct t as [t|]; [|done]. cbn [seed].
  destruct (filas t) as [|x l] eqn:Hf; cbn [Py.is_nil].
  - destruct (insert_rows_same_or_filled rows t Hf) as [E|Hne].
    + rewrite E. cbn [seed]. rewrite Hf. cbn [Py.is_nil]. by rewrite E.
    + cbn [seed]. destruct (filas (insert_rows rows t)); [done|reflexivity].
  - cbn [seed]. by rewrite Hf.
Qed.

Lemma seed_spec {R} (rows : list R) (t : option (Tabla R)) :
  match t with
  | None => seed rows t = None
  | Some t0 =>
      if Py.is_nil (filas t0) then
        ∃ t', seed rows t = Some t' ∧ admite t' = admite t0 ∧
              filas t' `prefix_of` rows ∧
              ((∀ l r, admite t0 l r = true) → filas t' = rows)
      else seed rows t = Some t0
  end.
Proof.
  destruct t as [t0|]; [|done]. cbn [seed].
  destruct (filas t0) as [|x l] eqn:Hf; cbn [Py.is_nil]; [|done].
  destruct (insert_rows_grows rows t0) as (Hadm & done & Hpre & Hfil & Hall).
  rewrite Hf in Hfil. cbn [app] in Hfil.
  eexists. split; [done|]. split; [done|]. rewrite Hfil. split; [done|exact Hall].
Qed.

End SampleData.

(** X17.  [insert_sample_data] is idempotent: running it again on the
    data it left changes nothing, so the sample rows are never
    duplicated, whether the first run inserted all of them, some of them
    or none. *)
Theorem sample_data_idempotent d :
  Muestra.insert_sample_data (Muestra.insert_sample_data d) = Muestra.insert_sample_data d.
Proof.
  unfold Muestra.insert_sample_data. cbn [Muestra.funciones Muestra.combos].
  by rewrite !seed_idempotent.
Qed.

(** X18.  [insert_sample_data] touches only empty tables.  A table that
    does not exist stays missing, a table that holds a row is left as it
    is, and an empty table receives sample rows in the listed order up to
    the first [INSERT] that fails: all of them when the table accepts
    every row. *)
Theorem sample_data_fills_only_empty_tables d :
  match Muestra.funciones d with
  | None => Muestra.funciones (Muestra.insert_sample_data d) = None
  | Some t =>
      if Py.is_nil (Muestra.filas t) then
        ∃ t', Muestra.funciones (Muestra.insert_sample_data d) = Some t' ∧
              Muestra.admite t' = Muestra.admite t ∧
              Muestra.filas t' `prefix_of` Muestra.sample_funciones ∧
              ((∀ l r, Muestra.admite t l r = true) →
               Muestra.filas t' = Muestra.sample_funciones)
      else Muestra.funciones (Muestra.insert_sample_data d) = Some t
  end ∧
  match Muestra.combos d with
  | None => Muestra.combos (Muestra.insert_sample_data d) = None
  | Some t =>
      if Py.is_nil (Muestra.filas t) then
        ∃ t', Muestra.combos (Muestra.insert_sample_data d) = Some t' ∧
              Muestra.admite t' = Muestra.admite t ∧
              Muestra.filas t' `prefix_of` Muestra.sample_combos ∧
              ((∀ l r, Muestra.admite t l r = true) →
               Muestra.filas t' = Muestra.sample_combos)
      else Muestra.combos (Muestra.insert_sample_data d) = Some t
  end.
Proof.
  split.
  - exact (seed_spec Muestra.sample_funciones (Muestra.funciones d)).
  - exact (seed_spec Muestra.sample_combos (Muestra.combos d)).
Qed.

(** ** Boolean settings, the test mail and the entry point *)

Section BoolEnv.

Lemma lstrip_spaces pre l :
  forallb Py.is_space pre = true → Py.lstrip (pre ++ l) = Py.lstrip l.
Proof.
  induction pre as [|a pre IH]; [done|]. cbn [forallb app Py.lstrip].
  intros [Ha Hp]%andb_true_iff. rewrite Ha. by apply IH.
Qed.

Lemma lstrip_head a l : Py.is_space a = false → Py.lstrip (a :: l) = a :: l.
Proof. intros H. cbn [Py.lstrip]. by rewrite H. Qed.

Lemma forallb_rev {A} (p : A → bool) l : forallb p (rev l) = forallb p l.
Proof.
  induction l as [|a l IH]; [done|]. cbn [rev forallb].
  rewrite forallb_app, IH. cbn [forallb]. rewrite andb_true_r. apply andb_comm.
Qed.

Lemma lstrip_no_space l :
  forallb (fun a => negb (Py.is_space a)) l = true → Py.lstrip l = l.
Proof.
  destruct l as [|a l]; [done|]. cbn [forallb].
  intros [Ha _]%andb_true_iff. apply lstrip_head. by apply negb_true_iff.
Qed.

Lemma lstrip_blank l : forallb Py.is_space l = true → Py.lstrip l = [].
Proof.
  induction l as [|a l IH]; [done|]. cbn [forallb Py.lstrip].
  intros [Ha Hl]%andb_true_iff. rewrite Ha. by apply IH.
Qed.

Lemma strip_padded pre w post :
  forallb Py.is_space pre = true → forallb Py.is_space post = true →
  forallb (fun a => negb (Py.is_space a)) w = true →
  Py.strip (pre ++ w ++ post) = w.
Proof.
  intros Hpre Hpost Hw. unfold Py.strip.
  rewrite lstrip_spaces by done.
  destruct w as [|a w].
  - cbn [app]. by rewrite (lstrip_blank post Hpost).
  - cbn [app]. rewrite lstrip_head
      by (cbn [forallb] in Hw; apply andb_true_iff in Hw as [Ha _]; by apply negb_true_iff).
    change (a :: w ++ post) with ((a :: w) ++ post). rewrite rev_app_distr.
    rewrite lstrip_spaces by (by rewrite forallb_rev).
    rewrite lstrip_no_space by (by rewrite forallb_rev). apply rev_involutive.
Qed.

Lemma strip_blank l : forallb Py.is_space l = true → Py.strip l = [].
Proof. intros H. unfold Py.strip. by rewrite (lstrip_blank l H). Qed.

Lemma is_space_lower a : Py.is_space (Py.lower_char a) = Py.is_space a.
Proof.
  unfold Py.lower_char.
  destruct ((65 <=? Py.code a) && (Py.code a <=? 90)) eqn:E; [|done].
  apply andb_true_iff in E as [E1 E2]. apply Z.leb_le in E1, E2.
  unfold Py.is_space.
  assert (Hc : Py.code (ascii_of_nat (nat_of_ascii a + 32)) = Py.code a + 32).
  { unfold Py.code in *. rewrite nat_ascii_embedding; lia. }
  rewrite Hc.
  repeat match goal with |- context [?x <=? ?y] => destruct (Z.leb_spec x y) end;
    try reflexivity; lia.
Qed.

Lemma truthy_no_space w :
  Py.str (Py.lower w) ∈ truthy →
  forallb (fun a => negb (Py.is_space a)) w = true.
Proof.
  intros Hin.
  assert (H : forallb (fun a => negb (Py.is_space a)) (Py.lower w) = true).
  { rewrite <- (list_ascii_of_string_of_list_ascii (Py.lower w)).
    fold (Py.str (Py.lower w)). unfold truthy in Hin.
    repeat (apply elem_of_cons in Hin as [->|Hin]; [reflexivity|]).
    by apply elem_of_nil in Hin. }
  unfold Py.lower in H. clear Hin. induction w as [|a w IH]; [done|].
  cbn [map forallb] in *. apply andb_true_iff in H as [Ha Hw].
  rewrite is_space_lower in Ha. rewrite Ha. by apply IH.
Qed.

End BoolEnv.

(** X19.  In [_bool_env] the default counts only for a variable that is
    not set: for a variable that is set the result does not depend on
    the default, and a variable set to the empty string or to blanks
    gives False, also for a flag whose default is True. *)
Theorem bool_env_set_variable_decides env name :
  (env !! name = None → ∀ d, _bool_env env name d = d) ∧
  (is_Some (env !! name) → _bool_env env name true = _bool_env env name false) ∧
  (∀ v, env !! name = Some v → forallb Py.is_space (Py.chars v) = true →
        ∀ d, _bool_env env name d = false).
Proof.
  unfold _bool_env. split; [|split].
  - by intros ->.
  - by intros [v ->].
  - intros v -> Hv d. apply bool_decide_eq_false. rewrite (strip_blank _ Hv).
    vm_compute. intros H. by repeat (apply elem_of_cons in H as [H|H]; [discriminate H|]);
      apply elem_of_nil in H.
Qed.

(** X20.  [_bool_env] takes "1", "true", "yes", "y" and "on" for True in
    any letter case and with any ASCII white space before and after. *)
Theorem bool_env_accepts_case_and_padding env name d pre w post :
  env !! name = Some (Py.str (pre ++ w ++ post)) →
  forallb Py.is_space pre = true → forallb Py.is_space post = true →
  Py.str (Py.lower w) ∈ truthy →
  _bool_env env name d = true.
Proof.
  unfold _bool_env. intros -> Hpre Hpost Hw. apply bool_decide_eq_true.
  unfold Py.chars, Py.str at 2.
  rewrite (list_ascii_of_string_of_list_ascii (pre ++ w ++ post)).
  by rewrite strip_padded by (try done; by apply truthy_no_space).
Qed.

Lemma bool_env_accepts_case_and_padding_witness :
  _bool_env {[ "EMAIL_DEBUG" := String "009" " Yes  " ]}%string "EMAIL_DEBUG" false = true.
Proof.
  apply (bool_env_accepts_case_and_padding _ _ false
           (Py.chars (String "009" " ")) (Py.chars "Yes") (Py.chars "  "));
    [reflexivity|reflexivity|reflexivity|].
  apply (bool_decide_unpack _). vm_compute. exact I.
Defined.

(** X21.  The command [send-test-email] hands a message to [mail.send]
    exactly when TEST_EMAIL_TO is set and not empty and EMAIL_DEBUG is
    set to something that [_bool_env] does not take for true; the message
    then goes to TEST_EMAIL_TO alone.  In particular nothing is sent while
    EMAIL_DEBUG is not set. *)
Theorem test_email_needs_debug_off send str_exn env msg :
  (send_test_email send str_exn env).2 = Some msg ↔
  ∃ to v,
    env !! "TEST_EMAIL_TO" = Some to ∧ to ≠ ""%string ∧
    env !! "EMAIL_DEBUG" = Some v ∧
    (Py.str (Py.lower (Py.strip (Py.chars v))) ∉ truthy) ∧
    msg = {| subject := "Prueba Cinema3D"; recipients := [to];
             body := "Esto es un email de prueba desde Cinema3D." |}.
Proof.
  unfold send_test_email, _bool_env. split.
  - destruct (env !! "TEST_EMAIL_TO") as [to|] eqn:Hto; [|discriminate].
    destruct (String.eqb_spec to ""); [discriminate|].
    destruct (env !! "EMAIL_DEBUG") as [v|] eqn:Hv; [|discriminate].
    destruct (bool_decide _) eqn:Hd; [discriminate|].
    apply bool_decide_eq_false in Hd.
    intros Hs. exists to, v. repeat (split; [done|]).
    destruct (send _); cbn in Hs; by injection Hs as <-.
  - intros (to & v & -> & Hne & -> & Hv & ->).
    destruct (String.eqb_spec to ""); [done|].
    rewrite (bool_decide_eq_false_2 _ Hv). by destruct (send _).
Qed.

(** X22.  [wsgi.py] run as a script starts exactly when [create_app]
    succeeds and FLASK_RUN_PORT is an integer literal.  The debug flag is
    on when FLASK_DEBUG is not set, and a value that switches it on is
    also one that [_bool_env] takes for true; the converse fails, since
    the test of [wsgi.py] is exact: FLASK_DEBUG=TRUE leaves debug off. *)
Theorem wsgi_main_reads_port_and_debug :
  (∀ env,
      is_ok (wsgi_main env)
      = is_ok (create_app env) && is_ok (Py.int (getenv env "FLASK_RUN_PORT" "5000"))) ∧
  (∀ env cfg host port debug,
      wsgi_main env = Ok (cfg, (host, port, debug)) →
      create_app env = Ok cfg ∧
      Py.int (getenv env "FLASK_RUN_PORT" "5000") = Ok port ∧
      (env !! "FLASK_DEBUG" = None → debug = true) ∧
      (debug = true → _bool_env env "FLASK_DEBUG" true = true)) ∧
  (∃ env cfg host port,
      wsgi_main env = Ok (cfg, (host, port, false)) ∧
      _bool_env env "FLASK_DEBUG" true = true).
Proof.
  split; [|split].
  - intros env. unfold wsgi_main.
    destruct (create_app env); cbn [bind is_ok andb]; [|done].
    by destruct (Py.int _).
  - intros env cfg host port debug. unfold wsgi_main.
    destruct (create_app env) as [cfg'|]; cbn [bind]; [|discriminate].
    destruct (Py.int _) as [port'|]; cbn [bind]; [|discriminate].
    intros [= <- <- <- <-]. split; [done|]. split; [done|].
    unfold getenv, _bool_env. destruct (env !! "FLASK_DEBUG") as [v|]; cbn [default].
    + split; [discriminate|]. intros Hd%bool_decide_eq_true.
      apply bool_decide_eq_true. change (id v) with v in Hd.
      repeat (apply elem_of_cons in Hd as [->|Hd];
              [apply (bool_decide_unpack _); vm_compute; exact I|]).
      by apply elem_of_nil in Hd.
    + split; [|done]. intros _. apply bool_decide_eq_true.
      apply list_elem_of_here.
  - exists {[ "FLASK_DEBUG" := "TRUE" ]}%string. do 3 eexists.
    split; vm_compute; reflexivity.
Qed.

